(** * A file-transfer service over raw TCP: framing and transfer engine

    Shallow embedding of [file_server.py] (the connection handler
    [handle_client_raw] with its helpers) and of the receiving half of
    [file_client_cli_test.py] ([recv_until], the request bytes written by
    [send_command], the payload loop after the response header).

    Conventions of the embedding.
    - A Python [bytes] value is a [list byte]; a Python [str] is the list of
      its code points, each a [Z].
    - A connected socket is the list of segments the peer's data arrives in;
      [recv n] hands out at most [n] bytes of the first segment, and the
      empty result stands for the peer having closed the stream.
    - The file system is the storage collaborator the specification
      describes: a flat store from paths to the contents of the regular
      files, with [exists], the size, opening for reading and opening for
      writing with truncation.  Besides its files a directory holds the
      entries [.] and [..], which name directories: a path that ends in one
      of them, and at which the store holds no file, is a directory, where
      [exists] is true, the size is the system's and [open] raises.  Every
      access is recorded in a log, so that "the file was never opened" can
      be stated.
    - [send_json_response] serialises a dictionary with [json.dumps] and
      appends the delimiter; the embedding keeps the JSON value itself as the
      message put on the wire, followed by the raw payload chunks.
    - Logging has no effect on the connection or on the storage and is left
      out.  The handler's [except Exception] clause is entered when [open]
      raises at a directory, and sends the text of the error; what the
      system says of a directory is a parameter ([Platform]).  The other
      failures of the operating system that the clause guards (a broken
      pipe, a full disk, a name too long for the file system) have no place
      in the model's socket and file system.
    - The bytes of a response are those of [json.dumps] with its defaults
      (module [Json]) followed by the delimiter (module [Wire]).  The
      client's [json.loads] is not embedded: where a statement follows a
      response into the client, the client goes on with the JSON value whose
      text it has received.
    - [start_server_single] is the handler run on one connection after the
      other (module [Dispatcher]); the servers that hand connections to a
      pool, the stress test and the command lines are not embedded. *)

From Stdlib Require Import ZArith Lia Strings.String Strings.Ascii Init.Byte.
From stdpp Require Import gmap list numbers strings.
From Equations Require Import Equations.

Open Scope Z_scope.

(** ** Python values *)

Abbreviation bytes := (list byte).
Abbreviation text := (list Z).

Definition byte_val (b : byte) : Z := Z.of_N (Byte.to_N b).
Definition byte_of (z : Z) : byte := default x00 (Byte.of_N (Z.to_N z)).

(** Literals: [b"..."] and ["..."] of the source, for ASCII contents. *)
Definition blit (s : string) : bytes := list_byte_of_string s.
Definition tlit (s : string) : text := map byte_val (list_byte_of_string s).

Definition inspect {A} (a : A) : {b | a = b} := exist _ a eq_refl.

(** The part of Python's Unicode database the handler consults, for the code
    points from 128 on: [str.isalnum] (through [\w] of [re]), the full
    upper-case mapping of [str.upper], and the decimal value [int] reads.
    The database is no part of the repository: it is a parameter. *)
Class UnicodeData := {
  uni_isalnum : Z -> bool;
  uni_toupper : Z -> list Z;
  uni_todecimal : Z -> option Z
}.

(** A database that is empty beyond ASCII. *)
Definition ascii_only : UnicodeData :=
  {| uni_isalnum := fun _ => false;
     uni_toupper := fun c => [c];
     uni_todecimal := fun _ => None |}.

(** What the operating system says of a directory: the size
    [os.path.getsize] gives for it, and the text [str(e)] of the error [e]
    that [open] raises at it ([IsADirectoryError] on a POSIX system).  Both
    vary from system to system: they are parameters. *)
Class Platform := {
  dir_size : text -> Z;
  open_dir_error : text -> text
}.

(** A POSIX system with directories of one block, for concrete requests;
    the path is one of plain characters, which [repr] puts between
    quotes. *)
Definition posix : Platform :=
  {| dir_size := fun _ => 4096;
     open_dir_error := fun path =>
       tlit "[Errno 21] Is a directory: '" ++ path ++ tlit "'" |}.

Module Py.

(** *** [bytes.find], [in], slices *)

Fixpoint starts_with (needle l : bytes) : bool :=
  match needle, l with
  | [], _ => true
  | _ :: _, [] => false
  | x :: needle', y :: l' => Byte.eqb x y && starts_with needle' l'
  end.

Fixpoint find_from (needle l : bytes) (i : Z) : Z :=
  if starts_with needle l then i
  else match l with
       | [] => -1
       | _ :: l' => find_from needle l' (i + 1)
       end.

(** [l.find(needle)]: the least index of an occurrence, or -1. *)
Definition find (l needle : bytes) : Z := find_from needle l 0.

(** [needle in l]. *)
Definition contains (needle l : bytes) : bool := 0 <=? find l needle.

(** [l[i:]] for an index that is not negative. *)
Definition slice_from (l : bytes) (i : Z) : bytes := drop (Z.to_nat i) l.

(** [l[:i]] for an index that is not negative. *)
Definition slice_to (l : bytes) (i : Z) : bytes := take (Z.to_nat i) l.

(** *** UTF-8 *)

Definition is_cont (c : Z) : bool := (0x80 <=? c) && (c <=? 0xBF).

Definition second_of_3 (c0 c1 : Z) : bool :=
  is_cont c1 &&
  (if c0 =? 0xE0 then 0xA0 <=? c1 else if c0 =? 0xED then c1 <? 0xA0 else true).

Definition second_of_4 (c0 c1 : Z) : bool :=
  is_cont c1 &&
  (if c0 =? 0xF0 then 0x90 <=? c1 else if c0 =? 0xF4 then c1 <? 0x90 else true).

Definition cp2 (c0 c1 : Z) : Z :=
  Z.lor (Z.shiftl (Z.land c0 0x1F) 6) (Z.land c1 0x3F).
Definition cp3 (c0 c1 c2 : Z) : Z :=
  Z.lor (Z.shiftl (Z.land c0 0x0F) 12)
        (Z.lor (Z.shiftl (Z.land c1 0x3F) 6) (Z.land c2 0x3F)).
Definition cp4 (c0 c1 c2 c3 : Z) : Z :=
  Z.lor (Z.shiftl (Z.land c0 0x07) 18)
        (Z.lor (Z.shiftl (Z.land c1 0x3F) 12)
               (Z.lor (Z.shiftl (Z.land c2 0x3F) 6) (Z.land c3 0x3F))).

(** The decoder's pass over the bytes: a code point for every well-formed
    sequence, [None] for every maximal ill-formed part (a wrong start byte,
    a sequence cut by a byte that does not continue it, a sequence cut by
    the end of the data). *)
Fixpoint utf8_scan (bs : bytes) : list (option Z) :=
  match bs with
  | [] => []
  | b0 :: r0 =>
    let c0 := byte_val b0 in
    if c0 <? 0x80 then Some c0 :: utf8_scan r0
    else if c0 <? 0xC2 then None :: utf8_scan r0
    else if c0 <? 0xE0 then
      match r0 with
      | [] => [None]
      | b1 :: r1 =>
        let c1 := byte_val b1 in
        if is_cont c1 then Some (cp2 c0 c1) :: utf8_scan r1
        else None :: utf8_scan r0
      end
    else if c0 <? 0xF0 then
      match r0 with
      | [] => [None]
      | b1 :: r1 =>
        let c1 := byte_val b1 in
        if second_of_3 c0 c1 then
          match r1 with
          | [] => [None]
          | b2 :: r2 =>
            let c2 := byte_val b2 in
            if is_cont c2 then Some (cp3 c0 c1 c2) :: utf8_scan r2
            else None :: utf8_scan r1
          end
        else None :: utf8_scan r0
      end
    else if c0 <? 0xF5 then
      match r0 with
      | [] => [None]
      | b1 :: r1 =>
        let c1 := byte_val b1 in
        if second_of_4 c0 c1 then
          match r1 with
          | [] => [None]
          | b2 :: r2 =>
            let c2 := byte_val b2 in
            if is_cont c2 then
              match r2 with
              | [] => [None]
              | b3 :: r3 =>
                let c3 := byte_val b3 in
                if is_cont c3 then Some (cp4 c0 c1 c2 c3) :: utf8_scan r3
                else None :: utf8_scan r2
              end
            else None :: utf8_scan r1
          end
        else None :: utf8_scan r0
      end
    else None :: utf8_scan r0
  end.

(** [bs.decode(errors='replace')]: U+FFFD for every ill-formed part. *)
Definition decode_replace (bs : bytes) : text :=
  map (default 0xFFFD) (utf8_scan bs).

(** [bs.decode()]: [None] stands for [UnicodeDecodeError]. *)
Definition decode_strict (bs : bytes) : option text := mapM id (utf8_scan bs).

Definition encode_char (c : Z) : option bytes :=
  if c <? 0 then None
  else if c <? 0x80 then Some [byte_of c]
  else if c <? 0x800 then
    Some [byte_of (Z.lor 0xC0 (Z.shiftr c 6));
          byte_of (Z.lor 0x80 (Z.land c 0x3F))]
  else if c <? 0x10000 then
    if (0xD800 <=? c) && (c <=? 0xDFFF) then None
    else Some [byte_of (Z.lor 0xE0 (Z.shiftr c 12));
               byte_of (Z.lor 0x80 (Z.land (Z.shiftr c 6) 0x3F));
               byte_of (Z.lor 0x80 (Z.land c 0x3F))]
  else if c <? 0x110000 then
    Some [byte_of (Z.lor 0xF0 (Z.shiftr c 18));
          byte_of (Z.lor 0x80 (Z.land (Z.shiftr c 12) 0x3F));
          byte_of (Z.lor 0x80 (Z.land (Z.shiftr c 6) 0x3F));
          byte_of (Z.lor 0x80 (Z.land c 0x3F))]
  else None.

(** [t.encode()]: [None] stands for [UnicodeEncodeError] (a surrogate). *)
Definition encode (t : text) : option bytes :=
  @concat byte <$> mapM encode_char t.

(** *** [str.strip], [str.split], [str.upper] *)

(** [str.isspace] for one character. *)
Definition is_space (c : Z) : bool :=
  ((0x09 <=? c) && (c <=? 0x0D)) || ((0x1C <=? c) && (c <=? 0x20)) ||
  (c =? 0x85) || (c =? 0xA0) || (c =? 0x1680) ||
  ((0x2000 <=? c) && (c <=? 0x200A)) ||
  (c =? 0x2028) || (c =? 0x2029) || (c =? 0x202F) || (c =? 0x205F) ||
  (c =? 0x3000).

Fixpoint lstrip_by (p : Z -> bool) (t : text) : text :=
  match t with
  | c :: t' => if p c then lstrip_by p t' else t
  | [] => []
  end.

Definition strip_by (p : Z -> bool) (t : text) : text :=
  rev (lstrip_by p (rev (lstrip_by p t))).

(** [t.strip()]. *)
Definition strip (t : text) : text := strip_by is_space t.

(** [split_from cur t]: the words of [t], the first one continuing [cur]. *)
Fixpoint split_from (cur : text) (t : text) : list text :=
  match t with
  | [] => match cur with [] => [] | _ :: _ => [cur] end
  | c :: t' =>
    if is_space c then
      match cur with
      | [] => split_from [] t'
      | _ :: _ => cur :: split_from [] t'
      end
    else split_from (cur ++ [c]) t'
  end.

(** [t.split()]: the maximal runs of characters that are not white space. *)
Definition split (t : text) : list text := split_from [] t.

Section Unicode.
Context {U : UnicodeData}.

Definition upper_char (c : Z) : list Z :=
  if (97 <=? c) && (c <=? 122) then [c - 32]
  else if c <? 128 then [c]
  else uni_toupper c.

(** [t.upper()]. *)
Definition upper (t : text) : text := concat (map upper_char t).

(** [\w] of [re] on a [str]: [str.isalnum] or the underscore. *)
Definition is_word (c : Z) : bool :=
  if c <? 128 then
    ((48 <=? c) && (c <=? 57)) || ((65 <=? c) && (c <=? 90)) ||
    ((97 <=? c) && (c <=? 122)) || (c =? 95)
  else uni_isalnum c.

(** *** [int(t)] *)

(** The digit a character stands for: [int] reads every decimal digit of
    Unicode. *)
Definition int_digit (c : Z) : option Z :=
  if (48 <=? c) && (c <=? 57) then Some (c - 48)
  else if c <? 128 then None
  else uni_todecimal c.

(** White space [int] skips at both ends: the ASCII white space of C, and
    the white space beyond ASCII. *)
Definition int_space (c : Z) : bool :=
  if c <? 128 then ((0x09 <=? c) && (c <=? 0x0D)) || (c =? 0x20)
  else is_space c.

(** The digits after the first: single underscores may separate them. *)
Fixpoint int_digits (acc : Z) (after_underscore : bool) (t : text) : option Z :=
  match t with
  | [] => if after_underscore then None else Some acc
  | c :: t' =>
    if c =? 95 then
      if after_underscore then None else int_digits acc true t'
    else
      match int_digit c with
      | Some d => int_digits (acc * 10 + d) false t'
      | None => None
      end
  end.

Definition int_unsigned (t : text) : option Z :=
  match t with
  | [] => None
  | c :: t' =>
    match int_digit c with
    | Some d => int_digits d false t'
    | None => None
    end
  end.

(** [int(t)]: [None] stands for [ValueError].  The bound that recent
    interpreters put on the number of digits (4300 unless configured) is
    left out. *)
Definition int (t : text) : option Z :=
  match strip_by int_space t with
  | [] => None
  | c :: t' =>
    if c =? 43 then int_unsigned t'
    else if c =? 45 then Z.opp <$> int_unsigned t'
    else int_unsigned (c :: t')
  end.

End Unicode.

(** *** [str(n)] *)

Fixpoint digits_from (fuel : nat) (n : Z) (acc : text) : text :=
  match fuel with
  | O => acc
  | S fuel' =>
    let acc' := (48 + n mod 10) :: acc in
    if n <? 10 then acc' else digits_from fuel' (n / 10) acc'
  end.

(** [str(n)] : the decimal digits, after a minus sign for a negative [n].
    A number below [2 ^ k] has at most [k] digits, which bounds the loop. *)
Definition str (n : Z) : text :=
  if n <? 0 then 45 :: digits_from (S (Z.to_nat (Z.log2 (- n)))) (- n) []
  else digits_from (S (Z.to_nat (Z.log2 n))) n [].

End Py.

(** ** The socket *)

Module Net.

(** The data still to arrive, in the segments it arrives in. *)
Abbreviation stream := (list (list byte)).

(** The number of bytes still to arrive. *)
Definition pending (s : stream) : nat := length (concat s).

(** [conn.recv(n)] for a positive [n]: at most [n] bytes of the first
    segment that is not empty; [b""] once nothing is left. *)
Fixpoint recv (n : Z) (s : stream) : bytes * stream :=
  match s with
  | [] => ([], [])
  | c :: s' =>
    match c with
    | [] => recv n s'
    | _ :: _ =>
      if Z.of_nat (length c) <=? n then (c, s')
      else (take (Z.to_nat n) c, drop (Z.to_nat n) c :: s')
    end
  end.

Lemma recv_concat n s : (recv n s).1 ++ concat (recv n s).2 = concat s.
Proof.
  induction s as [|c s IH]; simpl; [done|].
  destruct c as [|b c]; [done|].
  case_match; simpl; [done|].
  by rewrite app_assoc, take_drop.
Qed.

(** Every [recv] that returns data leaves less to arrive: the loops below
    recurse on this measure. *)
Lemma recv_pending n s b c s' :
  recv n s = (b :: c, s') -> (pending s' < pending s)%nat.
Proof.
  intros E. unfold pending. pose proof (recv_concat n s) as H.
  rewrite E in H. simpl in H. rewrite <- H. simpl. rewrite length_app. lia.
Qed.

End Net.

Import Net.

(** ** The file system *)

Module Fs.

Inductive access :=
| Exists (path : text)
| Getsize (path : text)
| OpenRead (path : text)
| OpenWrite (path : text).

(** [os.path.join(dir, name)]. *)
Definition path_join (dir name : text) : text :=
  if decide (head name = Some 47) then name
  else if decide (dir = [] \/ last dir = Some 47) then dir ++ name
  else dir ++ 47 :: name.

(** What follows the last slash of a path. *)
Fixpoint basename_from (cur path : text) : text :=
  match path with
  | [] => cur
  | c :: path' =>
    if c =? 47 then basename_from [] path' else basename_from (cur ++ [c]) path'
  end.

Definition basename (path : text) : text := basename_from [] path.

(** The entries [.] and [..], which every directory holds and which name
    directories: the storage directory itself and the one above it. *)
Definition dot_entry (path : text) : bool :=
  bool_decide (basename path = tlit "." \/ basename path = tlit "..").

(** [os.path.isdir(path)].  The store holds the regular files; a directory
    is found at the entries [.] and [..], where the store holds no file. *)
Definition isdir (path : text) (files : gmap text bytes) : bool :=
  match files !! path with
  | Some _ => false
  | None => dot_entry path
  end.

(** [os.path.exists(path)]: a regular file or a directory. *)
Definition path_exists (path : text) (files : gmap text bytes) : bool :=
  match files !! path with
  | Some _ => true
  | None => isdir path files
  end.

(** [os.path.getsize(path)] for a path that exists. *)
Definition getsize {P : Platform} (path : text) (files : gmap text bytes) : Z :=
  match files !! path with
  | Some content => Z.of_nat (length content)
  | None => dir_size path
  end.

(** [open(path, 'rb')] for a path that exists, with all there is to read:
    [None] stands for the error raised at a directory. *)
Definition open_rb (path : text) (files : gmap text bytes) : option bytes :=
  files !! path.

(** [open(path, 'wb')]: the file is created, or emptied; [None] stands for
    the error raised at a directory. *)
Definition open_wb (path : text) (files : gmap text bytes)
  : option (gmap text bytes) :=
  if isdir path files then None else Some (<[path := []]> files).

(** [f.write(data)] on a file opened by [open_wb]: the data goes to its
    end. *)
Definition write (path : text) (data : bytes) (files : gmap text bytes)
  : gmap text bytes :=
  <[path := default [] (files !! path) ++ data]> files.

(** [f.read(n)] for a positive [n], on what of the file is not yet read. *)
Definition read (n : Z) (unread : bytes) : bytes * bytes :=
  if Z.of_nat (length unread) <=? n then (unread, [])
  else (take (Z.to_nat n) unread, drop (Z.to_nat n) unread).

Lemma read_shorter n b c unread unread' :
  read n unread = (b :: c, unread') -> (length unread' < length unread)%nat.
Proof.
  unfold read. case_match; intros [= E1 E2]; subst.
  - simpl. lia.
  - pose proof (take_drop (Z.to_nat n) unread) as Hsplit.
    rewrite E1 in Hsplit. apply (f_equal length) in Hsplit.
    rewrite length_app in Hsplit. simpl in Hsplit. lia.
Qed.

End Fs.

(** ** file_server.py *)

Module Server.

Definition HOST : text := tlit "0.0.0.0".
Definition PORT : Z := 10001.
Definition BUFFER_SIZE : Z := 524288.
Definition STORAGE_DIR : text := tlit "storage".

(** [b"\r\n\r\n"]. *)
Definition delimiter : bytes := [x0d; x0a; x0d; x0a].

#[warnings="-register-all"]
Inductive json :=
| JStr (s : text)
| JInt (n : Z)
| JObj (members : list (text * json)).

(** What goes out on the connection: a JSON document closed by the
    delimiter, or a chunk of raw bytes. *)
Inductive message :=
| Json (j : json)
| Raw (chunk : bytes).

(** The handler's view of the world: the connection's two directions, the
    files, and the accesses made to them. *)
Record state := {
  incoming : stream;
  outgoing : list message;
  files : gmap text bytes;
  accesses : list Fs.access
}.

Definition send (m : message) (st : state) : state :=
  {| incoming := incoming st; outgoing := outgoing st ++ [m];
     files := files st; accesses := accesses st |}.

Definition touch (a : Fs.access) (st : state) : state :=
  {| incoming := incoming st; outgoing := outgoing st;
     files := files st; accesses := accesses st ++ [a] |}.

Definition with_files (fs : gmap text bytes) (st : state) : state :=
  {| incoming := incoming st; outgoing := outgoing st;
     files := fs; accesses := accesses st |}.

Definition with_incoming (conn : stream) (st : state) : state :=
  {| incoming := conn; outgoing := outgoing st;
     files := files st; accesses := accesses st |}.

(** [json.dumps({"status": status, "data": data}) + "\r\n\r\n"]. *)
Definition response (status : text) (data : json) : message :=
  Json (JObj [(tlit "status", JStr status); (tlit "data", data)]).

(** The response to a request that fails: status ERROR and a message. *)
Definition error (msg : string) : message :=
  response (tlit "ERROR") (JStr (tlit msg)).

(** [send_json_response(conn, status, data)]. *)
Definition send_json_response (status : text) (data : json) (st : state) : state :=
  send (response status data) st.

(** [header_data[header_data.find(b"\r\n\r\n") + 4:]]: what was received
    past the delimiter while the header was read (lines 72-73). *)
Definition leftover (header_data : bytes) : bytes :=
  Py.slice_from header_data (Py.find header_data delimiter + 4).

(** [header_data.decode(errors='replace').strip().split()] (lines 51-52). *)
Definition header_parts (header_data : bytes) : list text :=
  Py.split (Py.strip (Py.decode_replace header_data)).

Section Handler.
Context {U : UnicodeData} {P : Platform}.

(** The [except Exception] clause (lines 112-117), entered when [open]
    raises at the directory [path]: the text of the error goes out in an
    ERROR response. *)
Definition on_exception (path : text) (st : state) : state :=
  send_json_response (tlit "ERROR") (JStr (open_dir_error path)) st.

(** One character of the class [[\w\-.]]. *)
Definition filename_char (c : Z) : bool :=
  Py.is_word c || (c =? 45) || (c =? 46).

(** [re.match(r'^[\w\-.]+$', filename) is not None].  The class admits no
    line feed, and [$] holds at the end of the string and before a line feed
    that ends it: the pattern matches when the string, less such a line
    feed, is a run, not empty, of characters of the class. *)
Definition is_valid_filename (filename : text) : bool :=
  let body := if decide (last filename = Some 10) then removelast filename
              else filename in
  negb (bool_decide (body = [])) && forallb filename_char body.

(** The loop of lines 44-49: receive until the delimiter is in the buffer;
    [None] when the client is gone before that. *)
Equations? recv_header (conn : stream) (header_data : bytes)
  : option (bytes * stream) by wf (pending conn) lt :=
  recv_header conn header_data with Py.contains delimiter header_data := {
    | true := Some (header_data, conn)
    | false with inspect (recv BUFFER_SIZE conn) := {
      | exist _ (chunk, conn') Heq with chunk := {
        | [] := None
        | b :: c := recv_header conn' (header_data ++ b :: c) } } }.
Proof. eapply recv_pending, Heq. Qed.

(** The loop of lines 82-87: receive what is left of the declared size, in
    reads of at most [min(BUFFER_SIZE, remaining)] bytes, and write it to the
    file; stop early when the stream is closed. *)
Equations? upload_loop (filepath : text) (remaining : Z) (conn : stream)
  (fs : gmap text bytes) : Z * stream * gmap text bytes
  by wf (pending conn) lt :=
  upload_loop filepath remaining conn fs with 0 <? remaining := {
    | false := (remaining, conn, fs)
    | true with inspect (recv (Z.min BUFFER_SIZE remaining) conn) := {
      | exist _ (chunk, conn') Heq with chunk := {
        | [] := (remaining, conn', fs)
        | b :: c :=
            upload_loop filepath (remaining - Z.of_nat (length (b :: c))) conn'
                        (Fs.write filepath (b :: c) fs) } } }.
Proof. eapply recv_pending, Heq. Qed.

(** The loop of lines 103-107: the chunks the file is sent in. *)
Equations? download_loop (unread : bytes) : list bytes
  by wf (length unread) lt :=
  download_loop unread with inspect (Fs.read BUFFER_SIZE unread) := {
    | exist _ (chunk, unread') Heq with chunk := {
      | [] := []
      | b :: c := (b :: c) :: download_loop unread' } }.
Proof. eapply Fs.read_shorter, Heq. Qed.

(** [handle_client_raw(conn, addr)], from the first [recv] to the last
    [sendall], the [except] clause included. *)
Definition handle_client_raw (conn : stream) (fs : gmap text bytes) : state :=
  let st := {| incoming := conn; outgoing := []; files := fs; accesses := [] |} in
  match recv_header conn [] with
  | None => with_incoming [] st
  | Some (header_data, conn) =>
    let st := with_incoming conn st in
    let parts := header_parts header_data in
    match parts with
    | p0 :: p1 :: p2 :: _ =>
      let command := Py.upper p0 in
      let filename := p1 in
      if negb (is_valid_filename filename) then
        send_json_response (tlit "ERROR") (JStr (tlit "Invalid filename")) st
      else
        match Py.int p2 with
        | None =>
          send_json_response (tlit "ERROR") (JStr (tlit "Invalid file size")) st
        | Some filesize =>
          let filepath := Fs.path_join STORAGE_DIR filename in
          if decide (command = tlit "UPLOAD") then
            let file_data := leftover header_data in
            let remaining := filesize - Z.of_nat (length file_data) in
            if remaining <? 0 then
              send_json_response (tlit "ERROR")
                (JStr (tlit "File size smaller than received data")) st
            else
              let st := touch (Fs.OpenWrite filepath) st in
              match Fs.open_wb filepath (files st) with
              | None => on_exception filepath st
              | Some fs =>
                let fs := Fs.write filepath file_data fs in
                let '(remaining, conn, fs) := upload_loop filepath remaining conn fs in
                let st := with_incoming conn (with_files fs st) in
                if 0 <? remaining then
                  send_json_response (tlit "ERROR")
                    (JStr (tlit "Incomplete file received")) st
                else
                  send_json_response (tlit "OK")
                    (JStr (tlit "Uploaded " ++ filename)) st
              end
          else if decide (command = tlit "GET") then
            let st := touch (Fs.Exists filepath) st in
            if negb (Fs.path_exists filepath (files st)) then
              send_json_response (tlit "ERROR") (JStr (tlit "File not found")) st
            else
              let st := touch (Fs.Getsize filepath) st in
              let filesize := Fs.getsize filepath (files st) in
              let st := send_json_response (tlit "OK")
                          (JObj [(tlit "filename", JStr filename);
                                 (tlit "filesize", JInt filesize)]) st in
              let st := touch (Fs.OpenRead filepath) st in
              match Fs.open_rb filepath (files st) with
              | None => on_exception filepath st
              | Some content =>
                foldl (fun st chunk => send (Raw chunk) st) st (download_loop content)
              end
          else
            send_json_response (tlit "ERROR") (JStr (tlit "Invalid command")) st
        end
    | _ =>
      send_json_response (tlit "ERROR") (JStr (tlit "Invalid command format")) st
    end
  end.

(** [handle_client(conn, addr)]. *)
Definition handle_client (conn : stream) (fs : gmap text bytes) : state :=
  handle_client_raw conn fs.

End Handler.

End Server.

(** ** file_client_cli_test.py *)

Module Client.

(** The loop of [recv_until] (lines 17-21): receive until the delimiter is
    in the buffer or the stream is closed. *)
Equations? recv_until_loop (delimiter : bytes) (sock : stream) (buffer : bytes)
  : bytes * stream by wf (pending sock) lt :=
  recv_until_loop delimiter sock buffer with Py.contains delimiter buffer := {
    | true := (buffer, sock)
    | false with inspect (recv 524288 sock) := {
      | exist _ (data, sock') Heq with data := {
        | [] := (buffer, sock')
        | b :: c := recv_until_loop delimiter sock' (buffer ++ b :: c) } } }.
Proof. eapply recv_pending, Heq. Qed.

(** [recv_until(sock, delimiter)]: the text before the first delimiter
    ([None] when its bytes do not decode), and the bytes read past it. *)
Definition recv_until (delimiter : bytes) (sock : stream)
  : option text * bytes * stream :=
  let '(buffer, sock) := recv_until_loop delimiter sock [] in
  if Py.contains delimiter buffer then
    let i := Py.find buffer delimiter in
    (Py.decode_strict (Py.slice_to buffer i),
     Py.slice_from buffer (i + Z.of_nat (length delimiter)), sock)
  else (Py.decode_strict buffer, [], sock).

(** The loop of [send_command] that collects the payload of a response
    (lines 56-62): [file_data] starts as what [recv_until] read past the
    header. *)
Equations? recv_file_data (filesize : Z) (file_data : bytes) (sock : stream)
  : bytes * stream by wf (pending sock) lt :=
  recv_file_data filesize file_data sock
    with Z.of_nat (length file_data) <? filesize := {
    | false := (file_data, sock)
    | true with inspect (recv 524288 sock) := {
      | exist _ (more_data, sock') Heq with more_data := {
        | [] := (file_data, sock')
        | b :: c := recv_file_data filesize (file_data ++ b :: c) sock' } } }.
Proof. eapply recv_pending, Heq. Qed.

(** What [send_command(ip, port, command_str, file_data_bytes)] writes to
    the socket (lines 34-44): the command and the delimiter, encoded, then
    the file's bytes. *)
Definition send_command_bytes (command_str : text) (file_data_bytes : bytes)
  : option bytes :=
  (fun header => header ++ file_data_bytes)
    <$> Py.encode (command_str ++ [13; 10; 13; 10]).

(** The request of [remote_upload] for a file named [filename] that holds
    [file_data_bytes] (lines 76-85). *)
Definition remote_upload_bytes (filename : text) (file_data_bytes : bytes)
  : option bytes :=
  let file_size := Z.of_nat (length file_data_bytes) in
  let command_str :=
    tlit "UPLOAD " ++ filename ++ tlit " " ++ Py.str file_size in
  send_command_bytes command_str file_data_bytes.

(** The request of [remote_download] (lines 92-93). *)
Definition remote_download_bytes (filename : text) : option bytes :=
  send_command_bytes (tlit "GET " ++ filename ++ tlit " 0") [].

End Client.

Import Server.

(** ** The rest of file_server.py *)

Module Json.

(** One hexadecimal digit, in lower case. *)
Definition hex_digit (d : Z) : Z := if d <? 10 then 48 + d else 87 + d.

(** ['\\u{0:04x}'.format(n)]. *)
Definition unicode_escape (n : Z) : text :=
  [92; 117; hex_digit (n / 4096 mod 16); hex_digit (n / 256 mod 16);
   hex_digit (n / 16 mod 16); hex_digit (n mod 16)].

(** What [json.dumps] writes for one character of a string
    ([ensure_ascii] is on): the short escapes, the printable ASCII
    characters as they are, [\uXXXX] for the rest, in a surrogate pair
    beyond U+FFFF. *)
Definition escape_char (c : Z) : text :=
  if c =? 34 then [92; 34]
  else if c =? 92 then [92; 92]
  else if c =? 10 then [92; 110]
  else if c =? 13 then [92; 114]
  else if c =? 9 then [92; 116]
  else if c =? 8 then [92; 98]
  else if c =? 12 then [92; 102]
  else if (32 <=? c) && (c <=? 126) then [c]
  else if c <? 0x10000 then unicode_escape c
  else
    let n := c - 0x10000 in
    unicode_escape (Z.lor 0xd800 (Z.land (Z.shiftr n 10) 0x3ff))
    ++ unicode_escape (Z.lor 0xdc00 (Z.land n 0x3ff)).

Definition dumps_str (s : text) : text :=
  34 :: concat (map escape_char s) ++ [34].

(** [json.dumps(j)] with the default separators. *)
Fixpoint dumps (j : json) : text :=
  match j with
  | JStr s => dumps_str s
  | JInt n => Py.str n
  | JObj members =>
    let fix items (first : bool) (ms : list (text * json)) : text :=
      match ms with
      | [] => []
      | (k, v) :: ms' =>
        (if first then [] else [44; 32])
        ++ dumps_str k ++ [58; 32] ++ dumps v ++ items false ms'
      end in
    123 :: items true members ++ [125]
  end.

End Json.

Module Wire.

(** The bytes [send_json_response] hands to [sendall] (lines 28-30):
    [(json.dumps(...) + "\r\n\r\n").encode()]. *)
Definition response_bytes (j : json) : option bytes :=
  Py.encode (Json.dumps j ++ [13; 10; 13; 10]).

Definition message_bytes (m : message) : option bytes :=
  match m with
  | Json j => response_bytes j
  | Raw chunk => Some chunk
  end.

(** All the handler wrote to the connection, in order. *)
Definition sent_bytes (ms : list message) : option bytes :=
  @concat byte <$> mapM message_bytes ms.

End Wire.

Module Dispatcher.
Section Dispatcher.
Context {U : UnicodeData} {P : Platform}.

(** [start_server_single()] (lines 125-134) over the connections accepted
    so far: each is handled to its end before the next is accepted.  The
    states the handler left the connections in, and the files at the end. *)
Fixpoint start_server_single (connections : list stream) (fs : gmap text bytes)
  : list state * gmap text bytes :=
  match connections with
  | [] => ([], fs)
  | conn :: connections' =>
    let st := handle_client conn fs in
    let '(sts, fs') := start_server_single connections' (files st) in
    (st :: sts, fs')
  end.

End Dispatcher.
End Dispatcher.

(** ** The rest of file_client_cli_test.py *)

Module Download.

(** The dictionary [send_command] returns: the members of the JSON
    response, and the two entries the client adds to them. *)
Record result := {
  reply : list (text * json);
  file_data_bytes : option bytes;
  download_path : option text
}.

(** [d.get(key)], for a dictionary given by its members, under keys that
    differ. *)
Fixpoint dict_get (key : text) (d : list (text * json)) : option json :=
  match d with
  | [] => None
  | (k, v) :: d' => if decide (k = key) then Some v else dict_get key d'
  end.

(** [d.get('status') == 'OK']. *)
Definition status_ok (d : list (text * json)) : bool :=
  match dict_get (tlit "status") d with
  | Some (JStr s) => bool_decide (s = tlit "OK")
  | _ => false
  end.

(** [{"status": "ERROR", "data": msg}]. *)
Definition failed (msg : string) : result :=
  {| reply := [(tlit "status", JStr (tlit "ERROR")); (tlit "data", JStr (tlit msg))];
     file_data_bytes := None; download_path := None |}.

(** [send_command], from the parsed response on (lines 51-66).  [None]
    where the interpreter raises on the type of a value: a response that is
    no dictionary, a [filesize] that is no number. *)
Definition send_command_response (response : json) (rest_data : bytes)
  (sock : stream) : option result :=
  match response with
  | JObj members =>
    let plain := {| reply := members; file_data_bytes := None;
                    download_path := None |} in
    if status_ok members then
      match dict_get (tlit "data") members with
      | Some (JObj data) =>
        match dict_get (tlit "filesize") data with
        | None => Some plain
        | Some (JInt filesize) =>
          let file_data := (Client.recv_file_data filesize rest_data sock).1 in
          Some {| reply := members; file_data_bytes := Some file_data;
                  download_path := None |}
        | Some _ => None
        end
      | _ => Some plain
      end
    else Some plain
  | _ => None
  end.

(** [{"status": "ERROR", "data": str(e)}] for the error [open] raises at
    the directory [path] (lines 114-116). *)
Definition raised {P : Platform} (path : text) : result :=
  {| reply := [(tlit "status", JStr (tlit "ERROR"));
               (tlit "data", JStr (open_dir_error path))];
     file_data_bytes := None; download_path := None |}.

(** Lines 109-113: the file is written and its path recorded, or [open]
    raises and the [except] clause gives the error as the result. *)
Definition save {P : Platform} (result0 : result) (save_path : text)
  (file_data : bytes) (local : gmap text bytes) : result * gmap text bytes :=
  match Fs.open_wb save_path local with
  | None => (raised save_path, local)
  | Some local' =>
    ({| reply := reply result0;
        file_data_bytes := file_data_bytes result0;
        download_path := Some save_path |},
     Fs.write save_path file_data local')
  end.

(** [remote_download], from the result of [send_command] on (lines
    96-119), with the files of the client's directory.  [None] where the
    outcome hangs on the interpreter's handling of ill-typed data: [data]
    a string or a number that is not empty or zero, a [filesize] that is no
    number, a [filename] that is a dictionary. *)
Definition remote_download_result {P : Platform} (result0 : result)
  (local : gmap text bytes) : option (result * gmap text bytes) :=
  if status_ok (reply result0) then
    let missing :=
      Some (failed "Missing filename or filesize in server response data", local) in
    let incomplete := Some (failed "File data incomplete or missing", local) in
    match dict_get (tlit "data") (reply result0) with
    | None | Some (JStr []) | Some (JInt 0) | Some (JObj []) => missing
    | Some (JObj data) =>
      match dict_get (tlit "filename") data, dict_get (tlit "filesize") data with
      | Some filename, Some filesize =>
        match file_data_bytes result0 with
        | None | Some [] => incomplete
        | Some file_data =>
          match filesize with
          | JInt size =>
            if Z.of_nat (length file_data) <? size then incomplete
            else
              match filename with
              | JStr name =>
                Some (save result0 (tlit "download_" ++ name) file_data local)
              | JInt n =>
                Some (save result0 (tlit "download_" ++ Py.str n) file_data local)
              | JObj _ => None
              end
          | _ => None
          end
        end
      | _, _ => missing
      end
    | Some _ => None
    end
  else Some (result0, local).

End Download.

(** ** Notions the statements below are made of *)

Section Notions.
Context {U : UnicodeData}.

(** A request the guards let through: the header was read, it has three
    parts at least, the second is a valid file name and the third an
    integer. *)
Definition accepted (conn : stream) (hd : bytes) (conn' : stream)
  (command filename : text) (filesize : Z) : Prop :=
  recv_header conn [] = Some (hd, conn') /\
  exists p0 p2 more,
    header_parts hd = p0 :: filename :: p2 :: more /\
    Py.upper p0 = command /\
    is_valid_filename filename = true /\
    Py.int p2 = Some filesize.

End Notions.

(** [v] spells [c], each letter in either case ([c] in capitals). *)
Definition case_variant (v c : text) : Prop :=
  Forall2 (fun x y => x = y \/ x = y + 32) v c.

(** The text before the delimiter, as [recv_until] of the client cuts it
    out of the buffer. *)
Definition header_line (header_data : bytes) : bytes :=
  Py.slice_to header_data (Py.find header_data delimiter).

(** The name the handler sees for a name the pattern accepts: the name
    itself, less the line feed the pattern lets it end in. *)
Definition stored_name (filename : text) : text :=
  if decide (last filename = Some 10) then removelast filename else filename.

(** One step of reading a decimal numeral, digit by digit. *)
Definition digit_step (a c : Z) : Z := a * 10 + (c - 48).

(** The values of the bytes a character is encoded in. *)
Definition encoded_values (c : Z) : list Z :=
  if c <? 0x80 then [c]
  else if c <? 0x800 then [192 + c / 64; 128 + c mod 64]
  else if c <? 0x10000 then
    [224 + c / 4096; 128 + c / 64 mod 64; 128 + c mod 64]
  else [240 + c / 262144; 128 + c / 4096 mod 64; 128 + c / 64 mod 64;
        128 + c mod 64].

(** The paths the handler may reach: a name of the class, without a slash,
    right under the storage directory. *)
Definition in_storage {U : UnicodeData} (path : text) : Prop :=
  exists name,
    path = tlit "storage/" ++ name /\ name <> [] /\
    Forall (fun c => filename_char c = true) name /\ 47 ∉ name.

(** A printable character of ASCII, the space among them. *)
Definition printable (c : Z) : Prop := 32 <= c <= 126.

(** The members of the response to a GET that finds the file (lines
    98-100 of the server). *)
Definition file_response (name : text) (size : Z) : list (text * json) :=
  [(tlit "status", JStr (tlit "OK"));
   (tlit "data", JObj [(tlit "filename", JStr name); (tlit "filesize", JInt size)])].

(** * Properties of the handler *)

(** ** The handler, branch by branch *)

Section Branches.
Context {U : UnicodeData} {P : Platform}.

Lemma open_wb_file (path : text) (fs : gmap text bytes) :
  Fs.isdir path fs = false -> Fs.open_wb path fs = Some (<[path := []]> fs).
Proof. unfold Fs.open_wb. by intros ->. Qed.

Lemma write_after_open (path : text) (data : bytes) (fs fs' : gmap text bytes) :
  Fs.open_wb path fs = Some fs' -> Fs.write path data fs' = <[path := data]> fs.
Proof.
  unfold Fs.write, Fs.open_wb. case_match; [done|]. intros [= <-].
  rewrite lookup_insert_eq, insert_insert_eq. done.
Qed.

Lemma send_chunks st (chunks : list bytes) :
  foldl (fun st chunk => send (Raw chunk) st) st chunks =
  {| incoming := incoming st; outgoing := outgoing st ++ map Raw chunks;
     files := files st; accesses := accesses st |}.
Proof.
  revert st. induction chunks as [|c chunks IH]; intros st; simpl.
  - rewrite app_nil_r. by destruct st.
  - rewrite IH. simpl. by rewrite <- app_assoc.
Qed.

Lemma handle_upload conn fs hd conn' filename filesize :
  accepted conn hd conn' (tlit "UPLOAD") filename filesize ->
  handle_client_raw conn fs =
  let filepath := Fs.path_join STORAGE_DIR filename in
  let remaining := filesize - Z.of_nat (length (leftover hd)) in
  if remaining <? 0 then
    {| incoming := conn';
       outgoing := [error "File size smaller than received data"];
       files := fs; accesses := [] |}
  else if Fs.isdir filepath fs then
    {| incoming := conn';
       outgoing := [response (tlit "ERROR") (JStr (open_dir_error filepath))];
       files := fs; accesses := [Fs.OpenWrite filepath] |}
  else
    let '(remaining, conn'', fs') :=
      upload_loop filepath remaining conn' (<[filepath := leftover hd]> fs) in
    {| incoming := conn'';
       outgoing := [if 0 <? remaining then error "Incomplete file received"
                    else response (tlit "OK") (JStr (tlit "Uploaded " ++ filename))];
       files := fs'; accesses := [Fs.OpenWrite filepath] |}.
Proof.
  intros (Hrecv & p0 & p2 & more & Hparts & Hcmd & Hvalid & Hint).
  unfold handle_client_raw. rewrite Hrecv. cbn zeta.
  rewrite Hparts, Hvalid. cbn [negb]. rewrite Hint, Hcmd.
  rewrite decide_True by done.
  case_match; [done|].
  cbn [files touch with_incoming].
  destruct (Fs.isdir _ fs) eqn:Hdir.
  - unfold Fs.open_wb. rewrite Hdir. done.
  - rewrite (open_wb_file _ _ Hdir).
    rewrite (write_after_open _ _ fs) by by apply open_wb_file.
    destruct (upload_loop _ _ _ _) as [[r c] f].
    by case_match.
Qed.

Lemma handle_get conn fs hd conn' filename filesize :
  accepted conn hd conn' (tlit "GET") filename filesize ->
  handle_client_raw conn fs =
  let filepath := Fs.path_join STORAGE_DIR filename in
  match fs !! filepath with
  | Some content =>
    {| incoming := conn';
       outgoing :=
         response (tlit "OK")
           (JObj [(tlit "filename", JStr filename);
                  (tlit "filesize", JInt (Z.of_nat (length content)))])
         :: map Raw (download_loop content);
       files := fs;
       accesses := [Fs.Exists filepath; Fs.Getsize filepath;
                    Fs.OpenRead filepath] |}
  | None =>
    if Fs.dot_entry filepath then
      {| incoming := conn';
         outgoing :=
           [response (tlit "OK")
              (JObj [(tlit "filename", JStr filename);
                     (tlit "filesize", JInt (dir_size filepath))]);
            response (tlit "ERROR") (JStr (open_dir_error filepath))];
         files := fs;
         accesses := [Fs.Exists filepath; Fs.Getsize filepath;
                      Fs.OpenRead filepath] |}
    else
      {| incoming := conn'; outgoing := [error "File not found"];
         files := fs; accesses := [Fs.Exists filepath] |}
  end.
Proof.
  intros (Hrecv & p0 & p2 & more & Hparts & Hcmd & Hvalid & Hint).
  unfold handle_client_raw. rewrite Hrecv. cbn zeta.
  rewrite Hparts, Hvalid. cbn [negb]. rewrite Hint, Hcmd.
  rewrite decide_False by done. rewrite decide_True by done.
  cbn [files touch with_incoming]. cbn zeta.
  unfold Fs.path_exists, Fs.isdir, Fs.getsize, Fs.open_rb.
  cbn [files touch with_incoming send_json_response send].
  destruct (fs !! _) as [content|] eqn:Hfile.
  - cbn [negb]. by rewrite send_chunks.
  - by destruct (Fs.dot_entry _).
Qed.

(** A GET for a path at which nothing exists. *)
Lemma handle_get_missing conn fs hd conn' filename filesize :
  accepted conn hd conn' (tlit "GET") filename filesize ->
  Fs.path_exists (Fs.path_join STORAGE_DIR filename) fs = false ->
  handle_client_raw conn fs =
  {| incoming := conn'; outgoing := [error "File not found"];
     files := fs;
     accesses := [Fs.Exists (Fs.path_join STORAGE_DIR filename)] |}.
Proof.
  intros Hreq Hmissing. rewrite (handle_get _ _ _ _ _ _ Hreq). cbn zeta.
  unfold Fs.path_exists, Fs.isdir in Hmissing.
  destruct (fs !! _); [done|]. by rewrite Hmissing.
Qed.

End Branches.


(** ** What a [recv] returns *)

Lemma recv_split n s chunk s' :
  recv n s = (chunk, s') -> chunk ++ concat s' = concat s.
Proof. intros E. pose proof (recv_concat n s) as H. by rewrite E in H. Qed.

Lemma recv_at_most n s chunk s' :
  0 <= n -> recv n s = (chunk, s') -> Z.of_nat (length chunk) <= n.
Proof.
  intros Hn. revert chunk s'. induction s as [|c s IH]; intros chunk s'; simpl.
  - intros [= <- <-]. simpl. lia.
  - destruct c as [|b c]; [apply IH|].
    destruct (Z.leb_spec (Z.of_nat (length (b :: c))) n) as [Hle|Hgt].
    + intros [= <- <-]. done.
    + intros [= <- <-]. rewrite length_take. lia.
Qed.

Lemma recv_closed n s s' :
  0 < n -> recv n s = ([], s') -> concat s = [] /\ s' = [].
Proof.
  intros Hn. revert s'. induction s as [|c s IH]; intros s'; simpl.
  - by intros [= <-].
  - destruct c as [|b c]; [apply IH|].
    case_match; [done|].
    intros [= E _]. exfalso.
    destruct (Z.to_nat n) eqn:En; [lia|]. done.
Qed.

(** ** The receive loop of an upload *)

Ltac loop_facts :=
  repeat match goal with
  | H : sigmaI _ _ _ = _ |- _ => clear H
  | H : (_ <? _) = true |- _ => apply Z.ltb_lt in H
  | H : (_ <? _) = false |- _ => apply Z.ltb_ge in H
  end.

Lemma upload_loop_spec (filepath : text) (remaining : Z) (conn : stream)
  (fs : gmap text bytes) (old : bytes) :
  fs !! filepath = Some old ->
  exists data conn',
    upload_loop filepath remaining conn fs =
      (remaining - Z.of_nat (length data), conn', <[filepath := old ++ data]> fs) /\
    data ++ concat conn' = concat conn /\
    Z.of_nat (length data) <= Z.max 0 remaining /\
    (Z.of_nat (length data) < remaining -> concat conn' = []).
Proof.
  revert old.
  funelim (upload_loop filepath remaining conn fs); intros old Hold;
    loop_facts; try clear Heqcall.
  - exists [], conn. simpl. rewrite app_nil_r, insert_id by done.
    rewrite Z.sub_0_r. split_and!; [done|done|lia|lia].
  - match goal with Hr : recv _ _ = _ |- _ =>
      apply recv_closed in Hr as [Hnil ->]; [|unfold BUFFER_SIZE; lia] end.
    exists [], []. simpl. rewrite app_nil_r, insert_id by done.
    rewrite Z.sub_0_r. split_and!; [done|by rewrite Hnil|lia|done].
  - match goal with Hr : recv _ _ = _ |- _ =>
      pose proof (recv_split _ _ _ _ Hr) as Hsplit;
      pose proof Hr as Hmost;
      apply recv_at_most in Hmost; [|unfold BUFFER_SIZE; lia]
    end.
    match goal with IH : forall _, _ -> exists _, _ |- _ =>
      destruct (IH (old ++ b :: c)) as (data & conn'' & -> & Hcat & Hlen & Hend)
    end.
    { unfold Fs.write. by rewrite lookup_insert_eq, Hold. }
    exists ((b :: c) ++ data), conn''.
    split_and!.
    + unfold Fs.write. rewrite Hold, insert_insert_eq, length_app, <- app_assoc.
      do 2 f_equal. lia.
    + by rewrite <- app_assoc, Hcat.
    + rewrite length_app. lia.
    + rewrite length_app. intros Hlt. apply Hend. lia.
Qed.

(** The loop takes no more than the bytes still declared: what follows them
    on the stream stays there. *)
Lemma upload_loop_bounded (filepath : text) (remaining : Z) (conn : stream)
  (fs : gmap text bytes) (old : bytes) :
  fs !! filepath = Some old -> 0 <= remaining ->
  Z.of_nat (pending conn) - Z.of_nat (pending (upload_loop filepath remaining conn fs).1.2)
    <= remaining.
Proof.
  intros Hold Hrem.
  destruct (upload_loop_spec filepath remaining conn fs old Hold)
    as (data & conn' & -> & Hcat & Hlen & _).
  simpl. unfold pending. rewrite <- Hcat, length_app. lia.
Qed.


(** ** Uploads that do not match the declared size *)

Section Uploads.
Context {U : UnicodeData} {P : Platform}.

(** C3.  An upload whose header buffer already holds more payload bytes
    than the declared size ([remaining < 0]) is answered with the
    size-mismatch error; the connection is read no further, the files are
    what they were and none was opened. *)
Theorem upload_more_than_declared (conn : stream) (fs : gmap text bytes)
  (hd : bytes) (conn' : stream) (filename : text) (filesize : Z) :
  accepted conn hd conn' (tlit "UPLOAD") filename filesize ->
  filesize - Z.of_nat (length (leftover hd)) < 0 ->
  handle_client_raw conn fs =
  {| incoming := conn';
     outgoing := [error "File size smaller than received data"];
     files := fs; accesses := [] |}.
Proof.
  intros Hreq Hneg. rewrite (handle_upload _ _ _ _ _ _ Hreq). cbn zeta.
  apply Z.ltb_lt in Hneg. by rewrite Hneg.
Qed.

(** C10.  An upload whose size is a negative integer is answered with the
    size-mismatch error, whatever was received after the header, and no
    file is opened, created or emptied. *)
Theorem upload_negative_size (conn : stream) (fs : gmap text bytes)
  (hd : bytes) (conn' : stream) (filename : text) (filesize : Z) :
  accepted conn hd conn' (tlit "UPLOAD") filename filesize ->
  filesize < 0 ->
  handle_client_raw conn fs =
  {| incoming := conn';
     outgoing := [error "File size smaller than received data"];
     files := fs; accesses := [] |}.
Proof.
  intros Hreq Hneg. rewrite (handle_upload _ _ _ _ _ _ Hreq). cbn zeta.
  assert ((filesize - Z.of_nat (length (leftover hd)) <? 0) = true) as ->; [|done].
  apply Z.ltb_lt. lia.
Qed.

(** C4, as amended.  An upload that declares more bytes than the stream
    delivers before it is closed is answered with one error, never with OK.
    Where the path is no directory the error is the incomplete-file error,
    and the file holds what did arrive; where it is a directory (the names
    [.] and [..]) the error is the one [open] raised, and nothing is
    stored. *)
Theorem upload_cut_short (conn : stream) (fs : gmap text bytes)
  (hd : bytes) (conn' : stream) (filename : text) (filesize : Z) :
  accepted conn hd conn' (tlit "UPLOAD") filename filesize ->
  Z.of_nat (length (leftover hd)) + Z.of_nat (pending conn') < filesize ->
  let st := handle_client_raw conn fs in
  let filepath := Fs.path_join STORAGE_DIR filename in
  if Fs.isdir filepath fs then
    outgoing st = [response (tlit "ERROR") (JStr (open_dir_error filepath))] /\
    files st = fs
  else
    outgoing st = [error "Incomplete file received"] /\
    files st = <[filepath := leftover hd ++ concat conn']> fs.
Proof.
  intros Hreq Hshort. cbn zeta.
  rewrite (handle_upload _ _ _ _ _ _ Hreq). cbn zeta.
  assert ((filesize - Z.of_nat (length (leftover hd)) <? 0) = false) as ->.
  { apply Z.ltb_ge. lia. }
  destruct (Fs.isdir _ fs); [done|].
  destruct (upload_loop_spec (Fs.path_join STORAGE_DIR filename)
              (filesize - Z.of_nat (length (leftover hd))) conn'
              (<[Fs.path_join STORAGE_DIR filename := leftover hd]> fs) (leftover hd))
    as (data & conn'' & -> & Hcat & Hlen & Hend); [by rewrite lookup_insert_eq|].
  assert (Z.of_nat (length data) <= Z.of_nat (pending conn')) as Hdata.
  { unfold pending. rewrite <- Hcat, length_app. lia. }
  cbn [outgoing files].
  assert ((0 <? filesize - Z.of_nat (length (leftover hd)) - Z.of_nat (length data))
          = true) as ->.
  { apply Z.ltb_lt. lia. }
  split; [done|].
  rewrite insert_insert_eq. rewrite Hend in Hcat by lia.
  rewrite app_nil_r in Hcat. by rewrite Hcat.
Qed.

End Uploads.

(** ** Downloads *)

Section Downloads.
Context {U : UnicodeData} {P : Platform}.

(** C8.  A GET for a name under which the storage directory has nothing
    ([os.path.exists] is false) is answered with exactly the file-not-found
    error: nothing follows it on the connection, and the files are only
    asked about, not opened. *)
Theorem get_missing_file (conn : stream) (fs : gmap text bytes)
  (hd : bytes) (conn' : stream) (filename : text) (size : Z) :
  accepted conn hd conn' (tlit "GET") filename size ->
  Fs.path_exists (Fs.path_join STORAGE_DIR filename) fs = false ->
  handle_client_raw conn fs =
  {| incoming := conn';
     outgoing := [response (tlit "ERROR") (JStr (tlit "File not found"))];
     files := fs;
     accesses := [Fs.Exists (Fs.path_join STORAGE_DIR filename)] |}.
Proof.
  intros Hreq Hmissing. by apply (handle_get_missing _ _ _ _ _ _ Hreq).
Qed.

End Downloads.

(** ** The theorems above at concrete requests *)

Ltac accept_request :=
  split; [reflexivity | eexists _, _, _; split_and!; reflexivity].

(** Five bytes arrive with the header of an upload that declares two. *)
Lemma upload_more_than_declared_witness :
  handle_client_raw (U := ascii_only) (P := posix)
    [blit "UPLOAD a.txt 2" ++ delimiter ++ blit "hello"]
    {[ tlit "storage/a.txt" := blit "old" ]} =
  {| incoming := [];
     outgoing := [error "File size smaller than received data"];
     files := {[ tlit "storage/a.txt" := blit "old" ]}; accesses := [] |}.
Proof.
  apply (upload_more_than_declared (U := ascii_only) _ _
           (blit "UPLOAD a.txt 2" ++ delimiter ++ blit "hello") [] (tlit "a.txt") 2).
  - accept_request.
  - reflexivity.
Defined.

(** An upload that declares minus five bytes. *)
Lemma upload_negative_size_witness :
  handle_client_raw (U := ascii_only) (P := posix)
    [blit "UPLOAD a.txt -5" ++ delimiter; blit "hello"]
    {[ tlit "storage/a.txt" := blit "old" ]} =
  {| incoming := [blit "hello"];
     outgoing := [error "File size smaller than received data"];
     files := {[ tlit "storage/a.txt" := blit "old" ]}; accesses := [] |}.
Proof.
  apply (upload_negative_size (U := ascii_only) _ _
           (blit "UPLOAD a.txt -5" ++ delimiter) [blit "hello"] (tlit "a.txt") (-5)).
  - accept_request.
  - reflexivity.
Defined.

(** Three of five declared bytes arrive before the stream is closed. *)
Lemma upload_cut_short_witness :
  let fs : gmap text bytes := ∅ in
  let st := handle_client_raw (U := ascii_only) (P := posix)
              [blit "UPLOAD a.txt 5" ++ delimiter ++ blit "he"; blit "l"] fs in
  let filepath := Fs.path_join STORAGE_DIR (tlit "a.txt") in
  if Fs.isdir filepath fs then
    outgoing st =
      [response (tlit "ERROR") (JStr (@open_dir_error posix filepath))] /\
    files st = fs
  else
    outgoing st = [error "Incomplete file received"] /\
    files st = <[filepath :=
                   leftover (blit "UPLOAD a.txt 5" ++ delimiter ++ blit "he")
                   ++ concat [blit "l"]]> fs.
Proof.
  apply (upload_cut_short (U := ascii_only) (P := posix) _ _
           (blit "UPLOAD a.txt 5" ++ delimiter ++ blit "he") [blit "l"] (tlit "a.txt") 5).
  - accept_request.
  - reflexivity.
Defined.

(** The same upload under [..], which the pattern accepts and which names
    the directory above the storage: [open] raises, the error it raised is
    the answer, and the rest of the payload is not read. *)
Lemma upload_cut_short_under_dotdot :
  let st := handle_client_raw (U := ascii_only) (P := posix)
              [blit "UPLOAD .. 5" ++ delimiter ++ blit "he"; blit "l"] ∅ in
  is_valid_filename (U := ascii_only) (tlit "..") = true /\
  outgoing st =
    [response (tlit "ERROR")
       (JStr (tlit "[Errno 21] Is a directory: 'storage/..'"))] /\
  outgoing st <> [error "Incomplete file received"] /\
  files st = ∅ /\ incoming st = [blit "l"].
Proof. cbn zeta. split_and!; [reflexivity|reflexivity|discriminate|reflexivity..]. Qed.

(** A GET on an empty storage directory. *)
Lemma get_missing_file_witness :
  handle_client_raw (U := ascii_only) (P := posix) [blit "GET a.txt 0" ++ delimiter] ∅ =
  {| incoming := [];
     outgoing := [response (tlit "ERROR") (JStr (tlit "File not found"))];
     files := ∅;
     accesses := [Fs.Exists (Fs.path_join STORAGE_DIR (tlit "a.txt"))] |}.
Proof.
  apply (get_missing_file (U := ascii_only) _ _
           (blit "GET a.txt 0" ++ delimiter) [] (tlit "a.txt") 0).
  - accept_request.
  - reflexivity.
Defined.


(** ** The words of [str.split] *)

Lemma split_from_words (cur t : text) :
  Forall (fun c => Py.is_space c = false) cur ->
  Forall (fun w => w <> [] /\ Forall (fun c => Py.is_space c = false) w)
         (Py.split_from cur t).
Proof.
  revert cur. induction t as [|c t IH]; intros cur Hcur; simpl.
  - destruct cur; [constructor|]. constructor; [done|constructor].
  - destruct (Py.is_space c) eqn:Hc.
    + destruct cur; [by apply IH|].
      constructor; [done|]. by apply IH.
    + apply IH. apply Forall_app. split; [done|]. by constructor.
Qed.

Lemma header_part_no_space (hd : bytes) (i : nat) (w : text) :
  header_parts hd !! i = Some w ->
  w <> [] /\ Forall (fun c => Py.is_space c = false) w.
Proof.
  intros Hw. unfold header_parts, Py.split in Hw.
  pose proof (split_from_words [] (Py.strip (Py.decode_replace hd))
                ltac:(constructor)) as Hall.
  rewrite Forall_lookup in Hall. by apply (Hall i w).
Qed.

(** ** File names *)

Section Filenames.
Context {U : UnicodeData} {P : Platform}.

(** The slash is outside the class, the dot is inside. *)
Lemma slash_outside_class : filename_char 47 = false.
Proof. reflexivity. Qed.

Lemma dot_inside_class : filename_char 46 = true.
Proof. reflexivity. Qed.

(** A word of the header with a character outside [[\w\-.]] does not match
    the pattern. *)
Lemma invalid_filename (w : text) (c : Z) :
  Forall (fun c => Py.is_space c = false) w ->
  c ∈ w -> filename_char c = false -> is_valid_filename w = false.
Proof.
  intros Hw Hin Hc. unfold is_valid_filename.
  rewrite decide_False.
  - apply andb_false_iff. right. apply not_true_is_false. intros Hall.
    rewrite forallb_forall in Hall. apply list_elem_of_In in Hin.
    specialize (Hall c Hin). congruence.
  - intros Hlast. apply last_Some in Hlast as [w' ->].
    apply Forall_app in Hw as [_ Hnl]. by inversion Hnl.
Qed.

(** C2, as amended.  A request whose second word has a character outside
    the class [[\w\-.]] (the slash is one) is answered with the
    invalid-filename error; the files are what they were, and none was
    looked up, opened or read. *)
Theorem filename_outside_class_rejected (conn : stream) (fs : gmap text bytes)
  (hd : bytes) (conn' : stream) (p0 filename p2 : text) (more : list text) (c : Z) :
  recv_header conn [] = Some (hd, conn') ->
  header_parts hd = p0 :: filename :: p2 :: more ->
  c ∈ filename -> filename_char c = false ->
  handle_client_raw conn fs =
  {| incoming := conn'; outgoing := [error "Invalid filename"];
     files := fs; accesses := [] |}.
Proof.
  intros Hrecv Hparts Hin Hc.
  destruct (header_part_no_space hd 1 filename) as [_ Hw]; [by rewrite Hparts|].
  unfold handle_client_raw. rewrite Hrecv. cbn zeta. rewrite Hparts.
  by rewrite (invalid_filename filename c Hw Hin Hc).
Qed.

End Filenames.

(** An upload that names a path with slashes. *)
Lemma filename_outside_class_rejected_witness :
  handle_client_raw (U := ascii_only) (P := posix)
    [blit "UPLOAD ../etc/passwd 2" ++ delimiter ++ blit "hi"]
    {[ tlit "storage/a.txt" := blit "old" ]} =
  {| incoming := []; outgoing := [error "Invalid filename"];
     files := {[ tlit "storage/a.txt" := blit "old" ]}; accesses := [] |}.
Proof.
  apply (filename_outside_class_rejected (U := ascii_only) _ _
           (blit "UPLOAD ../etc/passwd 2" ++ delimiter ++ blit "hi") []
           (tlit "UPLOAD") (tlit "../etc/passwd") (tlit "2") [tlit "hi"] 47).
  - reflexivity.
  - reflexivity.
  - apply list_elem_of_In. simpl. tauto.
  - reflexivity.
Defined.

(** C2 as the specification words it fails: the name [a..b] contains two
    dots in a row and matches the pattern all the same; the upload is
    accepted and the file is created. *)
Lemma dotdot_filename_accepted :
  let request := blit "UPLOAD a..b 2" ++ delimiter in
  let st := handle_client_raw (U := ascii_only) (P := posix) [request; blit "hi"] ∅ in
  header_parts request = [tlit "UPLOAD"; tlit "a" ++ tlit ".." ++ tlit "b"; tlit "2"] /\
  outgoing st = [response (tlit "OK") (JStr (tlit "Uploaded a..b"))] /\
  files st = {[ tlit "storage/a..b" := blit "hi" ]}.
Proof. cbn zeta. split_and!; reflexivity. Qed.


(** ** The size of a GET, the case of a command *)

Section Commands.
Context {U : UnicodeData} {P : Platform}.

(** C7, as amended.  Two GET requests for one file name, each with an
    integer for its size, are answered alike, whatever the two integers:
    the same messages go out, the [filesize] among them being the length of
    the stored file, and the files stay as they were. *)
Theorem get_ignores_size (conn1 conn2 : stream) (fs : gmap text bytes)
  (hd1 hd2 : bytes) (conn1' conn2' : stream) (filename : text) (size1 size2 : Z) :
  accepted conn1 hd1 conn1' (tlit "GET") filename size1 ->
  accepted conn2 hd2 conn2' (tlit "GET") filename size2 ->
  let st1 := handle_client_raw conn1 fs in
  let st2 := handle_client_raw conn2 fs in
  outgoing st1 = outgoing st2 /\
  files st1 = fs /\ files st2 = fs /\
  forall content,
    fs !! Fs.path_join STORAGE_DIR filename = Some content ->
    head (outgoing st1) =
      Some (response (tlit "OK")
              (JObj [(tlit "filename", JStr filename);
                     (tlit "filesize", JInt (Z.of_nat (length content)))])).
Proof.
  intros Hreq1 Hreq2. cbn zeta.
  rewrite (handle_get _ _ _ _ _ _ Hreq1), (handle_get _ _ _ _ _ _ Hreq2).
  cbn zeta.
  destruct (fs !! _) as [content|]; [|destruct (Fs.dot_entry _)];
    split_and!; try done.
  by intros ? [= <-].
Qed.

(** A request whose third word is no integer is answered with the
    invalid-size error, whatever the command. *)
Lemma size_not_integer_rejected (conn : stream) (fs : gmap text bytes)
  (hd : bytes) (conn' : stream) (p0 filename p2 : text) (more : list text) :
  recv_header conn [] = Some (hd, conn') ->
  header_parts hd = p0 :: filename :: p2 :: more ->
  is_valid_filename filename = true ->
  Py.int p2 = None ->
  handle_client_raw conn fs =
  {| incoming := conn'; outgoing := [error "Invalid file size"];
     files := fs; accesses := [] |}.
Proof.
  intros Hrecv Hparts Hvalid Hint.
  unfold handle_client_raw. rewrite Hrecv. cbn zeta.
  by rewrite Hparts, Hvalid, Hint.
Qed.

Lemma upper_case_variant (v c : text) :
  case_variant v c -> Forall (fun y => 65 <= y <= 90) c -> Py.upper v = c.
Proof.
  unfold Py.upper. induction 1 as [|x y v c Hxy _ IH]; intros Hc; [done|].
  apply Forall_cons in Hc as [Hy Hc]. simpl. rewrite (IH Hc).
  unfold Py.upper_char.
  destruct Hxy as [-> | ->].
  - rewrite (proj2 (andb_false_iff _ _)) by (left; apply Z.leb_gt; lia).
    by rewrite (proj2 (Z.ltb_lt _ _)) by lia.
  - rewrite (proj2 (andb_true_iff _ _))
      by (split; apply Z.leb_le; lia).
    by replace (y + 32 - 32) with y by lia.
Qed.

Lemma upper_of_command (v c : text) :
  c = tlit "UPLOAD" \/ c = tlit "GET" -> case_variant v c ->
  Py.upper v = c /\ Py.upper c = c.
Proof.
  intros Hc Hv.
  assert (Forall (fun y => 65 <= y <= 90) c) as Hcaps.
  { destruct Hc as [-> | ->]; repeat constructor; vm_compute; congruence. }
  split; apply upper_case_variant; [done|done| |done].
  clear Hv Hc. induction Hcaps as [|y c _ _ IH]; constructor; [by left|done].
Qed.

(** C9.  Two requests that differ in the case of the letters of their
    command alone, UPLOAD or GET, are handled alike: every message sent,
    every file and every access is the same. *)
Theorem command_case_insensitive (conn1 conn2 : stream) (fs : gmap text bytes)
  (hd1 hd2 : bytes) (conn' : stream) (v c : text) (args : list text) :
  recv_header conn1 [] = Some (hd1, conn') ->
  recv_header conn2 [] = Some (hd2, conn') ->
  header_parts hd1 = v :: args ->
  header_parts hd2 = c :: args ->
  leftover hd1 = leftover hd2 ->
  c = tlit "UPLOAD" \/ c = tlit "GET" ->
  case_variant v c ->
  handle_client_raw conn1 fs = handle_client_raw conn2 fs.
Proof.
  intros Hrecv1 Hrecv2 Hparts1 Hparts2 Hleft Hc Hv.
  destruct (upper_of_command v c Hc Hv) as [Hupv Hupc].
  unfold handle_client_raw. rewrite Hrecv1, Hrecv2. cbn zeta.
  rewrite Hparts1, Hparts2.
  destruct args as [|filename [|p2 more]]; [done|done|].
  by rewrite Hupv, Hupc, Hleft.
Qed.

End Commands.

(** The same GET with the sizes 0 and 1_000. *)
Lemma get_ignores_size_witness :
  let st1 := handle_client_raw (U := ascii_only) (P := posix)
               [blit "GET a.txt 0" ++ delimiter]
               {[ tlit "storage/a.txt" := blit "hello" ]} in
  let st2 := handle_client_raw (U := ascii_only) (P := posix)
               [blit "GET a.txt 1_000" ++ delimiter]
               {[ tlit "storage/a.txt" := blit "hello" ]} in
  outgoing st1 = outgoing st2 /\
  files st1 = {[ tlit "storage/a.txt" := blit "hello" ]} /\
  files st2 = {[ tlit "storage/a.txt" := blit "hello" ]} /\
  forall content,
    ({[ tlit "storage/a.txt" := blit "hello" ]} : gmap text bytes)
      !! Fs.path_join STORAGE_DIR (tlit "a.txt") = Some content ->
    head (outgoing st1) =
      Some (response (tlit "OK")
              (JObj [(tlit "filename", JStr (tlit "a.txt"));
                     (tlit "filesize", JInt (Z.of_nat (length content)))])).
Proof.
  apply (get_ignores_size (U := ascii_only) _ _ _
           (blit "GET a.txt 0" ++ delimiter) (blit "GET a.txt 1_000" ++ delimiter)
           [] [] (tlit "a.txt") 0 1000).
  - accept_request.
  - accept_request.
Defined.

(** C7 as the specification words it fails: of two GET requests that differ
    in the size alone, the one whose size is no integer is refused. *)
Lemma get_size_not_ignored :
  let st1 := handle_client_raw (U := ascii_only) (P := posix)
               [blit "GET a.txt 0" ++ delimiter]
               {[ tlit "storage/a.txt" := blit "hello" ]} in
  let st2 := handle_client_raw (U := ascii_only) (P := posix)
               [blit "GET a.txt zero" ++ delimiter]
               {[ tlit "storage/a.txt" := blit "hello" ]} in
  outgoing st1 =
    [response (tlit "OK")
       (JObj [(tlit "filename", JStr (tlit "a.txt")); (tlit "filesize", JInt 5)]);
     Raw (blit "hello")] /\
  outgoing st2 = [error "Invalid file size"] /\
  outgoing st1 <> outgoing st2.
Proof. cbn zeta. split_and!; [reflexivity|reflexivity|discriminate]. Qed.

(** An upload spelled in mixed case, and in capitals. *)
Lemma command_case_insensitive_witness :
  handle_client_raw (U := ascii_only) (P := posix)
    [blit "uPlOaD a.txt 5" ++ delimiter ++ blit "he"; blit "llo"] ∅ =
  handle_client_raw (U := ascii_only) (P := posix)
    [blit "UPLOAD a.txt 5" ++ delimiter ++ blit "he"; blit "llo"] ∅.
Proof.
  apply (command_case_insensitive (U := ascii_only) _ _ _
           (blit "uPlOaD a.txt 5" ++ delimiter ++ blit "he")
           (blit "UPLOAD a.txt 5" ++ delimiter ++ blit "he")
           [blit "llo"] (tlit "uPlOaD") (tlit "UPLOAD")
           [tlit "a.txt"; tlit "5"; tlit "he"]).
  - reflexivity.
  - reflexivity.
  - reflexivity.
  - reflexivity.
  - reflexivity.
  - by left.
  - unfold case_variant.
    repeat (constructor; [first [left; reflexivity | right; reflexivity]|]).
    constructor.
Defined.


(** ** Where the header ends *)

(** C5, at a request it fails on.  The text before the delimiter has two
    words, [GET] and [a.txt]; a byte of payload arrives in the same
    segment, the handler splits the whole buffer, counts three words and
    goes on to look the file up instead of refusing the request. *)
Theorem payload_counted_among_header_words :
  let header_data := blit "GET a.txt" ++ delimiter ++ blit "0" in
  Py.split (Py.strip (Py.decode_replace (header_line header_data))) =
    [tlit "GET"; tlit "a.txt"] /\
  header_parts header_data = [tlit "GET"; tlit "a.txt"; tlit "0"] /\
  handle_client_raw (U := ascii_only) (P := posix) [header_data] ∅ =
  {| incoming := []; outgoing := [error "File not found"]; files := ∅;
     accesses := [Fs.Exists (tlit "storage/a.txt")] |}.
Proof. cbn zeta. split_and!; reflexivity. Qed.

(** The same two words alone are refused. *)
Lemma two_words_refused :
  handle_client_raw (U := ascii_only) (P := posix) [blit "GET a.txt" ++ delimiter] ∅ =
  {| incoming := []; outgoing := [error "Invalid command format"]; files := ∅;
     accesses := [] |}.
Proof. reflexivity. Qed.

(** ** How much of the stream a payload loop takes *)

(** C6, at a response it fails on.  The header announces one byte; the
    client asks for up to 524288 bytes whatever is left to come, and takes
    the byte after the payload with it.  The loop of the server on the same
    stream stops at the boundary ([upload_loop_bounded] is the general
    statement). *)
Theorem client_reads_past_payload :
  let sock := [blit "a" ++ blit "NEXT"] in
  Client.recv_file_data 1 [] sock = (blit "aNEXT", []) /\
  upload_loop (tlit "storage/f") 1 sock {[ tlit "storage/f" := [] ]} =
    (0, [blit "NEXT"], {[ tlit "storage/f" := blit "a" ]}).
Proof. cbn zeta. split; reflexivity. Qed.


(** * The round trip of a file *)

(** ** Searching the buffer for the delimiter *)

Lemma starts_with_spec (needle l : bytes) :
  Py.starts_with needle l = true <-> exists post, l = needle ++ post.
Proof.
  revert l. induction needle as [|x needle IH]; intros l; simpl.
  - split; [by exists l|done].
  - destruct l as [|y l].
    + split; [done|]. by intros [post [=]].
    + rewrite andb_true_iff, IH. split.
      * intros [Hxy [post ->]]. apply Byte.byte_dec_bl in Hxy as ->. by exists post.
      * intros [post [= -> ->]]. split; [apply Byte.byte_dec_lb; done|by exists post].
Qed.

Lemma find_from_found (needle l : bytes) (i : Z) :
  0 <= i -> 0 <= Py.find_from needle l i ->
  exists pre post, l = pre ++ needle ++ post.
Proof.
  revert i. induction l as [|y l IH]; intros i Hi; simpl.
  - destruct (Py.starts_with needle []) eqn:Hs; [|lia].
    intros _. apply starts_with_spec in Hs as [post ->]. by exists [], post.
  - destruct (Py.starts_with needle (y :: l)) eqn:Hs.
    + intros _. apply starts_with_spec in Hs as [post ->]. by exists [], post.
    + intros Hfound. destruct (IH (i + 1)) as (pre & post & ->); [lia|done|].
      by exists (y :: pre), post.
Qed.

Lemma contains_occurrence (needle l : bytes) :
  Py.contains needle l = true -> exists pre post, l = pre ++ needle ++ post.
Proof.
  unfold Py.contains, Py.find. intros H%Z.leb_le.
  by apply (find_from_found needle l 0).
Qed.

(** No occurrence of the delimiter starts in a run of bytes without a
    carriage return. *)
Lemma find_from_skip (pre l : bytes) (i : Z) :
  Forall (fun b => b <> x0d) pre ->
  Py.find_from delimiter (pre ++ l) i =
  Py.find_from delimiter l (i + Z.of_nat (length pre)).
Proof.
  revert i. induction pre as [|b pre IH]; intros i Hpre.
  - simpl. f_equal. lia.
  - apply Forall_cons in Hpre as [Hb Hpre]. cbn [app Py.find_from].
    replace (Py.starts_with delimiter (b :: pre ++ l)) with false.
    + rewrite IH by done. f_equal. simpl length. lia.
    + symmetry. simpl. apply andb_false_iff. left.
      apply not_true_is_false. intros Heq%Byte.byte_dec_bl. congruence.
Qed.

Lemma find_after_line (line rest : bytes) :
  Forall (fun b => b <> x0d) line ->
  Py.find (line ++ delimiter ++ rest) delimiter = Z.of_nat (length line).
Proof.
  intros Hline. unfold Py.find. rewrite find_from_skip by done.
  unfold delimiter. simpl. lia.
Qed.

Lemma leftover_after_line (line rest : bytes) :
  Forall (fun b => b <> x0d) line ->
  leftover (line ++ delimiter ++ rest) = rest.
Proof.
  intros Hline. unfold leftover, Py.slice_from.
  rewrite find_after_line by done.
  replace (Z.to_nat (Z.of_nat (length line) + 4))
    with (length line + length delimiter)%nat by (simpl; lia).
  rewrite <- drop_drop, drop_app_length. apply drop_app_length.
Qed.

(** A buffer that holds the delimiter, and starts a stream whose first
    carriage return is the delimiter's, holds all that precedes it. *)
Lemma buffer_past_line (hd tl line rest : bytes) :
  Forall (fun b => b <> x0d) line ->
  hd ++ tl = line ++ delimiter ++ rest ->
  Py.contains delimiter hd = true ->
  exists rest1, hd = line ++ delimiter ++ rest1 /\ rest1 ++ tl = rest.
Proof.
  intros Hline Heq Hin.
  apply contains_occurrence in Hin as (pre & post & ->).
  rewrite <- !app_assoc in Heq.
  apply app_eq_app in Heq as [l [[-> Heq] | [-> Heq]]].
  - set (m := l ++ delimiter ++ post).
    assert (m ++ tl = delimiter ++ rest) as Hm.
    { unfold m. by rewrite <- !app_assoc. }
    assert (4 <= length m)%nat as Hlen.
    { unfold m. rewrite !length_app. simpl. lia. }
    exists (drop 4 m). split.
    + rewrite <- (app_assoc line). fold m. f_equal.
      rewrite <- (take_drop 4 m) at 1. f_equal.
      rewrite <- (take_app_le m tl 4) by done. by rewrite Hm.
    + rewrite <- (drop_app_le m tl 4) by done. by rewrite Hm.
  - destruct l as [|b l].
    + simpl in Heq. rewrite app_nil_r. injection Heq as Heq. by exists post.
    + apply Forall_app in Hline as [_ Hl]. apply Forall_cons in Hl as [Hb _].
      simpl in Heq. injection Heq as Hb' _. by symmetry in Hb'.
Qed.


(** ** The loops that read the header and send the file *)

Lemma recv_header_sound (conn : stream) (acc hd : bytes) (conn' : stream) :
  recv_header conn acc = Some (hd, conn') ->
  hd ++ concat conn' = acc ++ concat conn /\ Py.contains delimiter hd = true.
Proof.
  funelim (recv_header conn acc); loop_facts; try clear Heqcall.
  - by intros [= <- <-].
  - done.
  - intros Hrec.
    match goal with IH : forall _ _, _ -> _ |- _ =>
      destruct (IH _ _ Hrec) as [Hcat Hin] end.
    split; [|done]. rewrite Hcat, <- app_assoc. f_equal.
    by eapply recv_split.
Qed.

(** The header loop finds the delimiter whenever the stream brings one. *)
Lemma recv_header_complete (conn : stream) (acc : bytes) :
  Py.contains delimiter (acc ++ concat conn) = true ->
  exists hd conn', recv_header conn acc = Some (hd, conn').
Proof.
  funelim (recv_header conn acc); loop_facts; try clear Heqcall; intros Hin.
  - by eexists _, _.
  - match goal with Hr : recv _ _ = _ |- _ =>
      apply recv_closed in Hr as [Hnil ->]; [|done] end.
    rewrite Hnil, app_nil_r in Hin. congruence.
  - match goal with IH : _ -> exists _ _, _ |- _ => apply IH end.
    rewrite <- app_assoc.
    match goal with Hr : recv _ _ = _ |- _ =>
      by rewrite (recv_split _ _ _ _ Hr) end.
Qed.

Lemma read_split (n : Z) (unread chunk unread' : bytes) :
  Fs.read n unread = (chunk, unread') -> chunk ++ unread' = unread.
Proof.
  unfold Fs.read. case_match; intros [= <- <-].
  - apply app_nil_r.
  - apply take_drop.
Qed.

Lemma read_at_end (n : Z) (unread unread' : bytes) :
  0 < n -> Fs.read n unread = ([], unread') -> unread = [].
Proof.
  unfold Fs.read. intros Hn. case_match; intros [= E _]; [done|].
  destruct unread; [done|]. destruct (Z.to_nat n) eqn:En; [lia|done].
Qed.

(** The chunks of a download are the file. *)
Lemma download_loop_concat (content : bytes) :
  concat (download_loop content) = content.
Proof.
  funelim (download_loop content); loop_facts; try clear Heqcall.
  - match goal with Hr : Fs.read _ _ = _ |- _ =>
      by apply read_at_end in Hr as -> end.
  - simpl.
    match goal with IH : concat _ = _ |- _ => rewrite IH end.
    match goal with Hr : Fs.read _ _ = _ |- _ => by apply read_split in Hr end.
Qed.


(** ** UTF-8: what is encoded decodes to itself *)

Lemma byte_val_of (z : Z) : 0 <= z < 256 -> byte_val (byte_of z) = z.
Proof.
  intros Hz. unfold byte_val, byte_of.
  destruct (Byte.of_N (Z.to_N z)) as [b|] eqn:E.
  - apply Byte.to_of_N in E. simpl. rewrite E. lia.
  - apply Byte.of_N_None_iff in E. lia.
Qed.

Lemma byte_val_range (b : byte) : 0 <= byte_val b < 256.
Proof. unfold byte_val. pose proof (Byte.to_N_bounded b). lia. Qed.

Lemma lor_high_low (hi lo n : Z) :
  0 <= n -> 0 <= lo < 2 ^ n -> Z.lor (hi * 2 ^ n) lo = hi * 2 ^ n + lo.
Proof.
  intros Hn Hlo. rewrite <- Z.add_lor_land.
  assert (Z.land (hi * 2 ^ n) lo = 0) as ->; [|lia].
  apply Z.bits_inj'. intros i Hi. rewrite Z.land_spec, Z.bits_0.
  destruct (Z.lt_ge_cases i n).
  - by rewrite Z.mul_pow2_bits_low.
  - rewrite <- (Z.mod_small lo (2 ^ n)) by done.
    rewrite Z.mod_pow2_bits_high by lia. apply andb_false_r.
Qed.

Ltac divmod := Z.div_mod_to_equations; lia.

Lemma low6 (x : Z) : Z.land x 0x3F = x mod 64.
Proof. apply (Z.land_ones x 6). lia. Qed.

Lemma low5 (x : Z) : Z.land x 0x1F = x mod 32.
Proof. apply (Z.land_ones x 5). lia. Qed.

Lemma low4 (x : Z) : Z.land x 0x0F = x mod 16.
Proof. apply (Z.land_ones x 4). lia. Qed.

Lemma low3 (x : Z) : Z.land x 0x07 = x mod 8.
Proof. apply (Z.land_ones x 3). lia. Qed.

Lemma cont_byte (x : Z) : Z.lor 0x80 (Z.land x 0x3F) = 128 + x mod 64.
Proof. rewrite low6. apply (lor_high_low 2 (x mod 64) 6); [lia|divmod]. Qed.

Lemma lead2 (c : Z) : 0 <= c < 0x800 -> Z.lor 0xC0 (Z.shiftr c 6) = 192 + c / 64.
Proof.
  intros Hc. rewrite Z.shiftr_div_pow2 by lia.
  apply (lor_high_low 6 (c / 2 ^ 6) 5); [lia|]. change (2 ^ 6) with 64. divmod.
Qed.

Lemma lead3 (c : Z) : 0 <= c < 0x10000 -> Z.lor 0xE0 (Z.shiftr c 12) = 224 + c / 4096.
Proof.
  intros Hc. rewrite Z.shiftr_div_pow2 by lia.
  apply (lor_high_low 14 (c / 2 ^ 12) 4); [lia|]. change (2 ^ 12) with 4096. divmod.
Qed.

Lemma lead4 (c : Z) : 0 <= c < 0x110000 -> Z.lor 0xF0 (Z.shiftr c 18) = 240 + c / 262144.
Proof.
  intros Hc. rewrite Z.shiftr_div_pow2 by lia.
  apply (lor_high_low 30 (c / 2 ^ 18) 3); [lia|]. change (2 ^ 18) with 262144. divmod.
Qed.

Lemma cp2_value (c0 c1 : Z) : Py.cp2 c0 c1 = c0 mod 32 * 64 + c1 mod 64.
Proof.
  unfold Py.cp2. rewrite low6, low5, Z.shiftl_mul_pow2 by lia.
  apply (lor_high_low _ _ 6); [lia|divmod].
Qed.

Lemma cp3_value (c0 c1 c2 : Z) :
  Py.cp3 c0 c1 c2 = c0 mod 16 * 4096 + c1 mod 64 * 64 + c2 mod 64.
Proof.
  unfold Py.cp3.
  rewrite !low6, low4, !Z.shiftl_mul_pow2 by lia.
  rewrite (lor_high_low _ _ 6) by (try lia; divmod).
  rewrite (lor_high_low _ _ 12) by (try lia; change (2 ^ 6) with 64;
                                     change (2 ^ 12) with 4096; divmod).
  lia.
Qed.

Lemma cp4_value (c0 c1 c2 c3 : Z) :
  Py.cp4 c0 c1 c2 c3 =
  c0 mod 8 * 262144 + c1 mod 64 * 4096 + c2 mod 64 * 64 + c3 mod 64.
Proof.
  unfold Py.cp4.
  rewrite !low6, low3, !Z.shiftl_mul_pow2 by lia.
  rewrite (lor_high_low _ _ 6) by (try lia; divmod).
  rewrite (lor_high_low _ _ 12) by (try lia; change (2 ^ 6) with 64;
                                     change (2 ^ 12) with 4096; divmod).
  rewrite (lor_high_low _ _ 18) by (try lia; change (2 ^ 6) with 64;
                                     change (2 ^ 12) with 4096;
                                     change (2 ^ 18) with 262144; divmod).
  lia.
Qed.

Lemma encode_char_values (c : Z) (bs : bytes) :
  Py.encode_char c = Some bs ->
  map byte_val bs = encoded_values c /\
  0 <= c < 0x110000 /\ ~ (0xD800 <= c <= 0xDFFF).
Proof.
  unfold Py.encode_char, encoded_values.
  destruct (Z.ltb_spec c 0); [done|].
  destruct (Z.ltb_spec c 0x80).
  { intros [= <-]. simpl. rewrite byte_val_of by lia. split; [done|lia]. }
  destruct (Z.ltb_spec c 0x800).
  { intros [= <-]. simpl. rewrite lead2, cont_byte by lia.
    rewrite !byte_val_of by divmod. split; [done|lia]. }
  destruct (Z.ltb_spec c 0x10000).
  { destruct (Z.leb_spec 0xD800 c), (Z.leb_spec c 0xDFFF); simpl; try done.
    all: intros [= <-]; simpl; rewrite lead3, !cont_byte by lia.
    all: rewrite Z.shiftr_div_pow2 by lia; change (2 ^ 6) with 64.
    all: rewrite !byte_val_of by divmod; split; [done|lia]. }
  destruct (Z.ltb_spec c 0x110000); [|done].
  intros [= <-]. simpl. rewrite lead4, !cont_byte by lia.
  rewrite !Z.shiftr_div_pow2 by lia. change (2 ^ 6) with 64. change (2 ^ 12) with 4096.
  rewrite !byte_val_of by divmod. split; [done|lia].
Qed.


(** The tests of the decoder, settled by arithmetic. *)
Ltac settle_tests :=
  repeat match goal with
  | |- context [?a <? ?b] =>
      first [ rewrite (proj2 (Z.ltb_lt a b)) by divmod
            | rewrite (proj2 (Z.ltb_ge a b)) by divmod ]
  | |- context [?a <=? ?b] =>
      first [ rewrite (proj2 (Z.leb_le a b)) by divmod
            | rewrite (proj2 (Z.leb_gt a b)) by divmod ]
  | |- context [?a =? ?b] =>
      first [ rewrite (proj2 (Z.eqb_eq a b)) by divmod
            | rewrite (proj2 (Z.eqb_neq a b)) by divmod
            | destruct (Z.eqb_spec a b) ]
  end.

Lemma scan_encoded_char (c : Z) (bs rest : bytes) :
  Py.encode_char c = Some bs ->
  Py.utf8_scan (bs ++ rest) = Some c :: Py.utf8_scan rest.
Proof.
  intros Henc. apply encode_char_values in Henc as (Hvals & Hc & Hsur).
  unfold encoded_values in Hvals.
  destruct (Z.ltb_spec c 0x80) as [Hr1|Hr1].
  { destruct bs as [|b0 [|]]; try done. injection Hvals as E0.
    cbn [app Py.utf8_scan]. rewrite E0. by settle_tests. }
  destruct (Z.ltb_spec c 0x800) as [Hr2|Hr2].
  { destruct bs as [|b0 [|b1 [|]]]; try done. injection Hvals as E0 E1.
    cbn [app Py.utf8_scan]. rewrite E0, E1. unfold Py.is_cont.
    settle_tests. cbn [andb]. rewrite cp2_value. do 2 f_equal. divmod. }
  destruct (Z.ltb_spec c 0x10000) as [Hr3|Hr3].
  { destruct bs as [|b0 [|b1 [|b2 [|]]]]; try done. injection Hvals as E0 E1 E2.
    cbn [app Py.utf8_scan]. rewrite E0, E1, E2.
    unfold Py.second_of_3, Py.is_cont.
    settle_tests; cbn [andb]; rewrite cp3_value; do 2 f_equal; divmod. }
  destruct bs as [|b0 [|b1 [|b2 [|b3 [|]]]]]; try done.
  injection Hvals as E0 E1 E2 E3.
  cbn [app Py.utf8_scan]. rewrite E0, E1, E2, E3.
  unfold Py.second_of_4, Py.is_cont.
  settle_tests; cbn [andb]; rewrite cp4_value; do 2 f_equal; divmod.
Qed.

Lemma encode_cons (c : Z) (t : text) (bs : bytes) :
  Py.encode (c :: t) = Some bs <->
  exists bc bt, Py.encode_char c = Some bc /\ Py.encode t = Some bt /\ bs = bc ++ bt.
Proof.
  unfold Py.encode. cbn [mapM]. 
  destruct (Py.encode_char c) as [bc|]; simpl.
  - destruct (mapM Py.encode_char t) as [bts|]; simpl.
    + split.
      * intros [= <-]. by eexists _, _.
      * intros (? & ? & [= <-] & [= <-] & ->). done.
    + split; [done|]. by intros (? & ? & _ & [=] & _).
  - split; [done|]. by intros (? & ? & [=] & _).
Qed.

Lemma encode_app (t1 t2 : text) (bs : bytes) :
  Py.encode (t1 ++ t2) = Some bs <->
  exists b1 b2, Py.encode t1 = Some b1 /\ Py.encode t2 = Some b2 /\ bs = b1 ++ b2.
Proof.
  revert bs. induction t1 as [|c t1 IH]; intros bs.
  - simpl. split.
    + intros H. by exists [], bs.
    + intros (? & ? & [= <-] & H & ->). done.
  - cbn [app]. rewrite encode_cons. split.
    + intros (bc & bt & Hc & Ht & ->). apply IH in Ht as (b1 & b2 & H1 & H2 & ->).
      exists (bc ++ b1), b2. split_and!; [|done|by rewrite app_assoc].
      apply encode_cons. by eexists _, _.
    + intros (b1 & b2 & H1 & H2 & ->).
      apply encode_cons in H1 as (bc & bt & Hc & Ht & ->).
      exists bc, (bt ++ b2). split_and!; [done| |by rewrite app_assoc].
      apply IH. by eexists _, _.
Qed.

(** What was encoded is decoded as it was, whatever bytes follow. *)
Lemma decode_encoded (t : text) (bs rest : bytes) :
  Py.encode t = Some bs ->
  Py.decode_replace (bs ++ rest) = t ++ Py.decode_replace rest.
Proof.
  unfold Py.decode_replace. revert bs. induction t as [|c t IH]; intros bs.
  - by intros [= <-].
  - intros (bc & bt & Hc & Ht & ->)%encode_cons.
    rewrite <- app_assoc, (scan_encoded_char c bc _ Hc). simpl.
    by rewrite (IH bt Ht).
Qed.

(** No carriage return comes out of a text that has none. *)
Lemma encode_no_cr (t : text) (bs : bytes) :
  Py.encode t = Some bs -> Forall (fun c => c <> 13) t ->
  Forall (fun b => b <> x0d) bs.
Proof.
  revert bs. induction t as [|c t IH]; intros bs.
  - intros [= <-] _. constructor.
  - intros (bc & bt & Hc & Ht & ->)%encode_cons [Hcr Ht']%Forall_cons.
    apply Forall_app. split; [|by apply IH].
    apply encode_char_values in Hc as (Hvals & Hrange & _).
    assert (Forall (fun v => v <> 13) (map byte_val bc)) as Hall.
    { rewrite Hvals. unfold encoded_values.
      repeat case_match; repeat constructor; try done; divmod. }
    rewrite Forall_map in Hall. eapply Forall_impl; [exact Hall|].
    simpl. intros b Hb ->. by apply Hb.
Qed.


(** ** Splitting the header into words *)

Lemma split_from_lstrip (t : text) :
  Py.split_from [] (Py.lstrip_by Py.is_space t) = Py.split_from [] t.
Proof.
  induction t as [|c t IH]; [done|].
  simpl. destruct (Py.is_space c) eqn:Hc; [done|].
  simpl. by rewrite Hc.
Qed.

Lemma split_from_snoc_space (cur t : text) (s : Z) :
  Py.is_space s = true ->
  Py.split_from cur (t ++ [s]) = Py.split_from cur t.
Proof.
  intros Hs. revert cur. induction t as [|c t IH]; intros cur; simpl.
  - rewrite Hs. by destruct cur.
  - destruct (Py.is_space c); [|by rewrite IH].
    destruct cur; by rewrite IH.
Qed.

Lemma split_from_rstrip (cur t : text) :
  Py.split_from cur (rev (Py.lstrip_by Py.is_space (rev t))) = Py.split_from cur t.
Proof.
  induction t as [|c t IH] using rev_ind; [done|].
  rewrite rev_app_distr. simpl.
  destruct (Py.is_space c) eqn:Hc.
  - by rewrite IH, split_from_snoc_space.
  - simpl. by rewrite rev_involutive.
Qed.

(** Stripping the text changes none of its words. *)
Lemma split_strip (t : text) : Py.split (Py.strip t) = Py.split t.
Proof.
  unfold Py.split, Py.strip, Py.strip_by.
  by rewrite split_from_rstrip, split_from_lstrip.
Qed.

(** A word, closed by white space. *)
Lemma split_from_word (cur w t : text) (s : Z) :
  Forall (fun c => Py.is_space c = false) w ->
  cur ++ w <> [] ->
  Py.is_space s = true ->
  Py.split_from cur (w ++ s :: t) = (cur ++ w) :: Py.split_from [] t.
Proof.
  intros Hw. revert cur. induction Hw as [|c w Hc Hw IH]; intros cur Hne Hs.
  - rewrite app_nil_r in *. simpl. rewrite Hs. by destruct cur.
  - simpl. rewrite Hc. rewrite IH; [|by rewrite <- app_assoc|done].
    by rewrite <- app_assoc.
Qed.

Lemma split_from_spaces (sp t : text) :
  Forall (fun c => Py.is_space c = true) sp ->
  Py.split_from [] (sp ++ t) = Py.split_from [] t.
Proof.
  induction 1 as [|c sp Hc _ IH]; [done|]. simpl. by rewrite Hc.
Qed.

(** ** Integers in decimal *)

Lemma digits_from_S (fuel : nat) (n : Z) (acc : text) :
  Py.digits_from (S fuel) n acc =
  if n <? 10 then (48 + n mod 10) :: acc
  else Py.digits_from fuel (n / 10) ((48 + n mod 10) :: acc).
Proof. reflexivity. Qed.

Lemma digits_from_spec (fuel : nat) (n : Z) (acc : text) :
  0 <= n < 10 ^ Z.of_nat (S fuel) ->
  Forall (fun c => 48 <= c <= 57) acc ->
  fold_left digit_step (Py.digits_from (S fuel) n acc) 0 = fold_left digit_step acc n /\
  Forall (fun c => 48 <= c <= 57) (Py.digits_from (S fuel) n acc) /\
  Py.digits_from (S fuel) n acc <> [].
Proof.
  revert n acc. induction fuel as [|fuel IH]; intros n acc Hn Hacc.
  all: rewrite digits_from_S.
  all: assert (Forall (fun c => 48 <= c <= 57) ((48 + n mod 10) :: acc)) as Hacc'
         by (constructor; [divmod|done]).
  - change (10 ^ Z.of_nat 1) with 10 in Hn.
    rewrite (proj2 (Z.ltb_lt n 10)) by lia.
    split_and!; [|done|done]. simpl. unfold digit_step at 2. f_equal. divmod.
  - destruct (Z.ltb_spec n 10) as [Hlt|Hge].
    { split_and!; [|done|done]. simpl. unfold digit_step at 2. f_equal. divmod. }
    rewrite Nat2Z.inj_succ, Z.pow_succ_r in Hn by lia.
    destruct (IH (n / 10) ((48 + n mod 10) :: acc)) as (Hval & Hall & Hne);
      [divmod|done|].
    split_and!; [|done|done].
    rewrite Hval. simpl. f_equal. unfold digit_step. divmod.
Qed.

Lemma str_digits (n : Z) :
  0 <= n ->
  fold_left digit_step (Py.str n) 0 = n /\
  Forall (fun c => 48 <= c <= 57) (Py.str n) /\ Py.str n <> [].
Proof.
  intros Hn. unfold Py.str. rewrite (proj2 (Z.ltb_ge n 0)) by lia.
  apply (digits_from_spec _ n []); [|constructor].
  split; [done|].
  destruct (Z.eq_dec n 0) as [->|Hpos]; [done|].
  rewrite Nat2Z.inj_succ, Z2Nat.id by apply Z.log2_nonneg.
  pose proof (Z.log2_spec n ltac:(lia)) as [_ Hlog].
  eapply Z.lt_le_trans; [exact Hlog|].
  apply Z.pow_le_mono_l. lia.
Qed.

Section Integers.
Context {U : UnicodeData} {P : Platform}.

Lemma int_digits_decimal (ds : text) (acc : Z) :
  Forall (fun c => 48 <= c <= 57) ds ->
  Py.int_digits acc false ds = Some (fold_left digit_step ds acc).
Proof.
  intros Hds. revert acc. induction Hds as [|c ds Hc _ IH]; intros acc; [done|].
  cbn [Py.int_digits fold_left].
  rewrite (proj2 (Z.eqb_neq c 95)) by lia.
  unfold Py.int_digit.
  rewrite (proj2 (andb_true_iff _ _)) by (split; apply Z.leb_le; lia).
  apply IH.
Qed.

Lemma lstrip_by_head (p : Z -> bool) (c : Z) (t : text) :
  p c = false -> Py.lstrip_by p (c :: t) = c :: t.
Proof. intros Hc. simpl. by rewrite Hc. Qed.

Lemma strip_by_clean (p : Z -> bool) (t : text) :
  Forall (fun c => p c = false) t -> Py.strip_by p t = t.
Proof.
  intros Ht. unfold Py.strip_by.
  assert (forall l, Forall (fun c => p c = false) l -> Py.lstrip_by p l = l) as Hl.
  { intros [|c l]; [done|]. intros [Hc _]%Forall_cons. by apply lstrip_by_head. }
  rewrite (Hl t Ht), Hl by (by apply Forall_rev). apply rev_involutive.
Qed.

(** [int(str(n)) == n]. *)
Lemma int_str (n : Z) : 0 <= n -> Py.int (Py.str n) = Some n.
Proof.
  intros Hn. destruct (str_digits n Hn) as (Hval & Hall & Hne).
  unfold Py.int. rewrite strip_by_clean.
  - destruct (Py.str n) as [|c ds]; [done|].
    apply Forall_cons in Hall as [Hc Hds].
    rewrite (proj2 (Z.eqb_neq c 43)), (proj2 (Z.eqb_neq c 45)) by lia.
    unfold Py.int_unsigned, Py.int_digit.
    rewrite (proj2 (andb_true_iff _ _)) by (split; apply Z.leb_le; lia).
    rewrite int_digits_decimal by done.
    by rewrite <- Hval.
  - eapply Forall_impl; [exact Hall|]. simpl. intros c Hc.
    unfold Py.int_space. rewrite (proj2 (Z.ltb_lt c 128)) by lia.
    apply orb_false_iff. split; [apply andb_false_iff; right|]; lia.
Qed.

End Integers.


(** ** A request of the client, as the handler reads it *)

Section Requests.
Context {U : UnicodeData} {P : Platform}.
Hypothesis word_not_space :
  forall c, 128 <= c -> uni_isalnum c = true -> Py.is_space c = false.

Lemma class_char (c : Z) :
  filename_char c = true -> Py.is_space c = false /\ c <> 13 /\ c <> 10.
Proof.
  unfold filename_char, Py.is_word. intros Hc.
  destruct (Z.ltb_spec c 128) as [Hascii|Hbig].
  - assert (33 <= c) as Hlow.
    { repeat (apply orb_prop in Hc as [Hc|Hc]);
        try (apply andb_prop in Hc as [?%Z.leb_le ?%Z.leb_le]);
        try apply Z.eqb_eq in Hc; lia. }
    split; [|lia]. unfold Py.is_space.
    repeat (apply orb_false_intro);
      try (apply andb_false_iff); try (apply Z.eqb_neq); lia.
  - apply orb_prop in Hc as [Hc|Hc].
    + apply orb_prop in Hc as [Hc|Hc]; [|apply Z.eqb_eq in Hc; lia].
      split; [by apply word_not_space|lia].
    + apply Z.eqb_eq in Hc. lia.
Qed.

Lemma valid_filename_shape (filename : text) :
  is_valid_filename filename = true ->
  stored_name filename <> [] /\
  Forall (fun c => filename_char c = true) (stored_name filename) /\
  (filename = stored_name filename \/ filename = stored_name filename ++ [10]) /\
  is_valid_filename (stored_name filename) = true.
Proof.
  unfold is_valid_filename at 1. fold (stored_name filename).
  intros [Hne Hall]%andb_prop.
  apply negb_true_iff, bool_decide_eq_false in Hne.
  pose proof (proj1 (forallb_forall _ _) Hall) as Hall'. clear Hall.
  rename Hall' into Hall.
  assert (Forall (fun c => filename_char c = true) (stored_name filename)) as Hclass.
  { apply Forall_forall. intros c Hc. apply Hall. by apply list_elem_of_In. }
  split_and!; [done|done| |].
  - unfold stored_name. case_decide as Hlast; [|by left].
    right. apply last_Some in Hlast as [l ->].
    by rewrite removelast_last.
  - unfold is_valid_filename. rewrite decide_False.
    + apply andb_true_iff. split.
      * by apply negb_true_iff, bool_decide_eq_false.
      * apply forallb_forall. intros c Hc. apply Hall, Hc.
    + intros [l Hl]%last_Some. rewrite Hl in Hclass.
      apply Forall_app in Hclass as [_ [Hnl _]%Forall_cons]. done.
Qed.

(** The header of a request [command filename size], followed by a
    payload and cut into segments at will, is read up to a point of the
    payload; the words of that buffer start with the three of the request
    and what lies past the delimiter is the payload's start. *)
Lemma request_read (conn : stream) (command filename size : text)
  (header payload : bytes) :
  Forall (fun c => 33 <= c < 128) command -> command <> [] ->
  is_valid_filename filename = true ->
  Forall (fun c => 48 <= c <= 57) size -> size <> [] ->
  Py.encode (command ++ tlit " " ++ filename ++ tlit " " ++ size
             ++ [13; 10; 13; 10]) = Some header ->
  concat conn = header ++ payload ->
  exists hd conn' more,
    recv_header conn [] = Some (hd, conn') /\
    header_parts hd = command :: stored_name filename :: size :: more /\
    leftover hd ++ concat conn' = payload.
Proof.
  intros Hcmd Hcmd0 Hvalid Hsize Hsize0 Henc Hconn.
  destruct (valid_filename_shape filename Hvalid) as (Hname0 & Hname & Hshape & _).
  remember (stored_name filename) as name eqn:Hn. clear Hn.
  assert (Forall (fun c => Py.is_space c = false /\ c <> 13) name) as Hname'.
  { eapply Forall_impl; [exact Hname|]. intros c Hc.
    destruct (class_char c Hc) as (? & ? & _). done. }
  assert (Forall (fun c => Py.is_space c = false /\ c <> 13) command) as Hcmd'.
  { eapply Forall_impl; [exact Hcmd|]. intros c Hc. simpl in Hc. split; [|lia].
    unfold Py.is_space.
    repeat (apply orb_false_intro);
      try (apply andb_false_iff); try (apply Z.eqb_neq); lia. }
  assert (Forall (fun c => Py.is_space c = false /\ c <> 13) size) as Hsize'.
  { eapply Forall_impl; [exact Hsize|]. intros c Hc. simpl in Hc. split; [|lia].
    unfold Py.is_space.
    repeat (apply orb_false_intro);
      try (apply andb_false_iff); try (apply Z.eqb_neq); lia. }
  (* the line and the delimiter *)
  replace (command ++ tlit " " ++ filename ++ tlit " " ++ size ++ [13; 10; 13; 10])
    with ((command ++ tlit " " ++ filename ++ tlit " " ++ size) ++ [13; 10; 13; 10])
    in Henc by (by rewrite <- !app_assoc).
  pose proof Henc as Hall.
  apply encode_app in Henc as (line & d & Hline & Hd & ->).
  injection Hd as <-.
  change [byte_of 13; byte_of 10; byte_of 13; byte_of 10] with delimiter in *.
  assert (Forall (fun b => b <> x0d) line) as Hnocr.
  { apply (encode_no_cr _ _ Hline).
    rewrite !Forall_app. split_and!.
    - eapply Forall_impl; [exact Hcmd'|]. by intros ? [].
    - repeat constructor. done.
    - destruct Hshape as [E | E]; rewrite E.
      + eapply Forall_impl; [exact Hname'|]. by intros ? [].
      + rewrite Forall_app. split; [|by repeat constructor].
        eapply Forall_impl; [exact Hname'|]. by intros ? [].
    - repeat constructor. done.
    - eapply Forall_impl; [exact Hsize'|]. by intros ? []. }
  rewrite <- app_assoc in Hconn.
  (* the loop *)
  destruct (recv_header_complete conn []) as (hd & conn' & Hrecv).
  { simpl. rewrite Hconn. unfold Py.contains.
    rewrite find_after_line by done. apply Z.leb_le. lia. }
  destruct (recv_header_sound _ _ _ _ Hrecv) as [Hcat Hin]. simpl in Hcat.
  rewrite Hconn in Hcat.
  destruct (buffer_past_line _ _ _ _ Hnocr Hcat Hin) as (rest1 & -> & Hrest).
  exists (line ++ delimiter ++ rest1), conn',
    (Py.split_from [] ([10; 13; 10] ++ Py.decode_replace rest1)).
  split_and!; [done| |by rewrite leftover_after_line].
  (* the words *)
  unfold header_parts. rewrite split_strip.
  rewrite (app_assoc line), (decode_encoded _ _ rest1 Hall).
  unfold Py.split. rewrite <- !app_assoc.
  change (tlit " " ++ ?t) with (32 :: t).
  rewrite (split_from_word [] command);
    [|eapply Forall_impl; [exact Hcmd'|]; by intros ? []|done|done].
  assert (forall t, Py.split_from [] (filename ++ 32 :: t) = name :: Py.split_from [] t)
    as Hsplit_name.
  { intros t. destruct Hshape as [E | E]; rewrite E.
    - rewrite (split_from_word [] name);
        [done|eapply Forall_impl; [exact Hname'|]; by intros ? []|done|done].
    - rewrite <- app_assoc. cbn [app].
      rewrite (split_from_word [] name);
        [done|eapply Forall_impl; [exact Hname'|]; by intros ? []|done|done]. }
  change (tlit " " ++ ?t) with (32 :: t).
  rewrite Hsplit_name. cbn [app].
  rewrite (split_from_word [] size);
    [done|eapply Forall_impl; [exact Hsize'|]; by intros ? []|done|done].
Qed.

End Requests.


(** ** Upload, then download *)

Lemma send_command_sent (command_str : text) (file_data_bytes sent : bytes) :
  Client.send_command_bytes command_str file_data_bytes = Some sent ->
  exists header,
    Py.encode (command_str ++ [13; 10; 13; 10]) = Some header /\
    sent = header ++ file_data_bytes.
Proof.
  unfold Client.send_command_bytes.
  destruct (Py.encode _) as [header|]; [|done].
  intros [= <-]. by exists header.
Qed.

Section RoundTrip.
Context {U : UnicodeData} {P : Platform}.

(** C1, as amended.  Let the client upload the bytes [B] under a name the
    pattern accepts and that names no directory (so neither [.] nor [..]),
    then ask for that name, each request over a connection of its own whose
    segments are cut at will.  The upload is answered OK; the download is
    answered OK with [filesize] the length of [B], and the chunks that
    follow are [B], byte for byte.  (The database is asked one thing: no
    alphanumeric character is white space.) *)
Theorem upload_then_download (conn1 conn2 : stream) (fs : gmap text bytes)
  (filename : text) (B : bytes) :
  (forall c, 128 <= c -> uni_isalnum c = true -> Py.is_space c = false) ->
  is_valid_filename filename = true ->
  Fs.isdir (Fs.path_join STORAGE_DIR (stored_name filename)) fs = false ->
  Client.remote_upload_bytes filename B = Some (concat conn1) ->
  Client.remote_download_bytes filename = Some (concat conn2) ->
  let st1 := handle_client_raw conn1 fs in
  let st2 := handle_client_raw conn2 (files st1) in
  outgoing st1 =
    [response (tlit "OK") (JStr (tlit "Uploaded " ++ stored_name filename))] /\
  exists chunks,
    outgoing st2 =
      response (tlit "OK")
        (JObj [(tlit "filename", JStr (stored_name filename));
               (tlit "filesize", JInt (Z.of_nat (length B)))])
      :: map Raw chunks /\
    concat chunks = B.
Proof.
  intros Hws Hvalid Hfile Hup Hdown. cbn zeta.
  destruct (valid_filename_shape filename Hvalid) as (_ & _ & _ & Hstored).
  set (filepath := Fs.path_join STORAGE_DIR (stored_name filename)) in *.
  (* the upload *)
  apply send_command_sent in Hup as (header1 & Henc1 & Hconn1).
  rewrite <- !app_assoc in Henc1.
  destruct (str_digits (Z.of_nat (length B)) ltac:(lia)) as (_ & Hdigits & Hdigits0).
  destruct (request_read Hws conn1 (tlit "UPLOAD") filename
              (Py.str (Z.of_nat (length B))) header1 B)
    as (hd1 & conn1' & more1 & Hrecv1 & Hparts1 & Hpayload1);
    [repeat constructor; done|done|done|done|done|done|done|].
  assert (accepted conn1 hd1 conn1' (tlit "UPLOAD") (stored_name filename)
            (Z.of_nat (length B))) as Hreq1.
  { split; [done|]. eexists _, _, _. split_and!; [exact Hparts1|done|done|].
    apply int_str. lia. }
  rewrite (handle_upload _ _ _ _ _ _ Hreq1). cbn zeta. fold filepath.
  assert (Z.of_nat (length B)
          = Z.of_nat (length (leftover hd1)) + Z.of_nat (pending conn1')) as Hlen.
  { unfold pending. rewrite <- Hpayload1, length_app. lia. }
  rewrite (proj2 (Z.ltb_ge _ 0)) by lia. rewrite Hfile.
  destruct (upload_loop_spec filepath
              (Z.of_nat (length B) - Z.of_nat (length (leftover hd1))) conn1'
              (<[filepath := leftover hd1]> fs) (leftover hd1))
    as (data & conn1'' & -> & Hcat & Hmost & Hend); [by rewrite lookup_insert_eq|].
  assert (data = concat conn1') as ->.
  { destruct (Z.lt_ge_cases (Z.of_nat (length data))
                (Z.of_nat (length B) - Z.of_nat (length (leftover hd1))))
      as [Hlt|Hge].
    - rewrite (Hend Hlt), app_nil_r in Hcat. done.
    - assert (length data = length (concat conn1')) as Hsame
        by (unfold pending in Hlen; lia).
      rewrite <- Hcat in Hsame. rewrite length_app in Hsame.
      destruct (concat conn1''); [by rewrite app_nil_r in Hcat|simpl in Hsame; lia]. }
  cbn [outgoing files].
  rewrite (proj2 (Z.ltb_ge 0 _)) by (unfold pending in Hlen; lia).
  split; [done|].
  rewrite insert_insert_eq, Hpayload1.
  (* the download *)
  apply send_command_sent in Hdown as (header2 & Henc2 & Hconn2).
  rewrite <- !app_assoc in Henc2.
  destruct (request_read Hws conn2 (tlit "GET") filename (tlit "0") header2 [])
    as (hd2 & conn2' & more2 & Hrecv2 & Hparts2 & _);
    [repeat constructor; done|done|done|repeat constructor; done|done|done|done|].
  assert (accepted conn2 hd2 conn2' (tlit "GET") (stored_name filename) 0) as Hreq2.
  { split; [done|]. eexists _, _, _. by split_and!; [exact Hparts2|..]. }
  rewrite (handle_get _ _ _ _ _ _ Hreq2). cbn zeta. fold filepath.
  rewrite lookup_insert_eq. cbn [outgoing].
  exists (download_loop B). split; [done|]. apply download_loop_concat.
Qed.

End RoundTrip.

(** Five bytes under [a.txt], the upload in two segments with the payload
    split, the GET with its header split. *)
Lemma upload_then_download_witness :
  let conn1 := [blit "UPLOAD a.txt 5" ++ delimiter ++ blit "he"; blit "llo"] in
  let conn2 := [blit "GET a.t"; blit "xt 0" ++ delimiter] in
  let st1 := handle_client_raw (U := ascii_only) (P := posix) conn1 ∅ in
  let st2 := handle_client_raw (U := ascii_only) (P := posix) conn2 (files st1) in
  outgoing st1 =
    [response (tlit "OK") (JStr (tlit "Uploaded " ++ stored_name (tlit "a.txt")))] /\
  exists chunks,
    outgoing st2 =
      response (tlit "OK")
        (JObj [(tlit "filename", JStr (stored_name (tlit "a.txt")));
               (tlit "filesize", JInt (Z.of_nat (length (blit "hello"))))])
      :: map Raw chunks /\
    concat chunks = blit "hello".
Proof.
  apply (upload_then_download (U := ascii_only)
           [blit "UPLOAD a.txt 5" ++ delimiter ++ blit "he"; blit "llo"]
           [blit "GET a.t"; blit "xt 0" ++ delimiter] ∅ (tlit "a.txt") (blit "hello")).
  - intros c _ Hc. discriminate Hc.
  - reflexivity.
  - reflexivity.
  - reflexivity.
  - reflexivity.
Defined.

(** The name [.] passes the pattern and names the storage directory itself.
    The upload under it is refused by [open] and stores nothing; the GET
    that follows finds the directory, announces its size, and ends in the
    error [open] raised: no byte of the upload comes back. *)
Lemma upload_under_dot_not_stored :
  let conn1 := [blit "UPLOAD . 2" ++ delimiter ++ blit "hi"] in
  let conn2 := [blit "GET . 0" ++ delimiter] in
  let st1 := handle_client_raw (U := ascii_only) (P := posix) conn1 ∅ in
  let st2 := handle_client_raw (U := ascii_only) (P := posix) conn2 (files st1) in
  is_valid_filename (U := ascii_only) (tlit ".") = true /\
  Client.remote_upload_bytes (tlit ".") (blit "hi") = Some (concat conn1) /\
  Client.remote_download_bytes (tlit ".") = Some (concat conn2) /\
  outgoing st1 =
    [response (tlit "ERROR")
       (JStr (tlit "[Errno 21] Is a directory: 'storage/.'"))] /\
  files st1 = ∅ /\
  outgoing st2 =
    [response (tlit "OK")
       (JObj [(tlit "filename", JStr (tlit ".")); (tlit "filesize", JInt 4096)]);
     response (tlit "ERROR")
       (JStr (tlit "[Errno 21] Is a directory: 'storage/.'"))].
Proof. cbn zeta. split_and!; reflexivity. Qed.


(** * More of the handler *)

(** ** A connection that brings no header *)

Lemma starts_with_self (needle post : bytes) :
  Py.starts_with needle (needle ++ post) = true.
Proof. apply starts_with_spec. by exists post. Qed.

Lemma find_from_unfold (needle l : bytes) (i : Z) :
  Py.find_from needle l i =
  if Py.starts_with needle l then i
  else match l with [] => -1 | _ :: l' => Py.find_from needle l' (i + 1) end.
Proof. by destruct l. Qed.

Lemma occurrence_found (needle pre post : bytes) (i : Z) :
  0 <= i -> 0 <= Py.find_from needle (pre ++ needle ++ post) i.
Proof.
  revert i. induction pre as [|b pre IH]; intros i Hi.
  - simpl. rewrite find_from_unfold, starts_with_self. done.
  - rewrite find_from_unfold. case_match; [done|].
    simpl. apply IH. lia.
Qed.

Lemma contains_iff (needle l : bytes) :
  Py.contains needle l = true <-> exists pre post, l = pre ++ needle ++ post.
Proof.
  split; [apply contains_occurrence|].
  intros (pre & post & ->). unfold Py.contains, Py.find.
  apply Z.leb_le. by apply occurrence_found.
Qed.

Lemma contains_app (needle l r : bytes) :
  Py.contains needle l = true -> Py.contains needle (l ++ r) = true.
Proof.
  rewrite !contains_iff. intros (pre & post & ->).
  exists pre, (post ++ r). by rewrite <- !app_assoc.
Qed.

Lemma recv_header_none (conn : stream) (acc : bytes) :
  Py.contains delimiter (acc ++ concat conn) = false ->
  recv_header conn acc = None.
Proof.
  intros Hno. destruct (recv_header conn acc) as [[hd conn']|] eqn:E; [|done].
  apply recv_header_sound in E as [Hcat Hin].
  apply (contains_app _ _ (concat conn')) in Hin. congruence.
Qed.

Section Refusals.
Context {U : UnicodeData} {P : Platform}.

(** X1.  A client that closes the stream before a delimiter has arrived
    gets no answer at all: nothing is sent, no file is touched, and all it
    sent has been read. *)
Theorem no_delimiter_no_answer (conn : stream) (fs : gmap text bytes) :
  Py.contains delimiter (concat conn) = false ->
  handle_client_raw conn fs =
  {| incoming := []; outgoing := []; files := fs; accesses := [] |}.
Proof.
  intros Hno. unfold handle_client_raw.
  by rewrite (recv_header_none conn [] Hno).
Qed.

(** X2.  A buffer of fewer than three words is answered with the
    invalid-format error, before the file name or the size is looked at. *)
Theorem too_few_words_refused (conn : stream) (fs : gmap text bytes)
  (hd : bytes) (conn' : stream) :
  recv_header conn [] = Some (hd, conn') ->
  (length (header_parts hd) < 3)%nat ->
  handle_client_raw conn fs =
  {| incoming := conn'; outgoing := [error "Invalid command format"];
     files := fs; accesses := [] |}.
Proof.
  intros Hrecv Hlen. unfold handle_client_raw. rewrite Hrecv. cbn zeta.
  destruct (header_parts hd) as [|p0 [|p1 [|p2 more]]]; try done.
  simpl in Hlen. lia.
Qed.

(** X3.  A request that passes the guards and whose command, in capitals,
    is neither UPLOAD nor GET is answered with the invalid-command error:
    the name and the size are checked first, the files are not touched. *)
Theorem unknown_command_refused (conn : stream) (fs : gmap text bytes)
  (hd : bytes) (conn' : stream) (command filename : text) (filesize : Z) :
  accepted conn hd conn' command filename filesize ->
  command <> tlit "UPLOAD" -> command <> tlit "GET" ->
  handle_client_raw conn fs =
  {| incoming := conn'; outgoing := [error "Invalid command"];
     files := fs; accesses := [] |}.
Proof.
  intros (Hrecv & p0 & p2 & more & Hparts & Hcmd & Hvalid & Hint) Hup Hget.
  unfold handle_client_raw. rewrite Hrecv. cbn zeta.
  rewrite Hparts, Hvalid. cbn [negb]. rewrite Hint, Hcmd.
  by rewrite !decide_False by done.
Qed.

End Refusals.

(** A stream that ends in the middle of the header. *)
Lemma no_delimiter_no_answer_witness :
  handle_client_raw (U := ascii_only) (P := posix) [blit "GET a.txt 0"; [x0d; x0a; x0d]]
    {[ tlit "storage/a.txt" := blit "old" ]} =
  {| incoming := []; outgoing := [];
     files := {[ tlit "storage/a.txt" := blit "old" ]}; accesses := [] |}.
Proof. apply (no_delimiter_no_answer (U := ascii_only)). reflexivity. Defined.

(** Two words, and an empty header. *)
Lemma too_few_words_refused_witness :
  handle_client_raw (U := ascii_only) (P := posix) [blit "UPLOAD a.txt" ++ delimiter] ∅ =
  {| incoming := []; outgoing := [error "Invalid command format"];
     files := ∅; accesses := [] |}.
Proof.
  apply (too_few_words_refused (U := ascii_only) _ _
           (blit "UPLOAD a.txt" ++ delimiter) []).
  - reflexivity.
  - vm_compute. lia.
Defined.

(** DELETE is no command of the server. *)
Lemma unknown_command_refused_witness :
  handle_client_raw (U := ascii_only) (P := posix) [blit "delete a.txt 0" ++ delimiter]
    {[ tlit "storage/a.txt" := blit "old" ]} =
  {| incoming := []; outgoing := [error "Invalid command"];
     files := {[ tlit "storage/a.txt" := blit "old" ]}; accesses := [] |}.
Proof.
  apply (unknown_command_refused (U := ascii_only) _ _
           (blit "delete a.txt 0" ++ delimiter) [] (tlit "DELETE") (tlit "a.txt") 0).
  - accept_request.
  - discriminate.
  - discriminate.
Defined.


(** ** What an upload stores *)

(** The receive loop takes the first [remaining] bytes of what the stream
    still brings, or all of it when it brings less. *)
Lemma upload_loop_takes (filepath : text) (remaining : Z) (conn : stream)
  (fs : gmap text bytes) (old : bytes) :
  fs !! filepath = Some old -> 0 <= remaining ->
  exists conn',
    upload_loop filepath remaining conn fs =
      (remaining - Z.of_nat (length (take (Z.to_nat remaining) (concat conn))),
       conn',
       <[filepath := old ++ take (Z.to_nat remaining) (concat conn)]> fs) /\
    concat conn' = drop (Z.to_nat remaining) (concat conn).
Proof.
  intros Hold Hrem.
  destruct (upload_loop_spec filepath remaining conn fs old Hold)
    as (data & conn' & Hloop & Hcat & Hmost & Hend).
  assert (data = take (Z.to_nat remaining) (concat conn)
          /\ concat conn' = drop (Z.to_nat remaining) (concat conn)) as [Hd Hc].
  { destruct (Z.lt_ge_cases (Z.of_nat (length data)) remaining) as [Hlt|Hge].
    - rewrite (Hend Hlt), app_nil_r in Hcat. subst data. rewrite (Hend Hlt).
      rewrite take_ge, drop_ge by lia. done.
    - assert (length data = Z.to_nat remaining) as Hlen by lia.
      rewrite <- Hcat, <- Hlen. by rewrite take_app_length, drop_app_length. }
  exists conn'. by rewrite Hloop, <- Hd.
Qed.

Section UploadResult.
Context {U : UnicodeData} {P : Platform}.

(** A store that holds a file at a path has no directory there. *)
Lemma isdir_insert (path path' : text) (data : bytes) (fs : gmap text bytes) :
  Fs.isdir path (<[path' := data]> fs) =
  if decide (path' = path) then false else Fs.isdir path fs.
Proof.
  unfold Fs.isdir. destruct (decide (path' = path)) as [->|Hne].
  - by rewrite lookup_insert_eq.
  - by rewrite lookup_insert_ne.
Qed.

(** An upload to a directory: [open] raises, the error is the answer, and
    nothing more is read or written. *)
Lemma handle_upload_dir (conn : stream) (fs : gmap text bytes)
  (hd : bytes) (conn' : stream) (filename : text) (filesize : Z) :
  accepted conn hd conn' (tlit "UPLOAD") filename filesize ->
  Z.of_nat (length (leftover hd)) <= filesize ->
  Fs.isdir (Fs.path_join STORAGE_DIR filename) fs = true ->
  handle_client_raw conn fs =
  {| incoming := conn';
     outgoing :=
       [response (tlit "ERROR")
          (JStr (open_dir_error (Fs.path_join STORAGE_DIR filename)))];
     files := fs;
     accesses := [Fs.OpenWrite (Fs.path_join STORAGE_DIR filename)] |}.
Proof.
  intros Hreq Hle Hdir. rewrite (handle_upload _ _ _ _ _ _ Hreq). cbn zeta.
  rewrite (proj2 (Z.ltb_ge _ 0)) by lia. by rewrite Hdir.
Qed.

(** The state an upload leaves when the declared size covers the bytes that
    came with the header, and the path is no directory. *)
Lemma handle_upload_fitting (conn : stream) (fs : gmap text bytes)
  (hd : bytes) (conn' : stream) (filename : text) (filesize : Z) :
  accepted conn hd conn' (tlit "UPLOAD") filename filesize ->
  Z.of_nat (length (leftover hd)) <= filesize ->
  Fs.isdir (Fs.path_join STORAGE_DIR filename) fs = false ->
  let payload := leftover hd ++ concat conn' in
  exists conn'',
    handle_client_raw conn fs =
    {| incoming := conn'';
       outgoing :=
         [if Z.of_nat (length payload) <? filesize
          then error "Incomplete file received"
          else response (tlit "OK") (JStr (tlit "Uploaded " ++ filename))];
       files :=
         <[Fs.path_join STORAGE_DIR filename := take (Z.to_nat filesize) payload]> fs;
       accesses := [Fs.OpenWrite (Fs.path_join STORAGE_DIR filename)] |} /\
    concat conn'' = drop (Z.to_nat filesize) payload.
Proof.
  intros Hreq Hle Hfile. cbn zeta.
  rewrite (handle_upload _ _ _ _ _ _ Hreq). cbn zeta.
  rewrite (proj2 (Z.ltb_ge _ 0)) by lia. rewrite Hfile.
  set (filepath := Fs.path_join STORAGE_DIR filename).
  set (remaining := filesize - Z.of_nat (length (leftover hd))).
  destruct (upload_loop_takes filepath remaining conn'
              (<[filepath := leftover hd]> fs) (leftover hd))
    as (conn'' & -> & Hrest); [by rewrite lookup_insert_eq|lia|].
  assert (Z.to_nat filesize = (length (leftover hd) + Z.to_nat remaining)%nat)
    as Hsplit by lia.
  exists conn''. split.
  - f_equal.
    + f_equal. rewrite length_take, length_app.
      destruct (Z.ltb_spec 0 (remaining - Z.of_nat (Z.to_nat remaining `min` length (concat conn')))),
               (Z.ltb_spec (Z.of_nat (length (leftover hd) + length (concat conn'))) filesize);
        try done; lia.
    + rewrite insert_insert_eq. f_equal.
      rewrite Hsplit, take_app_add'; done.
  - rewrite Hrest, Hsplit. by rewrite drop_app_add'.
Qed.

(** X4.  An upload to a path that is no directory, which declares at
    least the bytes received with its header, stores the first [filesize]
    bytes of the payload, or all of it when the stream ends before: whatever
    the file held is replaced, no other file changes, the answer is OK
    exactly when all declared bytes came, and what follows them on the
    stream is not read. *)
Theorem upload_stores_declared_prefix (conn : stream) (fs : gmap text bytes)
  (hd : bytes) (conn' : stream) (filename : text) (filesize : Z) :
  accepted conn hd conn' (tlit "UPLOAD") filename filesize ->
  Z.of_nat (length (leftover hd)) <= filesize ->
  Fs.isdir (Fs.path_join STORAGE_DIR filename) fs = false ->
  let payload := leftover hd ++ concat conn' in
  let st := handle_client_raw conn fs in
  files st =
    <[Fs.path_join STORAGE_DIR filename := take (Z.to_nat filesize) payload]> fs /\
  outgoing st =
    [if Z.of_nat (length payload) <? filesize
     then error "Incomplete file received"
     else response (tlit "OK") (JStr (tlit "Uploaded " ++ filename))] /\
  concat (incoming st) = drop (Z.to_nat filesize) payload /\
  accesses st = [Fs.OpenWrite (Fs.path_join STORAGE_DIR filename)].
Proof.
  intros Hreq Hle Hfile. cbn zeta.
  destruct (handle_upload_fitting conn fs _ _ _ _ Hreq Hle Hfile)
    as (conn'' & -> & Hrest).
  by split_and!.
Qed.

(** X5.  A second upload under a name replaces what the first one stored:
    the files are what the second upload alone would have left. *)
Theorem upload_overwrites (conn1 conn2 : stream) (fs : gmap text bytes)
  (hd1 hd2 : bytes) (conn1' conn2' : stream) (filename : text) (size1 size2 : Z) :
  accepted conn1 hd1 conn1' (tlit "UPLOAD") filename size1 ->
  Z.of_nat (length (leftover hd1)) <= size1 ->
  accepted conn2 hd2 conn2' (tlit "UPLOAD") filename size2 ->
  Z.of_nat (length (leftover hd2)) <= size2 ->
  files (handle_client_raw conn2 (files (handle_client_raw conn1 fs))) =
  files (handle_client_raw conn2 fs).
Proof.
  intros Hreq1 Hle1 Hreq2 Hle2.
  destruct (Fs.isdir (Fs.path_join STORAGE_DIR filename) fs) eqn:Hdir.
  { by rewrite (handle_upload_dir conn1 fs _ _ _ _ Hreq1 Hle1 Hdir). }
  destruct (handle_upload_fitting conn1 fs _ _ _ _ Hreq1 Hle1 Hdir) as (c1 & -> & _).
  destruct (handle_upload_fitting conn2 fs _ _ _ _ Hreq2 Hle2 Hdir) as (c2 & -> & _).
  cbn [files].
  destruct (handle_upload_fitting conn2
              (<[Fs.path_join STORAGE_DIR filename :=
                   take (Z.to_nat size1) (leftover hd1 ++ concat conn1')]> fs)
              _ _ _ _ Hreq2 Hle2) as (c3 & -> & _).
  { rewrite isdir_insert. by rewrite decide_True. }
  cbn [files]. by rewrite insert_insert_eq.
Qed.

End UploadResult.

(** Seven bytes arrive for an upload of five: two stay on the stream. *)
Lemma upload_stores_declared_prefix_witness :
  let payload := leftover (blit "UPLOAD a.txt 5" ++ delimiter ++ blit "he")
                 ++ concat [blit "llo"; blit "XY"] in
  let st := handle_client_raw (U := ascii_only) (P := posix)
              [blit "UPLOAD a.txt 5" ++ delimiter ++ blit "he"; blit "llo"; blit "XY"]
              {[ tlit "storage/a.txt" := blit "a longer old content" ]} in
  files st =
    <[Fs.path_join STORAGE_DIR (tlit "a.txt") := take (Z.to_nat 5) payload]>
      {[ tlit "storage/a.txt" := blit "a longer old content" ]} /\
  outgoing st =
    [if Z.of_nat (length payload) <? 5
     then error "Incomplete file received"
     else response (tlit "OK") (JStr (tlit "Uploaded " ++ tlit "a.txt"))] /\
  concat (incoming st) = drop (Z.to_nat 5) payload /\
  accesses st = [Fs.OpenWrite (Fs.path_join STORAGE_DIR (tlit "a.txt"))].
Proof.
  apply (upload_stores_declared_prefix (U := ascii_only) _ _
           (blit "UPLOAD a.txt 5" ++ delimiter ++ blit "he") [blit "llo"; blit "XY"]
           (tlit "a.txt") 5).
  - accept_request.
  - vm_compute. discriminate.
  - reflexivity.
Defined.

(** Five bytes, then two, under one name. *)
Lemma upload_overwrites_witness :
  files (handle_client_raw (U := ascii_only) (P := posix)
           [blit "UPLOAD a.txt 2" ++ delimiter; blit "hi"]
           (files (handle_client_raw (U := ascii_only) (P := posix)
                     [blit "UPLOAD a.txt 5" ++ delimiter ++ blit "hello"] ∅))) =
  files (handle_client_raw (U := ascii_only) (P := posix)
           [blit "UPLOAD a.txt 2" ++ delimiter; blit "hi"] ∅).
Proof.
  apply (upload_overwrites (U := ascii_only) _ _ _
           (blit "UPLOAD a.txt 5" ++ delimiter ++ blit "hello")
           (blit "UPLOAD a.txt 2" ++ delimiter) [] [blit "hi"] (tlit "a.txt") 5 2).
  - accept_request.
  - vm_compute. discriminate.
  - accept_request.
  - vm_compute. discriminate.
Defined.


(** ** File names and paths *)

Section Paths.
Context {U : UnicodeData} {P : Platform}.

Lemma class_excludes_slash (c : Z) : filename_char c = true -> c <> 47.
Proof. intros Hc ->. by rewrite slash_outside_class in Hc. Qed.

Lemma class_excludes_line_feed (c : Z) : filename_char c = true -> c <> 10.
Proof. intros Hc ->. discriminate Hc. Qed.

(** For a text that does not end in a line feed (every word of a
    header is one), the pattern accepts exactly the runs, not empty, of
    characters of the class [[\w\-.]]. *)
Lemma valid_filename_iff (w : text) :
  last w <> Some 10 ->
  is_valid_filename w = true <->
  w <> [] /\ Forall (fun c => filename_char c = true) w.
Proof.
  intros Hlast. unfold is_valid_filename. rewrite decide_False by done.
  rewrite andb_true_iff, negb_true_iff, bool_decide_eq_false.
  rewrite forallb_forall, Forall_forall.
  split; intros [Hne Hall]; (split; [done|]); intros c Hc; apply Hall.
  - by apply list_elem_of_In.
  - by apply list_elem_of_In.
Qed.

(** X6.  The end-of-string anchor of the pattern also holds before a final
    line feed: a run of characters of the class is accepted with a line
    feed appended, and with nothing else appended that is outside the
    class. *)
Theorem valid_filename_line_feed (w : text) (c : Z) :
  w <> [] -> Forall (fun c => filename_char c = true) w ->
  filename_char c = false ->
  is_valid_filename (w ++ [c]) = bool_decide (c = 10).
Proof.
  intros Hne Hall Hc. unfold is_valid_filename.
  rewrite last_snoc. destruct (decide (c = 10)) as [->|Hnl].
  - rewrite (bool_decide_eq_true_2 (10 = 10)) by done.
    rewrite decide_True by done. rewrite removelast_last.
    apply andb_true_iff. split.
    + by apply negb_true_iff, bool_decide_eq_false.
    + apply forallb_forall. intros x Hx%list_elem_of_In.
      rewrite Forall_forall in Hall. by apply Hall.
  - rewrite (bool_decide_eq_false_2 (c = 10)) by done.
    rewrite decide_False by congruence.
    apply andb_false_iff. right. rewrite forallb_app. simpl.
    rewrite Hc. by rewrite andb_false_r.
Qed.

Lemma header_word_last (hd : bytes) (i : nat) (w : text) :
  header_parts hd !! i = Some w -> last w <> Some 10.
Proof.
  intros Hw [w' ->]%last_Some.
  destruct (header_part_no_space hd i _ Hw) as [_ Hno].
  apply Forall_app in Hno as [_ [Hnl _]%Forall_cons]. done.
Qed.

Lemma storage_path (name : text) :
  name <> [] -> Forall (fun c => filename_char c = true) name ->
  Fs.path_join STORAGE_DIR name = tlit "storage/" ++ name.
Proof.
  intros Hne Hall. unfold Fs.path_join.
  destruct name as [|c name]; [done|].
  apply Forall_cons in Hall as [Hc _]. apply class_excludes_slash in Hc.
  rewrite decide_False by (simpl; congruence).
  rewrite decide_False; [done|]. intros [?|?]; discriminate.
Qed.

Lemma accepted_in_storage (conn : stream) (hd : bytes) (conn' : stream)
  (command filename : text) (filesize : Z) :
  accepted conn hd conn' command filename filesize ->
  in_storage (Fs.path_join STORAGE_DIR filename).
Proof.
  intros (Hrecv & p0 & p2 & more & Hparts & Hcmd & Hvalid & Hint).
  assert (last filename <> Some 10) as Hlast.
  { apply (header_word_last hd 1). by rewrite Hparts. }
  apply (valid_filename_iff _ Hlast) in Hvalid as [Hne Hall].
  exists filename. split_and!; [by apply storage_path|done|done|].
  intros Hin. rewrite Forall_forall in Hall.
  by apply (class_excludes_slash 47 (Hall _ Hin)).
Qed.

Lemma accepted_path (conn : stream) (hd : bytes) (conn' : stream)
  (command filename : text) (filesize : Z) :
  accepted conn hd conn' command filename filesize ->
  Fs.path_join STORAGE_DIR filename = tlit "storage/" ++ filename.
Proof.
  intros (Hrecv & p0 & p2 & more & Hparts & Hcmd & Hvalid & Hint).
  assert (last filename <> Some 10) as Hlast.
  { apply (header_word_last hd 1). by rewrite Hparts. }
  apply (valid_filename_iff _ Hlast) in Hvalid as [Hne Hall].
  by apply storage_path.
Qed.

Lemma accepted_no_slash (conn : stream) (hd : bytes) (conn' : stream)
  (command filename : text) (filesize : Z) :
  accepted conn hd conn' command filename filesize -> 47 ∉ filename.
Proof.
  intros (Hrecv & p0 & p2 & more & Hparts & Hcmd & Hvalid & Hint).
  assert (last filename <> Some 10) as Hlast.
  { apply (header_word_last hd 1). by rewrite Hparts. }
  apply (valid_filename_iff _ Hlast) in Hvalid as [Hne Hall].
  intros Hin. rewrite Forall_forall in Hall.
  by apply (class_excludes_slash 47 (Hall _ Hin)).
Qed.

(** What one connection does to the files: its accesses are to paths of the
    storage, and the files change through an upload whose declared size
    covers what came with its header, and through nothing else. *)
Lemma handler_files (conn : stream) (fs : gmap text bytes) :
  Forall (fun a => match a with
                   | Fs.Exists p | Fs.Getsize p | Fs.OpenRead p | Fs.OpenWrite p =>
                     in_storage p
                   end) (accesses (handle_client_raw conn fs)) /\
  (files (handle_client_raw conn fs) = fs \/
   exists hd conn' filename filesize,
     accepted conn hd conn' (tlit "UPLOAD") filename filesize /\
     Z.of_nat (length (leftover hd)) <= filesize /\
     files (handle_client_raw conn fs) =
       <[Fs.path_join STORAGE_DIR filename :=
           take (Z.to_nat filesize) (leftover hd ++ concat conn')]> fs).
Proof.
  destruct (recv_header conn []) as [[hd conn']|] eqn:Hrecv;
    [|unfold handle_client_raw; rewrite Hrecv; split; [done|by left]].
  destruct (header_parts hd) as [|p0 [|p1 [|p2 more]]] eqn:Hparts;
    try (unfold handle_client_raw; rewrite Hrecv; cbn zeta; rewrite Hparts;
         split; [done|by left]).
  destruct (is_valid_filename p1) eqn:Hvalid;
    [|unfold handle_client_raw; rewrite Hrecv; cbn zeta;
      rewrite Hparts, Hvalid; split; [done|by left]].
  destruct (Py.int p2) as [filesize|] eqn:Hint;
    [|unfold handle_client_raw; rewrite Hrecv; cbn zeta;
      rewrite Hparts, Hvalid, Hint; split; [done|by left]].
  assert (accepted conn hd conn' (Py.upper p0) p1 filesize) as Hreq.
  { split; [done|]. by eexists _, _, _. }
  pose proof (accepted_in_storage _ _ _ _ _ _ Hreq) as Hin.
  destruct (decide (Py.upper p0 = tlit "UPLOAD")) as [Hup|Hup].
  - rewrite Hup in Hreq.
    destruct (Z.lt_ge_cases filesize (Z.of_nat (length (leftover hd)))) as [Hlt|Hge].
    + rewrite (handle_upload _ _ _ _ _ _ Hreq). cbn zeta.
      rewrite (proj2 (Z.ltb_lt _ 0)) by lia. split; [done|by left].
    + destruct (Fs.isdir (Fs.path_join STORAGE_DIR p1) fs) eqn:Hdir.
      { rewrite (handle_upload_dir conn fs _ _ _ _ Hreq Hge Hdir).
        split; [by repeat constructor|by left]. }
      split.
      * destruct (handle_upload_fitting conn fs _ _ _ _ Hreq Hge Hdir)
          as (conn'' & -> & _). by repeat constructor.
      * right. exists hd, conn', p1, filesize. split_and!; [done..|].
        by destruct (handle_upload_fitting conn fs _ _ _ _ Hreq Hge Hdir)
          as (conn'' & -> & _).
  - destruct (decide (Py.upper p0 = tlit "GET")) as [Hget|Hget].
    + rewrite Hget in Hreq. rewrite (handle_get _ _ _ _ _ _ Hreq). cbn zeta.
      destruct (fs !! _); [|destruct (Fs.dot_entry _)];
        (split; [by repeat constructor|by left]).
    + unfold handle_client_raw. rewrite Hrecv. cbn zeta.
      rewrite Hparts, Hvalid. cbn [negb]. rewrite Hint.
      rewrite !decide_False by done. split; [done|by left].
Qed.

(** X7.  Whatever a connection brings, the handler opens, reads and writes
    files right under the storage directory only, under names of the class
    [[\w\-.]] without a slash: every access of its log is to such a path, and
    a file whose content differs afterwards lies at such a path. *)
Theorem handler_confined_to_storage (conn : stream) (fs : gmap text bytes) :
  let st := handle_client_raw conn fs in
  Forall (fun a => match a with
                   | Fs.Exists p | Fs.Getsize p | Fs.OpenRead p | Fs.OpenWrite p =>
                     in_storage p
                   end) (accesses st) /\
  forall path, files st !! path <> fs !! path -> in_storage path.
Proof.
  cbn zeta. destruct (handler_files conn fs) as [Hacc Hfiles].
  split; [done|]. intros path Hdiff.
  destruct Hfiles as [Hsame|(hd & conn' & filename & filesize & Hreq & _ & Hnew)].
  - by rewrite Hsame in Hdiff.
  - rewrite Hnew in Hdiff.
    destruct (decide (Fs.path_join STORAGE_DIR filename = path)) as [<-|Hne].
    + by eapply accepted_in_storage.
    + by rewrite lookup_insert_ne in Hdiff.
Qed.

End Paths.

Lemma valid_filename_line_feed_witness :
  is_valid_filename (U := ascii_only) (tlit "a.txt" ++ [10]) = bool_decide (10 = 10).
Proof.
  apply (valid_filename_line_feed (U := ascii_only) (tlit "a.txt") 10).
  - discriminate.
  - repeat constructor.
  - reflexivity.
Defined.


(** ** Downloads, chunk by chunk *)

Lemma read_at_most (n : Z) (unread chunk unread' : bytes) :
  0 <= n -> Fs.read n unread = (chunk, unread') -> Z.of_nat (length chunk) <= n.
Proof.
  unfold Fs.read. intros Hn.
  destruct (Z.leb_spec (Z.of_nat (length unread)) n); intros [= <- <-]; [done|].
  rewrite length_take. lia.
Qed.

Lemma read_full_or_last (n : Z) (unread chunk unread' : bytes) :
  0 <= n -> Fs.read n unread = (chunk, unread') ->
  Z.of_nat (length chunk) = n \/ unread' = [].
Proof.
  unfold Fs.read. intros Hn.
  destruct (Z.leb_spec (Z.of_nat (length unread)) n); intros [= <- <-]; [by right|].
  left. rewrite length_take. lia.
Qed.

(** X8.  A file goes out in chunks that are never empty and never longer
    than the buffer, and that put end to end are the file; every chunk but
    the last fills the buffer, and an empty file goes out in no chunk. *)
Theorem download_chunks (content : bytes) :
  concat (download_loop content) = content /\
  Forall (fun chunk => 0 < Z.of_nat (length chunk) <= BUFFER_SIZE)
         (download_loop content) /\
  (forall i chunk, download_loop content !! i = Some chunk ->
     (S i < length (download_loop content))%nat ->
     Z.of_nat (length chunk) = BUFFER_SIZE) /\
  (content = [] -> download_loop content = []).
Proof.
  split; [apply download_loop_concat|].
  funelim (download_loop content); loop_facts; try clear Heqcall.
  - split_and!; [constructor|by intros []|done].
  - match goal with IH : _ /\ _ /\ _ |- _ => destruct IH as (IHall & IHfull & _) end.
    match goal with Hr : Fs.read _ _ = _ |- _ =>
      pose proof Hr as Hmost; apply read_at_most in Hmost; [|done];
      pose proof Hr as Hfull; apply read_full_or_last in Hfull; [|done];
      pose proof (read_split _ _ _ _ Hr) as Hsplit
    end.
    split_and!.
    + constructor; [simpl in *; lia|done].
    + intros [|i] chunk Hi Hlen; simpl in *.
      * injection Hi as <-. destruct Hfull as [Hfull | ->]; [done|].
        rewrite download_loop_equation_1 in Hlen. simpl in Hlen. lia.
      * apply (IHfull i chunk Hi). lia.
    + intros Hnil. rewrite Hnil in Hsplit. discriminate Hsplit.
Qed.

Section Found.
Context {U : UnicodeData} {P : Platform}.

(** X9.  A GET for a stored file is answered OK with the name and the
    length of the file, then with the file; the files are not changed, and
    what the client sent after the header is not read. *)
Theorem get_sends_file (conn : stream) (fs : gmap text bytes)
  (hd : bytes) (conn' : stream) (filename : text) (size : Z) (content : bytes) :
  accepted conn hd conn' (tlit "GET") filename size ->
  fs !! Fs.path_join STORAGE_DIR filename = Some content ->
  let st := handle_client_raw conn fs in
  outgoing st =
    response (tlit "OK")
      (JObj [(tlit "filename", JStr filename);
             (tlit "filesize", JInt (Z.of_nat (length content)))])
    :: map Raw (download_loop content) /\
  concat (download_loop content) = content /\
  files st = fs /\ incoming st = conn'.
Proof.
  intros Hreq Hfile. cbn zeta. rewrite (handle_get _ _ _ _ _ _ Hreq). cbn zeta.
  rewrite Hfile. split_and!; try done. apply download_loop_concat.
Qed.

(** X10.  The handler answers every request it has read the header of, and
    sends raw bytes after an OK header of a file only: what goes out is
    nothing, or one JSON message, or the header of a file and its chunks, or,
    for a GET that names a directory, an OK header with the size of the
    directory and after it the error that [open] raised. *)
Theorem one_header_per_connection (conn : stream) (fs : gmap text bytes) :
  let st := handle_client_raw conn fs in
  (recv_header conn [] = None /\ outgoing st = []) \/
  (exists status data,
     recv_header conn [] <> None /\
     outgoing st = [response status (JStr data)]) \/
  (exists filename content,
     fs !! Fs.path_join STORAGE_DIR filename = Some content /\
     outgoing st =
       response (tlit "OK")
         (JObj [(tlit "filename", JStr filename);
                (tlit "filesize", JInt (Z.of_nat (length content)))])
       :: map Raw (download_loop content)) \/
  (exists filename,
     Fs.isdir (Fs.path_join STORAGE_DIR filename) fs = true /\
     outgoing st =
       [response (tlit "OK")
          (JObj [(tlit "filename", JStr filename);
                 (tlit "filesize",
                  JInt (dir_size (Fs.path_join STORAGE_DIR filename)))]);
        response (tlit "ERROR")
          (JStr (open_dir_error (Fs.path_join STORAGE_DIR filename)))]).
Proof.
  cbn zeta.
  destruct (recv_header conn []) as [[hd conn']|] eqn:Hrecv;
    [|left; unfold handle_client_raw; by rewrite Hrecv].
  right.
  destruct (header_parts hd) as [|p0 [|p1 [|p2 more]]] eqn:Hparts;
    try (left; eexists _, _; split; [done|];
         unfold handle_client_raw; rewrite Hrecv; cbn zeta; rewrite Hparts;
         reflexivity).
  destruct (is_valid_filename p1) eqn:Hvalid;
    [|left; eexists _, _; split; [done|];
      unfold handle_client_raw; rewrite Hrecv; cbn zeta;
      rewrite Hparts, Hvalid; reflexivity].
  destruct (Py.int p2) as [filesize|] eqn:Hint;
    [|left; eexists _, _; split; [done|];
      unfold handle_client_raw; rewrite Hrecv; cbn zeta;
      rewrite Hparts, Hvalid, Hint; reflexivity].
  assert (accepted conn hd conn' (Py.upper p0) p1 filesize) as Hreq.
  { split; [done|]. by eexists _, _, _. }
  destruct (decide (Py.upper p0 = tlit "UPLOAD")) as [Hup|Hup].
  - rewrite Hup in Hreq. left. rewrite (handle_upload _ _ _ _ _ _ Hreq). cbn zeta.
    case_match; [by eexists _, _|].
    case_match; [by eexists _, _|].
    destruct (upload_loop _ _ _ _) as [[r c] f]. cbn [outgoing].
    case_match; by eexists _, _.
  - destruct (decide (Py.upper p0 = tlit "GET")) as [Hget|Hget].
    + rewrite Hget in Hreq. rewrite (handle_get _ _ _ _ _ _ Hreq). cbn zeta.
      destruct (fs !! _) as [content|] eqn:Hfile.
      * right. left. by exists p1, content.
      * destruct (Fs.dot_entry _) eqn:Hdot.
        -- right. right. exists p1. split; [|done].
           unfold Fs.isdir. by rewrite Hfile.
        -- left. by eexists _, _.
    + left. unfold handle_client_raw. rewrite Hrecv. cbn zeta.
      rewrite Hparts, Hvalid. cbn [negb]. rewrite Hint.
      rewrite !decide_False by done. by eexists _, _.
Qed.

End Found.

(** A file of five bytes, asked for with a payload that nobody reads. *)
Lemma get_sends_file_witness :
  let st := handle_client_raw (U := ascii_only) (P := posix)
              [blit "GET a.txt 0" ++ delimiter; blit "ignored"]
              {[ tlit "storage/a.txt" := blit "hello" ]} in
  outgoing st =
    response (tlit "OK")
      (JObj [(tlit "filename", JStr (tlit "a.txt"));
             (tlit "filesize", JInt (Z.of_nat (length (blit "hello"))))])
    :: map Raw (download_loop (blit "hello")) /\
  concat (download_loop (blit "hello")) = blit "hello" /\
  files st = {[ tlit "storage/a.txt" := blit "hello" ]} /\
  incoming st = [blit "ignored"].
Proof.
  apply (get_sends_file (U := ascii_only) _ _ (blit "GET a.txt 0" ++ delimiter)
           [blit "ignored"] (tlit "a.txt") 0 (blit "hello")).
  - accept_request.
  - reflexivity.
Defined.


(** ** One connection after the other *)

Section Serving.
Context {U : UnicodeData} {P : Platform}.

Import Dispatcher.

(** X11.  Only uploads change the files: when no connection of a run brings
    an upload whose declared size covers the bytes that came with its
    header, the server leaves every file as it was, whatever else the
    connections ask for. *)
Theorem only_uploads_change_files (connections : list stream)
  (fs : gmap text bytes) :
  Forall (fun conn =>
            forall hd conn' filename filesize,
              accepted conn hd conn' (tlit "UPLOAD") filename filesize ->
              filesize < Z.of_nat (length (leftover hd))) connections ->
  (start_server_single connections fs).2 = fs /\
  Forall (fun st => files st = fs) (start_server_single connections fs).1.
Proof.
  induction 1 as [|conn connections Hconn _ IH]; [done|].
  simpl. unfold handle_client.
  assert (files (handle_client_raw conn fs) = fs) as Hsame.
  { destruct (handler_files conn fs)
      as [_ [?|(hd & conn' & filename & filesize & Hreq & Hle & _)]]; [done|].
    specialize (Hconn _ _ _ _ Hreq). lia. }
  rewrite Hsame.
  destruct (start_server_single connections fs) as [sts fs'].
  simpl in *. destruct IH as [-> Hall]. split; [done|].
  by constructor.
Qed.

(** X12.  Whatever the connections of a run bring, the server opens, reads
    and writes files right under the storage directory only: every access
    of every connection is to such a path, and a file anywhere else holds at
    the end what it held at the start. *)
Theorem server_confined_to_storage (connections : list stream)
  (fs : gmap text bytes) :
  Forall (fun st =>
     Forall (fun a => match a with
                      | Fs.Exists p | Fs.Getsize p | Fs.OpenRead p
                      | Fs.OpenWrite p => in_storage p
                      end) (accesses st))
    (start_server_single connections fs).1 /\
  forall path, ~ in_storage path ->
    (start_server_single connections fs).2 !! path = fs !! path.
Proof.
  revert fs. induction connections as [|conn connections IH]; intros fs; [done|].
  simpl. unfold handle_client.
  specialize (IH (files (handle_client_raw conn fs))).
  destruct (start_server_single connections _) as [sts fs'].
  simpl in *. destruct IH as [Hacc Hout]. split.
  - constructor; [|done]. apply handler_files.
  - intros path Hpath. rewrite (Hout path Hpath).
    destruct (handler_files conn fs)
      as [_ [->|(hd & conn' & filename & filesize & Hreq & Hle & ->)]]; [done|].
    apply lookup_insert_ne. intros <-.
    apply Hpath. by eapply accepted_in_storage.
Qed.

(** X13.  Two uploads under different names do not disturb each other: in
    either order the server ends with the same files and gives each client
    the same answer. *)
Theorem uploads_commute (conn1 conn2 : stream) (fs : gmap text bytes)
  (hd1 hd2 : bytes) (conn1' conn2' : stream) (name1 name2 : text)
  (size1 size2 : Z) :
  accepted conn1 hd1 conn1' (tlit "UPLOAD") name1 size1 ->
  Z.of_nat (length (leftover hd1)) <= size1 ->
  accepted conn2 hd2 conn2' (tlit "UPLOAD") name2 size2 ->
  Z.of_nat (length (leftover hd2)) <= size2 ->
  name1 <> name2 ->
  (start_server_single [conn1; conn2] fs).2 =
    (start_server_single [conn2; conn1] fs).2 /\
  map outgoing (start_server_single [conn1; conn2] fs).1 =
    rev (map outgoing (start_server_single [conn2; conn1] fs).1).
Proof.
  intros Hreq1 Hle1 Hreq2 Hle2 Hne. simpl. unfold handle_client.
  assert (Fs.path_join STORAGE_DIR name1 <> Fs.path_join STORAGE_DIR name2)
    as Hpaths.
  { rewrite (accepted_path _ _ _ _ _ _ Hreq1), (accepted_path _ _ _ _ _ _ Hreq2).
    intros Heq. by apply app_inv_head in Heq. }
  assert (forall v, Fs.isdir (Fs.path_join STORAGE_DIR name2)
                      (<[Fs.path_join STORAGE_DIR name1 := v]> fs)
                    = Fs.isdir (Fs.path_join STORAGE_DIR name2) fs) as H21.
  { intros v. rewrite isdir_insert. by rewrite decide_False. }
  assert (forall v, Fs.isdir (Fs.path_join STORAGE_DIR name1)
                      (<[Fs.path_join STORAGE_DIR name2 := v]> fs)
                    = Fs.isdir (Fs.path_join STORAGE_DIR name1) fs) as H12.
  { intros v. rewrite isdir_insert. by rewrite decide_False. }
  destruct (Fs.isdir (Fs.path_join STORAGE_DIR name1) fs) eqn:Hd1,
           (Fs.isdir (Fs.path_join STORAGE_DIR name2) fs) eqn:Hd2.
  - pose proof (handle_upload_dir conn1 fs _ _ _ _ Hreq1 Hle1 Hd1) as E1.
    pose proof (handle_upload_dir conn2 fs _ _ _ _ Hreq2 Hle2 Hd2) as E2.
    repeat (progress (rewrite ?E1, ?E2; cbn [files outgoing])). done.
  - pose proof (handle_upload_dir conn1 fs _ _ _ _ Hreq1 Hle1 Hd1) as E1.
    destruct (handle_upload_fitting conn2 fs _ _ _ _ Hreq2 Hle2 Hd2)
      as (c2 & E2 & _).
    pose proof (handle_upload_dir conn1
                  (<[Fs.path_join STORAGE_DIR name2 :=
                       take (Z.to_nat size2) (leftover hd2 ++ concat conn2')]> fs)
                  _ _ _ _ Hreq1 Hle1 (H12 _)) as E3.
    repeat (progress (rewrite ?E1, ?E2, ?E3; cbn [files outgoing])). done.
  - destruct (handle_upload_fitting conn1 fs _ _ _ _ Hreq1 Hle1 Hd1)
      as (c1 & E1 & _).
    pose proof (handle_upload_dir conn2 fs _ _ _ _ Hreq2 Hle2 Hd2) as E2.
    pose proof (handle_upload_dir conn2
                  (<[Fs.path_join STORAGE_DIR name1 :=
                       take (Z.to_nat size1) (leftover hd1 ++ concat conn1')]> fs)
                  _ _ _ _ Hreq2 Hle2 (H21 _)) as E3.
    repeat (progress (rewrite ?E1, ?E2, ?E3; cbn [files outgoing])). done.
  - destruct (handle_upload_fitting conn1 fs _ _ _ _ Hreq1 Hle1 Hd1)
      as (c1 & E1 & _).
    destruct (handle_upload_fitting conn2 fs _ _ _ _ Hreq2 Hle2 Hd2)
      as (c2 & E2 & _).
    destruct (handle_upload_fitting conn2
                (<[Fs.path_join STORAGE_DIR name1 :=
                     take (Z.to_nat size1) (leftover hd1 ++ concat conn1')]> fs)
                _ _ _ _ Hreq2 Hle2 (H21 _)) as (c3 & E3 & _).
    destruct (handle_upload_fitting conn1
                (<[Fs.path_join STORAGE_DIR name2 :=
                     take (Z.to_nat size2) (leftover hd2 ++ concat conn2')]> fs)
                _ _ _ _ Hreq1 Hle1 (H12 _)) as (c4 & E4 & _).
    repeat (progress (rewrite ?E1, ?E2, ?E3, ?E4; cbn [files outgoing])).
    split; [|done]. by apply insert_insert_ne.
Qed.

End Serving.

(** A request for a file, a client that leaves early and an upload that
    declares less than it brings: the stored file stays. *)
Lemma only_uploads_change_files_witness :
  let connections :=
    [[blit "GET a.txt 0" ++ delimiter]; [blit "UPLOAD a.txt"];
     [blit "UPLOAD a.txt 1" ++ delimiter ++ blit "new"]] in
  let fs : gmap text bytes := {[ tlit "storage/a.txt" := blit "old" ]} in
  (Dispatcher.start_server_single (U := ascii_only) (P := posix) connections fs).2 = fs /\
  Forall (fun st => files st = fs)
    (Dispatcher.start_server_single (U := ascii_only) (P := posix) connections fs).1.
Proof.
  apply (only_uploads_change_files (U := ascii_only)).
  repeat constructor;
    intros hd conn' filename filesize
      (Hrecv & p0 & p2 & more & Hparts & Hcmd & Hvalid & Hint);
    vm_compute in Hrecv; try discriminate Hrecv;
    injection Hrecv as <- <-;
    vm_compute in Hparts; injection Hparts as <- <- <- <-;
    vm_compute in Hcmd; try discriminate Hcmd.
  vm_compute in Hint. injection Hint as <-. reflexivity.
Defined.

(** Two clients, two files. *)
Lemma uploads_commute_witness :
  let conn1 := [blit "UPLOAD a.txt 2" ++ delimiter; blit "hi"] in
  let conn2 := [blit "UPLOAD b.txt 5" ++ delimiter ++ blit "hel"; blit "lo"] in
  (Dispatcher.start_server_single (U := ascii_only) (P := posix) [conn1; conn2] ∅).2 =
    (Dispatcher.start_server_single (U := ascii_only) (P := posix) [conn2; conn1] ∅).2 /\
  map outgoing (Dispatcher.start_server_single (U := ascii_only) (P := posix) [conn1; conn2] ∅).1 =
    rev (map outgoing
           (Dispatcher.start_server_single (U := ascii_only) (P := posix) [conn2; conn1] ∅).1).
Proof.
  apply (uploads_commute (U := ascii_only) _ _ _
           (blit "UPLOAD a.txt 2" ++ delimiter)
           (blit "UPLOAD b.txt 5" ++ delimiter ++ blit "hel")
           [blit "hi"] [blit "lo"] (tlit "a.txt") (tlit "b.txt") 2 5).
  - accept_request.
  - vm_compute. discriminate.
  - accept_request.
  - vm_compute. discriminate.
  - discriminate.
Defined.


(** ** The JSON header on the wire *)

Lemma hex_digit_printable (d : Z) : 0 <= d < 16 -> printable (Json.hex_digit d).
Proof. unfold printable, Json.hex_digit. case_match; lia. Qed.

Lemma unicode_escape_printable (n : Z) : Forall printable (Json.unicode_escape n).
Proof.
  unfold Json.unicode_escape.
  repeat constructor; try (apply hex_digit_printable; divmod); done.
Qed.

Lemma escape_char_printable (c : Z) : Forall printable (Json.escape_char c).
Proof.
  unfold Json.escape_char.
  repeat case_match; try (repeat constructor; done).
  - repeat constructor; unfold printable; lia.
  - apply unicode_escape_printable.
  - apply Forall_app. split; apply unicode_escape_printable.
Qed.

Lemma dumps_str_printable (s : text) : Forall printable (Json.dumps_str s).
Proof.
  unfold Json.dumps_str. constructor; [done|].
  apply Forall_app. split; [|by repeat constructor].
  apply Forall_concat, Forall_map, Forall_forall. intros c _.
  apply escape_char_printable.
Qed.

Lemma digits_from_printable (fuel : nat) (n : Z) (acc : text) :
  Forall printable acc -> Forall printable (Py.digits_from fuel n acc).
Proof.
  revert n acc. induction fuel as [|fuel IH]; intros n acc Hacc; [done|].
  simpl. assert (printable (48 + n mod 10)) by (unfold printable; divmod).
  case_match; [by constructor|]. apply IH. by constructor.
Qed.

Lemma str_printable (n : Z) : Forall printable (Py.str n).
Proof.
  unfold Py.str. case_match.
  - constructor; [done|]. by apply digits_from_printable.
  - by apply digits_from_printable.
Qed.

Lemma dumps_printable (j : json) : Forall printable (Json.dumps j).
Proof.
  revert j. fix IH 1. intros [s|n|members].
  - apply dumps_str_printable.
  - apply str_printable.
  - cbn [Json.dumps]. constructor; [done|].
    apply Forall_app. split; [|by repeat constructor].
    generalize true.
    induction members as [|[k v] members IHm]; intros first; [done|].
    repeat (apply Forall_app; split).
    + destruct first; by repeat constructor.
    + apply dumps_str_printable.
    + by repeat constructor.
    + apply IH.
    + apply IHm.
Qed.

Lemma encode_printable (t : text) :
  Forall printable t -> Py.encode t = Some (map byte_of t).
Proof.
  induction 1 as [|c t Hc _ IH]; [done|].
  apply encode_cons. exists [byte_of c], (map byte_of t). split_and!; [|done..].
  unfold printable in Hc. unfold Py.encode_char.
  rewrite (proj2 (Z.ltb_ge c 0)) by lia. by rewrite (proj2 (Z.ltb_lt c 0x80)) by lia.
Qed.

Lemma decode_strict_encoded (t : text) (bs : bytes) :
  Py.encode t = Some bs -> Py.decode_strict bs = Some t.
Proof.
  unfold Py.decode_strict. revert bs. induction t as [|c t IH]; intros bs.
  - by intros [= <-].
  - intros (bc & bt & Hc & Ht & ->)%encode_cons.
    rewrite (scan_encoded_char c bc _ Hc). cbn [mapM].
    rewrite (IH bt Ht). done.
Qed.

Lemma printable_no_cr (t : text) :
  Forall printable t -> Forall (fun b => b <> x0d) (map byte_of t).
Proof.
  intros Ht. apply (encode_no_cr t); [by apply encode_printable|].
  eapply Forall_impl; [exact Ht|]. unfold printable. intros c Hc. lia.
Qed.

Lemma response_bytes_header (j : json) :
  Wire.response_bytes j = Some (map byte_of (Json.dumps j) ++ delimiter).
Proof.
  unfold Wire.response_bytes. apply encode_app.
  exists (map byte_of (Json.dumps j)), delimiter. split_and!; [|done..].
  apply encode_printable, dumps_printable.
Qed.

(** X14.  The JSON text of a response is printable ASCII, whatever strings
    it carries: every other character is written as an escape.  So a
    response always encodes, one byte for a character, and the delimiter
    that ends it is the first on the wire, whatever follows. *)
Theorem response_framed (j : json) (payload : bytes) :
  Forall printable (Json.dumps j) /\
  Wire.response_bytes j = Some (map byte_of (Json.dumps j) ++ delimiter) /\
  Py.find (map byte_of (Json.dumps j) ++ delimiter ++ payload) delimiter =
    Z.of_nat (length (Json.dumps j)).
Proof.
  pose proof (dumps_printable j) as Hp. split_and!; [done| |].
  - apply response_bytes_header.
  - rewrite find_after_line by by apply printable_no_cr.
    by rewrite length_map.
Qed.

(** ** What the client reads of a response *)

Lemma starts_with_app (needle l r : bytes) :
  Py.starts_with needle l = true -> Py.starts_with needle (l ++ r) = true.
Proof.
  rewrite !starts_with_spec. intros [post ->]. exists (post ++ r).
  by rewrite <- app_assoc.
Qed.

Lemma starts_with_short (needle l r : bytes) :
  (length needle <= length l)%nat ->
  Py.starts_with needle (l ++ r) = true -> Py.starts_with needle l = true.
Proof.
  revert l. induction needle as [|x needle IH]; intros l Hlen; [done|].
  destruct l as [|y l]; simpl in *; [lia|].
  rewrite !andb_true_iff. intros [Hxy Hrest]. split; [done|].
  apply IH; [lia|done].
Qed.

(** The first occurrence in a buffer is the first in all that the buffer
    starts. *)
Lemma find_from_app (needle l r : bytes) (i : Z) :
  0 <= i -> 0 <= Py.find_from needle l i ->
  Py.find_from needle (l ++ r) i = Py.find_from needle l i.
Proof.
  revert i. induction l as [|y l IH]; intros i Hi Hfound.
  - rewrite (find_from_unfold needle []) in Hfound |- *.
    destruct (Py.starts_with needle []) eqn:Hs; [|lia].
    rewrite find_from_unfold. by rewrite (starts_with_app _ [] r Hs).
  - rewrite (find_from_unfold needle (y :: l)) in Hfound |- *.
    rewrite (find_from_unfold needle ((y :: l) ++ r)).
    destruct (Py.starts_with needle (y :: l)) eqn:Hs.
    + by rewrite (starts_with_app _ _ r Hs).
    + destruct (find_from_found needle l (i + 1)) as (pre & post & Hl);
        [lia|done|].
      destruct (Py.starts_with needle ((y :: l) ++ r)) eqn:Hs'.
      * apply starts_with_short in Hs'; [congruence|].
        rewrite Hl. simpl. rewrite !length_app. lia.
      * simpl. apply IH; [lia|done].
Qed.

Lemma find_app (needle l r : bytes) :
  Py.contains needle l = true -> Py.find (l ++ r) needle = Py.find l needle.
Proof.
  unfold Py.contains, Py.find. intros H%Z.leb_le. by apply find_from_app.
Qed.

Lemma find_from_index (needle l : bytes) (i : Z) :
  0 <= i -> 0 <= Py.find_from needle l i ->
  exists pre post,
    l = pre ++ needle ++ post /\
    Py.find_from needle l i = i + Z.of_nat (length pre).
Proof.
  revert i. induction l as [|y l IH]; intros i Hi; rewrite find_from_unfold.
  - destruct (Py.starts_with needle []) eqn:Hs; [|lia].
    intros _. apply starts_with_spec in Hs as [post ->].
    exists [], post. split; [done|simpl; lia].
  - destruct (Py.starts_with needle (y :: l)) eqn:Hs.
    + intros _. apply starts_with_spec in Hs as [post ->].
      exists [], post. split; [done|simpl; lia].
    + intros Hfound.
      destruct (IH (i + 1)) as (pre & post & -> & ->); [lia|done|].
      exists (y :: pre), post. split; [done|]. simpl length. lia.
Qed.

(** The loop of [recv_until] stops with the delimiter in the buffer, or
    with the stream at its end. *)
Lemma recv_until_loop_spec (d : bytes) (sock : stream) (acc buffer : bytes)
  (sock' : stream) :
  Client.recv_until_loop d sock acc = (buffer, sock') ->
  buffer ++ concat sock' = acc ++ concat sock /\
  (Py.contains d buffer = false -> concat sock' = []).
Proof.
  funelim (Client.recv_until_loop d sock acc); loop_facts; try clear Heqcall.
  - intros [= <- <-]. split; [done|congruence].
  - intros [= <- <-].
    match goal with Hr : recv _ _ = _ |- _ =>
      apply recv_closed in Hr as [Hnil ->]; [|lia] end.
    by rewrite Hnil.
  - intros Hrec.
    match goal with IH : forall _ _, _ -> _ |- _ =>
      destruct (IH _ _ Hrec) as [Hcat Hend] end.
    split; [|done]. rewrite Hcat, <- app_assoc. f_equal.
    by eapply recv_split.
Qed.

(** What [recv_until] returns, in terms of all the stream brings. *)
Lemma recv_until_stream (sock : stream) (header : option text) (rest : bytes)
  (sock' : stream) :
  Client.recv_until delimiter sock = (header, rest, sock') ->
  let all := concat sock in
  let i := Py.find all delimiter in
  if Py.contains delimiter all
  then header = Py.decode_strict (Py.slice_to all i) /\
       rest ++ concat sock' = Py.slice_from all (i + 4)
  else header = Py.decode_strict all /\ rest = [] /\ concat sock' = [].
Proof.
  unfold Client.recv_until.
  destruct (Client.recv_until_loop delimiter sock []) as [buffer sock1] eqn:Hloop.
  apply recv_until_loop_spec in Hloop as [Hcat Hend]. simpl in Hcat.
  cbn zeta. rewrite <- Hcat.
  destruct (Py.contains delimiter buffer) eqn:Hin.
  - intros [= <- <- <-]. rewrite (contains_app _ _ _ Hin).
    rewrite (find_app _ _ _ Hin).
    destruct (find_from_index delimiter buffer 0) as (pre & post & Hb & Hi);
      [done|by apply Z.leb_le|].
    fold (Py.find buffer delimiter) in Hi. rewrite Hi.
    unfold Py.slice_to, Py.slice_from. rewrite Hb.
    replace (Z.to_nat (0 + Z.of_nat (length pre))) with (length pre) by lia.
    replace (Z.to_nat (0 + Z.of_nat (length pre) + Z.of_nat (length delimiter)))
      with (length pre + 4)%nat by (simpl; lia).
    replace (Z.to_nat (0 + Z.of_nat (length pre) + 4))
      with (length pre + 4)%nat by lia.
    rewrite <- !app_assoc, !take_app_length. split; [done|].
    rewrite <- !drop_drop, !drop_app_length.
    replace (Z.to_nat (0 + Z.of_nat (length pre) + Z.of_nat 4))
      with (length pre + 4)%nat by lia.
    by rewrite <- drop_drop, drop_app_length.
  - intros [= <- <- <-]. rewrite (Hend eq_refl), app_nil_r, Hin. done.
Qed.

(** X15.  [recv_until] cuts the stream at the first delimiter it brings:
    the header is the text before it, and the bytes after it are those
    returned and those left on the socket.  Without a delimiter the header
    is the whole stream, read to its end. *)
Theorem recv_until_first_delimiter (sock : stream) :
  let '(header, rest, sock') := Client.recv_until delimiter sock in
  let all := concat sock in
  let i := Py.find all delimiter in
  if Py.contains delimiter all
  then header = Py.decode_strict (Py.slice_to all i) /\
       rest ++ concat sock' = Py.slice_from all (i + 4)
  else header = Py.decode_strict all /\ rest = [] /\ concat sock' = [].
Proof.
  destruct (Client.recv_until delimiter sock) as [[header rest] sock'] eqn:E.
  by apply recv_until_stream.
Qed.

Lemma raw_bytes (chunks : list bytes) :
  mapM Wire.message_bytes (map Raw chunks) = Some chunks.
Proof.
  induction chunks as [|c chunks IH]; [done|].
  cbn [map mapM Wire.message_bytes]. by rewrite IH.
Qed.

Lemma sent_bytes_file (j : json) (chunks : list bytes) :
  Wire.sent_bytes (Json j :: map Raw chunks) =
  Some (map byte_of (Json.dumps j) ++ delimiter ++ concat chunks).
Proof.
  unfold Wire.sent_bytes. cbn [mapM Wire.message_bytes].
  rewrite response_bytes_header, raw_bytes. simpl.
  by rewrite <- app_assoc.
Qed.

(** The header and the payload of a response, as the client finds them on
    a stream that brings the response in segments of any sizes. *)
Lemma response_read (j : json) (chunks : list bytes) (sock : stream) :
  Wire.sent_bytes (Json j :: map Raw chunks) = Some (concat sock) ->
  exists rest sock',
    Client.recv_until delimiter sock = (Some (Json.dumps j), rest, sock') /\
    rest ++ concat sock' = concat chunks.
Proof.
  rewrite sent_bytes_file. intros Hsent.
  assert (concat sock = map byte_of (Json.dumps j) ++ delimiter ++ concat chunks)
    as Hsock by congruence.
  destruct (Client.recv_until delimiter sock) as [[header rest] sock'] eqn:E.
  pose proof (recv_until_stream _ _ _ _ E) as Hspec. cbn zeta in Hspec.
  rewrite Hsock in Hspec.
  pose proof (printable_no_cr _ (dumps_printable j)) as Hline.
  rewrite (proj2 (contains_iff _ _)) in Hspec by by eexists _, _.
  rewrite find_after_line in Hspec by done.
  destruct Hspec as [-> Hrest]. exists rest, sock'. split.
  - do 2 f_equal. unfold Py.slice_to. rewrite Nat2Z.id, take_app_length.
    apply decode_strict_encoded, encode_printable, dumps_printable.
  - rewrite Hrest. unfold Py.slice_from.
    replace (Z.to_nat (Z.of_nat (length (map byte_of (Json.dumps j))) + 4))
      with (length (map byte_of (Json.dumps j)) + 4)%nat by lia.
    by rewrite <- drop_drop, drop_app_length.
Qed.

(** X16.  What the handler sends arrives as it was meant, however the
    network cuts it: a JSON header followed by chunks always encodes, and of
    any stream that brings these bytes the client's [recv_until] returns the
    very text [json.dumps] wrote; the bytes after it, read or still to come,
    are the chunks put end to end. *)
Theorem response_received (j : json) (chunks : list bytes) :
  exists wire,
    Wire.sent_bytes (Json j :: map Raw chunks) = Some wire /\
    forall sock, concat sock = wire ->
      exists rest sock',
        Client.recv_until delimiter sock = (Some (Json.dumps j), rest, sock') /\
        rest ++ concat sock' = concat chunks.
Proof.
  eexists. split; [apply sent_bytes_file|].
  intros sock Hsock. apply response_read. by rewrite sent_bytes_file, Hsock.
Qed.

(** The loop that collects the payload: it adds what it receives to what it
    has, until that is [filesize] bytes or the stream is at its end. *)
Lemma recv_file_data_spec (filesize : Z) (file_data : bytes) (sock : stream) :
  exists more sock',
    Client.recv_file_data filesize file_data sock = (file_data ++ more, sock') /\
    more ++ concat sock' = concat sock /\
    (Z.of_nat (length (file_data ++ more)) < filesize -> concat sock' = []) /\
    (filesize <= Z.of_nat (length file_data) -> more = [] /\ sock' = sock) /\
    (more <> [] -> Z.of_nat (length (file_data ++ more)) < filesize + 524288).
Proof.
  funelim (Client.recv_file_data filesize file_data sock); loop_facts;
    try clear Heqcall.
  - exists [], sock. rewrite app_nil_r. split_and!; try done. lia.
  - match goal with Hr : recv _ _ = _ |- _ =>
      apply recv_closed in Hr as [Hnil ->]; [|lia] end.
    exists [], []. rewrite app_nil_r. split_and!; try done. lia.
  - match goal with Hr : recv _ _ = _ |- _ =>
      pose proof (recv_split _ _ _ _ Hr) as Hsplit;
      pose proof Hr as Hmost; apply recv_at_most in Hmost; [|lia] end.
    match goal with IH : exists _ _, _ |- _ =>
      destruct IH as (more & sock'' & -> & Hcat & Hend & Hsame & Hover) end.
    exists ((b :: c) ++ more), sock''. split_and!.
    + by rewrite <- app_assoc.
    + by rewrite <- app_assoc, Hcat.
    + rewrite app_assoc. done.
    + lia.
    + intros _. rewrite app_assoc.
      destruct more as [|m more].
      * rewrite app_nil_r, length_app. lia.
      * by apply Hover.
Qed.

(** X17.  The loop that collects a payload keeps all it is given and all it
    receives, in order; it stops with [filesize] bytes at least, or at the
    end of the stream; it receives nothing when it starts with enough; and
    it takes less than one buffer beyond [filesize]. *)
Theorem payload_collected (filesize : Z) (file_data : bytes) (sock : stream) :
  let '(data, sock') := Client.recv_file_data filesize file_data sock in
  data ++ concat sock' = file_data ++ concat sock /\
  (filesize <= Z.of_nat (length data) \/ concat sock' = []) /\
  (Z.of_nat (length file_data) < filesize ->
   Z.of_nat (length data) < filesize + 524288) /\
  (filesize <= Z.of_nat (length file_data) -> data = file_data /\ sock' = sock).
Proof.
  destruct (recv_file_data_spec filesize file_data sock)
    as (more & sock' & -> & Hcat & Hend & Hsame & Hover).
  split_and!.
  - by rewrite <- app_assoc, Hcat.
  - destruct (Z.lt_ge_cases (Z.of_nat (length (file_data ++ more))) filesize);
      [right; by apply Hend|left; lia].
  - intros Hlt. destruct more as [|m more].
    + rewrite app_nil_r. lia.
    + by apply Hover.
  - intros Hge. destruct (Hsame Hge) as [-> ->]. by rewrite app_nil_r.
Qed.

(** ** A download, from the response to the file *)

(** The last component of a path without a slash is the path. *)
Lemma basename_from_plain (cur t : text) :
  47 ∉ t -> Fs.basename_from cur t = cur ++ t.
Proof.
  revert cur. induction t as [|c t IH]; intros cur Hno; simpl.
  - by rewrite app_nil_r.
  - apply not_elem_of_cons in Hno as [Hc Ht].
    rewrite (proj2 (Z.eqb_neq c 47)) by done.
    rewrite IH by done. by rewrite <- app_assoc.
Qed.

(** The file of a download lies in the client's directory, and is none of
    its entries [.] and [..]. *)
Lemma download_path_file (name : text) (local : gmap text bytes) :
  47 ∉ name -> Fs.isdir (tlit "download_" ++ name) local = false.
Proof.
  intros Hno. unfold Fs.isdir. destruct (local !! _); [done|].
  unfold Fs.dot_entry, Fs.basename.
  rewrite basename_from_plain.
  - apply bool_decide_eq_false. by intros [?|?].
  - intros [Hin|Hin]%elem_of_app; [|done].
    revert Hin. by apply (bool_decide_eq_false_1 (47 ∈ tlit "download_")).
Qed.

Section Saving.
Context {P : Platform}.

Lemma save_file (r : Download.result) (path : text) (data : bytes)
  (local : gmap text bytes) :
  Fs.isdir path local = false ->
  Download.save r path data local =
  ({| Download.reply := Download.reply r;
      Download.file_data_bytes := Download.file_data_bytes r;
      Download.download_path := Some path |},
   <[path := data]> local).
Proof.
  intros Hfile. unfold Download.save, Fs.open_wb, Fs.write. rewrite Hfile.
  by rewrite lookup_insert_eq, insert_insert_eq.
Qed.

(** What [remote_download] makes of such a response: the file is saved,
    when the bytes collected are not none and not fewer than announced. *)
Lemma download_outcome (name : text) (size : Z) (rest : bytes) (sock : stream)
  (local : gmap text bytes) :
  let data := (Client.recv_file_data size rest sock).1 in
  Download.send_command_response (JObj (file_response name size)) rest sock
    ≫= (fun r => Download.remote_download_result r local) =
  Some (if decide (data = [] \/ Z.of_nat (length data) < size)
        then (Download.failed "File data incomplete or missing", local)
        else Download.save
               {| Download.reply := file_response name size;
                  Download.file_data_bytes := Some data;
                  Download.download_path := None |}
               (tlit "download_" ++ name) data local).
Proof.
  cbn zeta. set (data := (Client.recv_file_data size rest sock).1).
  change (Download.send_command_response (JObj (file_response name size)) rest sock)
    with (Some {| Download.reply := file_response name size;
                  Download.file_data_bytes := Some data;
                  Download.download_path := None |}).
  cbn [mbind option_bind]. unfold Download.remote_download_result.
  change (Download.status_ok _) with true. cbn iota.
  cbn [Download.reply Download.file_data_bytes].
  change (Download.dict_get (tlit "data") _)
    with (Some (JObj [(tlit "filename", JStr name); (tlit "filesize", JInt size)])).
  cbn iota beta.
  change (Download.dict_get (tlit "filename") _) with (Some (JStr name)).
  change (Download.dict_get (tlit "filesize") _) with (Some (JInt size)).
  cbn iota beta.
  destruct data as [|b data'] eqn:Hdata.
  - rewrite decide_True by by left. done.
  - destruct (Z.ltb_spec (Z.of_nat (length (b :: data'))) size).
    + rewrite decide_True by by right. done.
    + by rewrite decide_False by (intros [?|?]; [done|lia]).
Qed.

(** A stream that ends before the bytes announced: the client reports the
    download as incomplete and writes no file. *)
Lemma download_short (name : text) (size : Z) (rest : bytes) (sock : stream)
  (local : gmap text bytes) :
  Z.of_nat (length (rest ++ concat sock)) < size \/ rest ++ concat sock = [] ->
  Download.send_command_response (JObj (file_response name size)) rest sock
    ≫= (fun r => Download.remote_download_result r local) =
  Some (Download.failed "File data incomplete or missing", local).
Proof.
  intros Hshort. rewrite download_outcome. cbn zeta.
  destruct (recv_file_data_spec size rest sock)
    as (more & sock' & -> & Hcat & Hend & _). cbn [fst].
  rewrite decide_True; [done|].
  rewrite <- Hcat, !length_app in Hshort. rewrite length_app.
  destruct Hshort as [Hlt|Hnil].
  - right. lia.
  - left. rewrite app_assoc in Hnil. by apply app_eq_nil in Hnil as [? _].
Qed.

(** A stream that brings the bytes announced, and no more, for a name
    without a slash. *)
Lemma download_exact (name : text) (content rest : bytes) (sock : stream)
  (local : gmap text bytes) :
  47 ∉ name -> content <> [] -> rest ++ concat sock = content ->
  Download.send_command_response
      (JObj (file_response name (Z.of_nat (length content)))) rest sock
    ≫= (fun r => Download.remote_download_result r local) =
  Some ({| Download.reply := file_response name (Z.of_nat (length content));
           Download.file_data_bytes := Some content;
           Download.download_path := Some (tlit "download_" ++ name) |},
        <[tlit "download_" ++ name := content]> local).
Proof.
  intros Hname Hne Hall. rewrite download_outcome. cbn zeta.
  destruct (recv_file_data_spec (Z.of_nat (length content)) rest sock)
    as (more & sock' & -> & Hcat & Hend & _). cbn [fst].
  assert (rest ++ more = content) as ->.
  { rewrite <- Hall, <- Hcat in Hend |- *.
    destruct (Z.lt_ge_cases (Z.of_nat (length (rest ++ more)))
                (Z.of_nat (length (rest ++ more ++ concat sock')))) as [Hlt|Hge].
    - rewrite (Hend Hlt). by rewrite app_nil_r.
    - rewrite !length_app in Hge.
      assert (concat sock' = []) as -> by (apply nil_length_inv; lia).
      by rewrite app_nil_r. }
  rewrite decide_False by (intros [?|?]; [done|lia]).
  by rewrite save_file by by apply download_path_file.
Qed.

End Saving.

Section EndToEnd.
Context {U : UnicodeData} {P : Platform}.

(** X18.  A download end to end: for a stored file that is not empty, the
    bytes the handler sends, cut by the network in any way, lead the client
    to the header the handler wrote and, with the response this header
    stands for, to a local file [download_<name>] that holds the stored
    bytes. *)
Theorem download_stores_file (conn : stream) (fs local : gmap text bytes)
  (hd : bytes) (conn' : stream) (filename : text) (filesize : Z)
  (content : bytes) :
  accepted conn hd conn' (tlit "GET") filename filesize ->
  fs !! Fs.path_join STORAGE_DIR filename = Some content ->
  content <> [] ->
  let response := JObj (file_response filename (Z.of_nat (length content))) in
  exists wire,
    Wire.sent_bytes (outgoing (handle_client_raw conn fs)) = Some wire /\
    forall sock, concat sock = wire ->
      exists rest sock',
        Client.recv_until delimiter sock = (Some (Json.dumps response), rest, sock') /\
        Download.send_command_response response rest sock'
          ≫= (fun r => Download.remote_download_result r local) =
        Some ({| Download.reply :=
                   file_response filename (Z.of_nat (length content));
                 Download.file_data_bytes := Some content;
                 Download.download_path := Some (tlit "download_" ++ filename) |},
              <[tlit "download_" ++ filename := content]> local).
Proof.
  intros Hreq Hfile Hne. cbn zeta.
  rewrite (handle_get _ _ _ _ _ _ Hreq). cbn zeta. rewrite Hfile.
  cbn [outgoing]. unfold response.
  change (JObj [(tlit "status", JStr (tlit "OK")); _])
    with (JObj (file_response filename (Z.of_nat (length content)))).
  eexists. split; [apply sent_bytes_file|].
  intros sock Hsock.
  destruct (response_read (JObj (file_response filename (Z.of_nat (length content))))
              (download_loop content) sock) as (rest & sock' & Hrecv & Hrest).
  { by rewrite sent_bytes_file, Hsock. }
  rewrite download_loop_concat in Hrest.
  exists rest, sock'. split; [done|].
  apply download_exact; [by eapply accepted_no_slash|done|done].
Qed.

(** X19.  An empty file cannot be downloaded: the handler answers OK with
    a size of 0 and sends no chunk, and the client, which takes no bytes for
    missing bytes, reports an error and writes no file. *)
Theorem download_of_empty_file_fails (conn : stream) (fs local : gmap text bytes)
  (hd : bytes) (conn' : stream) (filename : text) (filesize : Z) :
  accepted conn hd conn' (tlit "GET") filename filesize ->
  fs !! Fs.path_join STORAGE_DIR filename = Some [] ->
  let response := JObj (file_response filename 0) in
  outgoing (handle_client_raw conn fs) = [Json response] /\
  exists wire,
    Wire.sent_bytes (outgoing (handle_client_raw conn fs)) = Some wire /\
    forall sock, concat sock = wire ->
      exists rest sock',
        Client.recv_until delimiter sock = (Some (Json.dumps response), rest, sock') /\
        Download.send_command_response response rest sock'
          ≫= (fun r => Download.remote_download_result r local) =
        Some (Download.failed "File data incomplete or missing", local).
Proof.
  intros Hreq Hfile. cbn zeta.
  rewrite (handle_get _ _ _ _ _ _ Hreq). cbn zeta. rewrite Hfile.
  cbn [outgoing]. split; [done|].
  eexists. split; [apply (sent_bytes_file _ [])|].
  intros sock Hsock.
  destruct (response_read (JObj (file_response filename 0)) [] sock)
    as (rest & sock' & Hrecv & Hrest).
  { by rewrite (sent_bytes_file _ []), Hsock. }
  exists rest, sock'. split; [done|]. apply download_short. by right.
Qed.

(** X20.  A payload cut short: when the stream ends before the bytes the
    header announces, or brings none, the client reports the download as
    incomplete and writes no file, whatever it has received. *)
Theorem download_cut_short (name : text) (size : Z) (rest : bytes)
  (sock : stream) (local : gmap text bytes) :
  Z.of_nat (length (rest ++ concat sock)) < size ->
  Download.send_command_response (JObj (file_response name size)) rest sock
    ≫= (fun r => Download.remote_download_result r local) =
  Some (Download.failed "File data incomplete or missing", local).
Proof. intros Hshort. apply download_short. by left. Qed.

End EndToEnd.

(** A file of five bytes, downloaded. *)
Lemma download_stores_file_witness :
  let fs : gmap text bytes := {[ tlit "storage/a.txt" := blit "hello" ]} in
  let response := JObj (file_response (tlit "a.txt") 5) in
  exists wire,
    Wire.sent_bytes
      (outgoing (handle_client_raw (U := ascii_only) (P := posix)
                   [blit "GET a.txt 0" ++ delimiter] fs)) = Some wire /\
    forall sock, concat sock = wire ->
      exists rest sock',
        Client.recv_until delimiter sock = (Some (Json.dumps response), rest, sock') /\
        Download.send_command_response response rest sock'
          ≫= (fun r => Download.remote_download_result (P := posix) r ∅) =
        Some ({| Download.reply := file_response (tlit "a.txt") 5;
                 Download.file_data_bytes := Some (blit "hello");
                 Download.download_path := Some (tlit "download_a.txt") |},
              <[tlit "download_a.txt" := blit "hello"]> ∅).
Proof.
  apply (download_stores_file (U := ascii_only)
           [blit "GET a.txt 0" ++ delimiter]
           {[ tlit "storage/a.txt" := blit "hello" ]} ∅
           (blit "GET a.txt 0" ++ delimiter) [] (tlit "a.txt") 0 (blit "hello")).
  - accept_request.
  - reflexivity.
  - discriminate.
Defined.

(** An empty file, asked for. *)
Lemma download_of_empty_file_fails_witness :
  let fs : gmap text bytes := {[ tlit "storage/a.txt" := [] ]} in
  let response := JObj (file_response (tlit "a.txt") 0) in
  outgoing (handle_client_raw (U := ascii_only) (P := posix)
              [blit "GET a.txt 0" ++ delimiter] fs) = [Json response] /\
  exists wire,
    Wire.sent_bytes
      (outgoing (handle_client_raw (U := ascii_only) (P := posix)
                   [blit "GET a.txt 0" ++ delimiter] fs)) = Some wire /\
    forall sock, concat sock = wire ->
      exists rest sock',
        Client.recv_until delimiter sock = (Some (Json.dumps response), rest, sock') /\
        Download.send_command_response response rest sock'
          ≫= (fun r => Download.remote_download_result (P := posix) r ∅) =
        Some (Download.failed "File data incomplete or missing", ∅).
Proof.
  apply (download_of_empty_file_fails (U := ascii_only)
           [blit "GET a.txt 0" ++ delimiter]
           {[ tlit "storage/a.txt" := [] ]} ∅
           (blit "GET a.txt 0" ++ delimiter) [] (tlit "a.txt") 0).
  - accept_request.
  - reflexivity.
Defined.

(** Three bytes of five, and the stream ends. *)
Lemma download_cut_short_witness :
  Download.send_command_response (JObj (file_response (tlit "a.txt") 5))
      (blit "he") [blit "l"]
    ≫= (fun r => Download.remote_download_result (P := posix) r ∅) =
  Some (Download.failed "File data incomplete or missing", ∅).
Proof.
  apply (download_cut_short (tlit "a.txt") 5 (blit "he") [blit "l"] ∅).
  simpl. lia.
Defined.


(** ** From one client's disk to another's *)

Section ToDisk.
Context {U : UnicodeData} {P : Platform}.

(** X21.  A download of a name under which nothing is stored
    ([os.path.exists] is false): the client finds the error the handler
    wrote, returns it as it is, and writes no file. *)
Theorem download_of_missing_file (conn : stream) (fs local : gmap text bytes)
  (hd : bytes) (conn' : stream) (filename : text) (filesize : Z) :
  accepted conn hd conn' (tlit "GET") filename filesize ->
  Fs.path_exists (Fs.path_join STORAGE_DIR filename) fs = false ->
  let reply := [(tlit "status", JStr (tlit "ERROR"));
                (tlit "data", JStr (tlit "File not found"))] in
  exists wire,
    Wire.sent_bytes (outgoing (handle_client_raw conn fs)) = Some wire /\
    forall sock, concat sock = wire ->
      exists rest sock',
        Client.recv_until delimiter sock =
          (Some (Json.dumps (JObj reply)), rest, sock') /\
        Download.send_command_response (JObj reply) rest sock'
          ≫= (fun r => Download.remote_download_result r local) =
        Some ({| Download.reply := reply; Download.file_data_bytes := None;
                 Download.download_path := None |}, local).
Proof.
  intros Hreq Hfile. cbn zeta.
  rewrite (handle_get_missing _ _ _ _ _ _ Hreq Hfile).
  cbn [outgoing]. unfold error, response.
  eexists. split; [apply (sent_bytes_file _ [])|].
  intros sock Hsock.
  destruct (response_read
              (JObj [(tlit "status", JStr (tlit "ERROR"));
                     (tlit "data", JStr (tlit "File not found"))]) [] sock)
    as (rest & sock' & Hrecv & Hrest).
  { by rewrite (sent_bytes_file _ []), Hsock. }
  exists rest, sock'. split; [done|]. reflexivity.
Qed.

(** An upload by the client, then its request for the same name: the
    second request is accepted, and finds the bytes of the first. *)
Lemma uploaded_then_asked (conn1 conn2 : stream) (fs : gmap text bytes)
  (filename : text) (B : bytes) :
  (forall c, 128 <= c -> uni_isalnum c = true -> Py.is_space c = false) ->
  is_valid_filename filename = true ->
  Fs.isdir (Fs.path_join STORAGE_DIR (stored_name filename)) fs = false ->
  Client.remote_upload_bytes filename B = Some (concat conn1) ->
  Client.remote_download_bytes filename = Some (concat conn2) ->
  exists hd2 conn2',
    accepted conn2 hd2 conn2' (tlit "GET") (stored_name filename) 0 /\
    files (handle_client_raw conn1 fs)
      !! Fs.path_join STORAGE_DIR (stored_name filename) = Some B.
Proof.
  intros Hws Hvalid Hfile Hup Hdown.
  destruct (valid_filename_shape filename Hvalid) as (_ & _ & _ & Hstored).
  apply send_command_sent in Hup as (header1 & Henc1 & Hconn1).
  rewrite <- !app_assoc in Henc1.
  destruct (str_digits (Z.of_nat (length B)) ltac:(lia)) as (_ & Hdigits & Hdigits0).
  destruct (request_read Hws conn1 (tlit "UPLOAD") filename
              (Py.str (Z.of_nat (length B))) header1 B)
    as (hd1 & conn1' & more1 & Hrecv1 & Hparts1 & Hpayload1);
    [repeat constructor; done|done|done|done|done|done|done|].
  assert (accepted conn1 hd1 conn1' (tlit "UPLOAD") (stored_name filename)
            (Z.of_nat (length B))) as Hreq1.
  { split; [done|]. eexists _, _, _. split_and!; [exact Hparts1|done|done|].
    apply int_str. lia. }
  destruct (handle_upload_fitting conn1 fs _ _ _ _ Hreq1) as (c1 & -> & _).
  { rewrite <- Hpayload1, length_app. lia. }
  { done. }
  cbn [files]. rewrite Hpayload1, Nat2Z.id, firstn_all, lookup_insert_eq.
  apply send_command_sent in Hdown as (header2 & Henc2 & Hconn2).
  rewrite <- !app_assoc in Henc2.
  destruct (request_read Hws conn2 (tlit "GET") filename (tlit "0") header2 [])
    as (hd2 & conn2' & more2 & Hrecv2 & Hparts2 & _);
    [repeat constructor; done|done|done|repeat constructor; done|done|done|done|].
  exists hd2, conn2'. split; [|done].
  split; [done|]. eexists _, _, _. by split_and!; [exact Hparts2|..].
Qed.

(** X22.  From one client's disk to another's: after [remote_upload] of
    bytes [B], not none, under a name the pattern accepts and that names no
    directory (so neither [.] nor [..]), the answer to [remote_download] of
    that name, cut by the network in any way, leads the client to write [B]
    to its file [download_<name>]. *)
Theorem upload_then_download_to_disk (conn1 conn2 : stream)
  (fs local : gmap text bytes) (filename : text) (B : bytes) :
  (forall c, 128 <= c -> uni_isalnum c = true -> Py.is_space c = false) ->
  is_valid_filename filename = true ->
  Fs.isdir (Fs.path_join STORAGE_DIR (stored_name filename)) fs = false ->
  B <> [] ->
  Client.remote_upload_bytes filename B = Some (concat conn1) ->
  Client.remote_download_bytes filename = Some (concat conn2) ->
  let st1 := handle_client_raw conn1 fs in
  let st2 := handle_client_raw conn2 (files st1) in
  let response :=
    JObj (file_response (stored_name filename) (Z.of_nat (length B))) in
  exists wire,
    Wire.sent_bytes (outgoing st2) = Some wire /\
    forall sock, concat sock = wire ->
      exists rest sock' result,
        Client.recv_until delimiter sock = (Some (Json.dumps response), rest, sock') /\
        Download.send_command_response response rest sock'
          ≫= (fun r => Download.remote_download_result r local) =
        Some (result, <[tlit "download_" ++ stored_name filename := B]> local) /\
        Download.download_path result =
          Some (tlit "download_" ++ stored_name filename).
Proof.
  intros Hws Hvalid Hnodir Hne Hup Hdown. cbn zeta.
  destruct (uploaded_then_asked conn1 conn2 fs filename B Hws Hvalid Hnodir
              Hup Hdown) as (hd2 & conn2' & Hreq2 & Hfile).
  rewrite (handle_get _ _ _ _ _ _ Hreq2). cbn zeta. rewrite Hfile.
  cbn [outgoing]. unfold response.
  change (JObj [(tlit "status", JStr (tlit "OK")); _])
    with (JObj (file_response (stored_name filename) (Z.of_nat (length B)))).
  eexists. split; [apply sent_bytes_file|].
  intros sock Hsock.
  destruct (response_read
              (JObj (file_response (stored_name filename) (Z.of_nat (length B))))
              (download_loop B) sock) as (rest & sock' & Hrecv & Hrest).
  { by rewrite sent_bytes_file, Hsock. }
  rewrite download_loop_concat in Hrest.
  eexists rest, sock', _. split; [done|].
  rewrite (download_exact _ _ _ _ local (accepted_no_slash _ _ _ _ _ _ Hreq2)
             Hne Hrest). done.
Qed.

End ToDisk.

(** A name that is not stored. *)
Lemma download_of_missing_file_witness :
  let reply := [(tlit "status", JStr (tlit "ERROR"));
                (tlit "data", JStr (tlit "File not found"))] in
  exists wire,
    Wire.sent_bytes
      (outgoing (handle_client_raw (U := ascii_only) (P := posix)
                   [blit "GET a.txt 0" ++ delimiter] ∅)) = Some wire /\
    forall sock, concat sock = wire ->
      exists rest sock',
        Client.recv_until delimiter sock =
          (Some (Json.dumps (JObj reply)), rest, sock') /\
        Download.send_command_response (JObj reply) rest sock'
          ≫= (fun r => Download.remote_download_result (P := posix) r ∅) =
        Some ({| Download.reply := reply; Download.file_data_bytes := None;
                 Download.download_path := None |}, ∅).
Proof.
  apply (download_of_missing_file (U := ascii_only)
           [blit "GET a.txt 0" ++ delimiter] ∅ ∅
           (blit "GET a.txt 0" ++ delimiter) [] (tlit "a.txt") 0).
  - accept_request.
  - reflexivity.
Defined.

(** Five bytes under [a.txt], sent up in two segments and asked for in
    two. *)
Lemma upload_then_download_to_disk_witness :
  let conn1 := [blit "UPLOAD a.txt 5" ++ delimiter ++ blit "he"; blit "llo"] in
  let conn2 := [blit "GET a.t"; blit "xt 0" ++ delimiter] in
  let st1 := handle_client_raw (U := ascii_only) (P := posix) conn1 ∅ in
  let st2 := handle_client_raw (U := ascii_only) (P := posix) conn2 (files st1) in
  let response :=
    JObj (file_response (stored_name (tlit "a.txt"))
            (Z.of_nat (length (blit "hello")))) in
  exists wire,
    Wire.sent_bytes (outgoing st2) = Some wire /\
    forall sock, concat sock = wire ->
      exists rest sock' result,
        Client.recv_until delimiter sock = (Some (Json.dumps response), rest, sock') /\
        Download.send_command_response response rest sock'
          ≫= (fun r => Download.remote_download_result (P := posix) r ∅) =
        Some (result,
              <[tlit "download_" ++ stored_name (tlit "a.txt") := blit "hello"]> ∅) /\
        Download.download_path result =
          Some (tlit "download_" ++ stored_name (tlit "a.txt")).
Proof.
  apply (upload_then_download_to_disk (U := ascii_only)
           [blit "UPLOAD a.txt 5" ++ delimiter ++ blit "he"; blit "llo"]
           [blit "GET a.t"; blit "xt 0" ++ delimiter] ∅ ∅ (tlit "a.txt")
           (blit "hello")).
  - intros c _ Hc. discriminate Hc.
  - reflexivity.
  - reflexivity.
  - discriminate.
  - reflexivity.
  - reflexivity.
Defined.


(** ** Sizes that are no integers *)

Lemma lstrip_by_chars (p : Z -> bool) (t : text) (c : Z) :
  c ∈ t -> p c = true \/ c ∈ Py.lstrip_by p t.
Proof.
  induction t as [|x t IH]; [by intros ?%elem_of_nil|].
  simpl. destruct (p x) eqn:Hx; [|by right].
  intros [->|Hin]%elem_of_cons; [by left|by apply IH].
Qed.

Lemma strip_by_chars (p : Z -> bool) (t : text) (c : Z) :
  c ∈ t -> p c = true \/ c ∈ Py.strip_by p t.
Proof.
  intros Hin. unfold Py.strip_by.
  destruct (lstrip_by_chars p t c Hin) as [?|Hin1]; [by left|].
  apply list_elem_of_In, in_rev, list_elem_of_In in Hin1.
  destruct (lstrip_by_chars p _ c Hin1) as [?|Hin2]; [by left|].
  right. by apply list_elem_of_In, in_rev, list_elem_of_In in Hin2.
Qed.

Section Sizes.
Context {U : UnicodeData} {P : Platform}.

Lemma int_digits_chars (t : text) (acc : Z) (after : bool) (n : Z) :
  Py.int_digits acc after t = Some n ->
  Forall (fun c => c = 95 \/ is_Some (Py.int_digit c)) t.
Proof.
  revert acc after. induction t as [|c t IH]; intros acc after; [done|].
  simpl. destruct (Z.eqb_spec c 95) as [->|Hc].
  - destruct after; [done|]. intros H. constructor; [by left|by eapply IH].
  - destruct (Py.int_digit c) as [d|] eqn:Hd; [|done].
    intros H. constructor; [right; by rewrite Hd|by eapply IH].
Qed.

Lemma int_unsigned_chars (t : text) (n : Z) :
  Py.int_unsigned t = Some n ->
  Forall (fun c => c = 95 \/ is_Some (Py.int_digit c)) t.
Proof.
  destruct t as [|c t]; [done|]. simpl.
  destruct (Py.int_digit c) as [d|] eqn:Hd; [|done].
  intros H. constructor; [right; by rewrite Hd|by eapply int_digits_chars].
Qed.

(** What [int] reads is made of white space, digits, underscores and
    signs. *)
Lemma int_chars (t : text) (n : Z) (c : Z) :
  Py.int t = Some n -> c ∈ t ->
  Py.int_space c = true \/ is_Some (Py.int_digit c) \/ c = 95 \/ c = 43 \/ c = 45.
Proof.
  unfold Py.int. intros Hint Hin.
  destruct (strip_by_chars Py.int_space t c Hin) as [?|Hin']; [by left|].
  right. destruct (Py.strip_by Py.int_space t) as [|s t']; [done|].
  assert (forall u m, Py.int_unsigned u = Some m -> c ∈ u ->
            is_Some (Py.int_digit c) \/ c = 95 \/ c = 43 \/ c = 45) as Hu.
  { intros u m Hm Hc. apply int_unsigned_chars in Hm.
    rewrite Forall_forall in Hm. destruct (Hm c Hc); auto. }
  destruct (Z.eqb_spec s 43) as [->|H43].
  { apply elem_of_cons in Hin' as [->|Hin']; [auto|by eapply Hu]. }
  destruct (Z.eqb_spec s 45) as [->|H45].
  { apply elem_of_cons in Hin' as [->|Hin']; [auto|].
    destruct (Py.int_unsigned t') as [m|] eqn:Hm; [|done]. by eapply Hu. }
  by eapply Hu.
Qed.

(** X23.  A size word that holds an ASCII character other than a digit, an
    underscore or a sign, such as the point of [1.5] or the letters of
    [0x10] and [1e3], is answered with the invalid-size error, whatever the
    command; the files are not touched. *)
Theorem size_word_refused (conn : stream) (fs : gmap text bytes)
  (hd : bytes) (conn' : stream) (p0 filename p2 : text) (more : list text)
  (c : Z) :
  recv_header conn [] = Some (hd, conn') ->
  header_parts hd = p0 :: filename :: p2 :: more ->
  is_valid_filename filename = true ->
  c ∈ p2 -> c < 128 -> ~ 48 <= c <= 57 -> c <> 95 -> c <> 43 -> c <> 45 ->
  handle_client_raw conn fs =
  {| incoming := conn'; outgoing := [error "Invalid file size"];
     files := fs; accesses := [] |}.
Proof.
  intros Hrecv Hparts Hvalid Hin Hascii Hdigit H95 H43 H45.
  assert (Py.int p2 = None) as Hint.
  { destruct (Py.int p2) as [n|] eqn:Hint; [|done]. exfalso.
    destruct (header_part_no_space hd 2 p2) as [_ Hwords];
      [by rewrite Hparts|].
    rewrite Forall_forall in Hwords. specialize (Hwords c Hin).
    destruct (int_chars p2 n c Hint Hin) as [Hs|[Hd|?]]; [| |lia].
    - unfold Py.int_space in Hs. rewrite (proj2 (Z.ltb_lt c 128)) in Hs by done.
      unfold Py.is_space in Hwords.
      repeat (apply orb_false_elim in Hwords as [Hwords ?]).
      apply orb_prop in Hs as [Hs|Hs]; [congruence|].
      apply Z.eqb_eq in Hs as ->. done.
    - unfold Py.int_digit in Hd.
      destruct (Z.leb_spec 48 c), (Z.leb_spec c 57); cbn [andb] in Hd;
        try lia; rewrite (proj2 (Z.ltb_lt c 128)) in Hd by done;
        by destruct Hd. }
  unfold handle_client_raw. rewrite Hrecv. cbn zeta.
  by rewrite Hparts, Hvalid, Hint.
Qed.

End Sizes.

(** A size with a point. *)
Lemma size_word_refused_witness :
  handle_client_raw (U := ascii_only) (P := posix) [blit "UPLOAD a.txt 1.5" ++ delimiter]
    {[ tlit "storage/a.txt" := blit "old" ]} =
  {| incoming := []; outgoing := [error "Invalid file size"];
     files := {[ tlit "storage/a.txt" := blit "old" ]}; accesses := [] |}.
Proof.
  apply (size_word_refused (U := ascii_only) _ _
           (blit "UPLOAD a.txt 1.5" ++ delimiter) []
           (tlit "UPLOAD") (tlit "a.txt") (tlit "1.5") [] 46);
    try reflexivity; try lia.
  repeat constructor.
Defined.


(** ** Names that lead to a directory *)

Section Directories.
Context {U : UnicodeData} {P : Platform}.

(** Under the storage directory, a name the guards let through leads to
    one of the entries [.] and [..] when it is [.] or [..], and then only. *)
Lemma accepted_dot_entry (conn : stream) (hd : bytes) (conn' : stream)
  (command filename : text) (filesize : Z) :
  accepted conn hd conn' command filename filesize ->
  Fs.dot_entry (Fs.path_join STORAGE_DIR filename) =
  bool_decide (filename = tlit "." \/ filename = tlit "..").
Proof.
  intros Hreq. rewrite (accepted_path _ _ _ _ _ _ Hreq).
  unfold Fs.dot_entry, Fs.basename.
  change (Fs.basename_from [] (tlit "storage/" ++ filename))
    with (Fs.basename_from [] filename).
  rewrite basename_from_plain by by eapply accepted_no_slash. done.
Qed.

(** X24.  The names [.] and [..] pass the pattern and lead to directories.
    An upload under one of them, whose size covers what came with the
    header, is answered with the error [open] raised: nothing is stored,
    and the payload still on the stream is not read. *)
Theorem upload_under_directory_name (conn : stream) (fs : gmap text bytes)
  (hd : bytes) (conn' : stream) (filename : text) (filesize : Z) :
  accepted conn hd conn' (tlit "UPLOAD") filename filesize ->
  Z.of_nat (length (leftover hd)) <= filesize ->
  filename = tlit "." \/ filename = tlit ".." ->
  fs !! Fs.path_join STORAGE_DIR filename = None ->
  handle_client_raw conn fs =
  {| incoming := conn';
     outgoing :=
       [response (tlit "ERROR")
          (JStr (open_dir_error (Fs.path_join STORAGE_DIR filename)))];
     files := fs;
     accesses := [Fs.OpenWrite (Fs.path_join STORAGE_DIR filename)] |}.
Proof.
  intros Hreq Hle Hname Hfile.
  apply (handle_upload_dir conn fs _ _ _ _ Hreq Hle).
  unfold Fs.isdir. rewrite Hfile, (accepted_dot_entry _ _ _ _ _ _ Hreq).
  by apply bool_decide_eq_true.
Qed.

(** X25.  A GET under [.] or [..] finds the directory: the handler answers
    OK with the size of the directory, then [open] raises and the error
    follows as a second response, with no byte of a file between them. *)
Theorem get_of_directory_name (conn : stream) (fs : gmap text bytes)
  (hd : bytes) (conn' : stream) (filename : text) (filesize : Z) :
  accepted conn hd conn' (tlit "GET") filename filesize ->
  filename = tlit "." \/ filename = tlit ".." ->
  fs !! Fs.path_join STORAGE_DIR filename = None ->
  handle_client_raw conn fs =
  {| incoming := conn';
     outgoing :=
       [response (tlit "OK")
          (JObj [(tlit "filename", JStr filename);
                 (tlit "filesize",
                  JInt (dir_size (Fs.path_join STORAGE_DIR filename)))]);
        response (tlit "ERROR")
          (JStr (open_dir_error (Fs.path_join STORAGE_DIR filename)))];
     files := fs;
     accesses := [Fs.Exists (Fs.path_join STORAGE_DIR filename);
                  Fs.Getsize (Fs.path_join STORAGE_DIR filename);
                  Fs.OpenRead (Fs.path_join STORAGE_DIR filename)] |}.
Proof.
  intros Hreq Hname Hfile.
  rewrite (handle_get _ _ _ _ _ _ Hreq). cbn zeta.
  rewrite Hfile, (accepted_dot_entry _ _ _ _ _ _ Hreq).
  by rewrite bool_decide_eq_true_2.
Qed.

(** Under every other name the guards let through there is no directory:
    [open] for writing does not raise, and a GET finds the stored file or
    nothing. *)
Lemma other_names_no_directory (conn : stream) (fs : gmap text bytes)
  (hd : bytes) (conn' : stream) (command filename : text) (filesize : Z) :
  accepted conn hd conn' command filename filesize ->
  filename <> tlit "." -> filename <> tlit ".." ->
  Fs.isdir (Fs.path_join STORAGE_DIR filename) fs = false /\
  Fs.open_wb (Fs.path_join STORAGE_DIR filename) fs =
    Some (<[Fs.path_join STORAGE_DIR filename := []]> fs) /\
  Fs.path_exists (Fs.path_join STORAGE_DIR filename) fs =
    bool_decide (is_Some (fs !! Fs.path_join STORAGE_DIR filename)).
Proof.
  intros Hreq Hdot Hdotdot.
  assert (Fs.isdir (Fs.path_join STORAGE_DIR filename) fs = false) as Hdir.
  { unfold Fs.isdir. destruct (fs !! _); [done|].
    rewrite (accepted_dot_entry _ _ _ _ _ _ Hreq).
    apply bool_decide_eq_false. by intros [?|?]. }
  split_and!; [done|by apply open_wb_file|].
  unfold Fs.path_exists. rewrite Hdir.
  destruct (fs !! _); [by rewrite bool_decide_eq_true_2|].
  by rewrite bool_decide_eq_false_2 by by intros [? ?].
Qed.

End Directories.

(** An upload under [.], with all its bytes on the stream. *)
Lemma upload_under_directory_name_witness :
  handle_client_raw (U := ascii_only) (P := posix)
    [blit "UPLOAD . 2" ++ delimiter; blit "hi"] ∅ =
  {| incoming := [blit "hi"];
     outgoing :=
       [response (tlit "ERROR")
          (JStr (@open_dir_error posix (Fs.path_join STORAGE_DIR (tlit "."))))];
     files := ∅;
     accesses := [Fs.OpenWrite (Fs.path_join STORAGE_DIR (tlit "."))] |}.
Proof.
  apply (upload_under_directory_name (U := ascii_only) (P := posix) _ _
           (blit "UPLOAD . 2" ++ delimiter) [blit "hi"] (tlit ".") 2).
  - accept_request.
  - vm_compute. discriminate.
  - by left.
  - reflexivity.
Defined.

(** A GET under [..]. *)
Lemma get_of_directory_name_witness :
  handle_client_raw (U := ascii_only) (P := posix)
    [blit "GET .. 0" ++ delimiter] ∅ =
  {| incoming := [];
     outgoing :=
       [response (tlit "OK")
          (JObj [(tlit "filename", JStr (tlit ".."));
                 (tlit "filesize",
                  JInt (@dir_size posix (Fs.path_join STORAGE_DIR (tlit ".."))))]);
        response (tlit "ERROR")
          (JStr (@open_dir_error posix (Fs.path_join STORAGE_DIR (tlit ".."))))];
     files := ∅;
     accesses := [Fs.Exists (Fs.path_join STORAGE_DIR (tlit ".."));
                  Fs.Getsize (Fs.path_join STORAGE_DIR (tlit ".."));
                  Fs.OpenRead (Fs.path_join STORAGE_DIR (tlit ".."))] |}.
Proof.
  apply (get_of_directory_name (U := ascii_only) (P := posix) _ _
           (blit "GET .. 0" ++ delimiter) [] (tlit "..") 0).
  - accept_request.
  - by right.
  - reflexivity.
Defined.
